(** * AirForge: voxel store, visible-face cache, gesture state machine and
      motion sanity filter

    A shallow embedding of [src/voxel_engine.py], of
    [src/gesture_detector.py], of the smoother, the sanity filter and
    [process] of [src/hand_tracker.py], of the orbit state of
    [src/camera.py] and of the gesture handling of [main.py], followed by
    the properties of the specification that concern them and by further
    properties of the code.

    Python values are modelled as follows.
    - [int] is [Z]; a coordinate or a colour is a triple of [Z].
    - [float] is IEEE binary64, Rocq's primitive [float]; comparisons and
      arithmetic are the primitive ones, so every definition evaluates.
    - an operation that may raise returns an [option]; [None] is the
      exception: [IndexError] of a list index, [OverflowError] of an [int]
      too large for a [float] or of [x ** 2], [ValueError] or
      [OverflowError] of [int] and [round] on a NaN or an infinity.
    - [x ** 2] is the C library's [pow]; its value is a parameter of the
      embedding of [gesture_detector.py].
    - a [dict] is an insertion-ordered association list without repeated
      keys: iteration order is part of what [get_visible_faces] returns.
    - a [list] used as a stack keeps Python's order (oldest entry first).
    - string tags that range over a fixed set of literals are inductive
      types. *)

From Stdlib Require Import ZArith List Bool Lia Permutation.
From Stdlib Require Import Floats.PrimFloat Floats.FloatOps Floats.SpecFloat.
From Stdlib Require Import Floats.FloatAxioms.
Import ListNotations.

#[local] Set Warnings "-inexact-float".
#[local] Open Scope Z_scope.

(* ================================================================== *)
(** * Part I: the embedding *)
(* ================================================================== *)

(** ** Insertion-ordered dictionaries keyed by grid coordinates *)

Definition Pos : Type := Z * Z * Z.
Definition RGB : Type := Z * Z * Z.

Definition pos_eqb (p q : Pos) : bool :=
  let '(x, y, z) := p in
  let '(x', y', z') := q in
  (x =? x') && (y =? y') && (z =? z').

Module PyDict.
Section Dict.
Context {V : Type}.

Definition t : Type := list (Pos * V).

(** [d.get(k)] *)
Fixpoint get (d : t) (k : Pos) : option V :=
  match d with
  | [] => None
  | (k', v) :: r => if pos_eqb k k' then Some v else get r k
  end.

(** [k in d] *)
Definition contains (d : t) (k : Pos) : bool :=
  match get d k with Some _ => true | None => false end.

(** [d[k] = v]: an existing key keeps its place, a new key goes last. *)
Fixpoint set (d : t) (k : Pos) (v : V) : t :=
  match d with
  | [] => [(k, v)]
  | (k', v') :: r =>
      if pos_eqb k k' then (k', v) :: r else (k', v') :: set r k v
  end.

(** [del d[k]]; the callers test [k in d] first. *)
Fixpoint del (d : t) (k : Pos) : t :=
  match d with
  | [] => []
  | (k', v') :: r =>
      if pos_eqb k k' then del r k else (k', v') :: del r k
  end.

Definition keys (d : t) : list Pos := map fst d.
End Dict.
Arguments t : clear implicits.
End PyDict.

(** ** Floating-point helpers *)

(** The binary64 float nearest to an integer (ties to even); an infinity
    when the integer rounds beyond the largest finite float. *)
Definition float_of_Z (n : Z) : float :=
  SF2Prim (binary_normalize prec emax n 0 false).

(** Python's conversion of an [int] to a [float], as the arithmetic
    operators apply it to an [int] operand that meets a [float]: the nearest
    float, and [OverflowError] ([None]) when that is beyond the largest
    finite float, that is from [2^1024 - 2^970] on in magnitude. *)
Definition py_float (n : Z) : option float :=
  let f := float_of_Z n in
  if is_infinity f then None else Some f.

(** [x ** 2] on a [float] is the C library's [pow(x, 2.0)], with
    [OverflowError] when [pow] reports a range error.  The source does not
    fix its value: C libraries differ in the last bit, and the result need
    not be the product [x * x].  The embedding of [gesture_detector.py]
    therefore takes the operation as a parameter [pow2].  This is one such
    operation, the correctly rounded square, raising when a finite argument
    has a square beyond the largest finite float; the examples run the
    detector with it, the theorems hold for every [pow2]. *)
Definition pow2_nearest (x : float) : option float :=
  let r := (x * x)%float in
  if is_infinity r && negb (is_infinity x) then None else Some r.

(** [max(a, b)] and [min(a, b)] as Python computes them: the first argument
    is kept unless the second compares strictly beyond it. *)
Definition py_max (a b : float) : float := if (a <? b)%float then b else a.
Definition py_min (a b : float) : float := if (b <? a)%float then b else a.



(** [int(x)] of a [float]: truncation toward zero, raising as [round]. *)
Definition py_int (f : float) : option Z :=
  match Prim2SF f with
  | S754_zero _ => Some 0
  | S754_finite s m e =>
      let n := if 0 <=? e then Z.pos m * 2 ^ e else Z.pos m / 2 ^ (- e) in
      Some (if s then - n else n)
  | S754_infinity _ | S754_nan => None
  end.

(** ** Integer ranges *)

(** [range(lo, hi)] and [range(n)]. *)
Definition py_range2 (lo hi : Z) : list Z :=
  map (fun i : nat => lo + Z.of_nat i) (seq 0 (Z.to_nat (hi - lo))).

Definition py_range (n : Z) : list Z := py_range2 0 n.

(** ** [src/voxel_engine.py] *)

Record Voxel : Type := mkVoxel { color : RGB }.

Inductive Action : Type := Place | Remove.

Inductive Face : Type := Right | Left | Top | Bottom | Front | Back.

(** One element of the list returned by [get_visible_faces]. *)
Record FaceRec : Type := mkFaceRec {
  face_pos : Pos;
  face_dir : Face;
  face_color : RGB
}.

Definition UndoRec : Type := Action * Pos * option Voxel.

Module VoxelEngine.

Definition COLORS : list RGB :=
  [ (255, 100, 50); (50, 150, 255); (50, 255, 100); (255, 50, 150);
    (255, 255, 50); (150, 50, 255); (255, 255, 255); (100, 100, 100) ].

(** [self.max_undo], set once by [__init__]. *)
Definition max_undo : nat := 50.

Record t : Type := mk {
  grid_size : Z;
  voxels : PyDict.t Voxel;
  current_color_index : Z;
  undo_stack : list UndoRec;
  _visible_faces_cache : option (list FaceRec)
}.

Definition with_voxels (s : t) (d : PyDict.t Voxel) : t :=
  mk (grid_size s) d (current_color_index s) (undo_stack s)
     (_visible_faces_cache s).

Definition with_undo_stack (s : t) (u : list UndoRec) : t :=
  mk (grid_size s) (voxels s) (current_color_index s) u
     (_visible_faces_cache s).

Definition with_cache (s : t) (c : option (list FaceRec)) : t :=
  mk (grid_size s) (voxels s) (current_color_index s) (undo_stack s) c.

Definition with_color_index (s : t) (i : Z) : t :=
  mk (grid_size s) (voxels s) i (undo_stack s) (_visible_faces_cache s).

(** [__init__] *)
Definition init (grid_size : Z) : t := mk grid_size [] 0 [] None.

(** [current_color], that is [COLORS[current_color_index]], for an index
    within [0, 8): [next_color] and [prev_color], the only writers of the
    index, keep it there.  For an index written from outside the class
    Python wraps a negative index and raises [IndexError] beyond the list;
    this function does not follow it there, and a statement that names the
    colour looked up assumes the index within [0, 8). *)
Definition current_color (s : t) : RGB :=
  nth (Z.to_nat (current_color_index s)) COLORS (0, 0, 0).

Definition next_color (s : t) : t :=
  with_color_index s ((current_color_index s + 1) mod Z.of_nat (length COLORS)).

Definition prev_color (s : t) : t :=
  with_color_index s ((current_color_index s - 1) mod Z.of_nat (length COLORS)).

Definition is_valid_position (s : t) (x y z : Z) : bool :=
  ((0 <=? x) && (x <? grid_size s)) &&
  ((0 <=? y) && (y <? grid_size s)) &&
  ((0 <=? z) && (z <? grid_size s)).

Definition _invalidate_cache (s : t) : t := with_cache s None.

(** [append], then drop the oldest record when over capacity. *)
Definition _push_undo (s : t) (action : Action) (pos : Pos)
    (voxel : option Voxel) : t :=
  let st := undo_stack s ++ [(action, pos, voxel)] in
  with_undo_stack s
    (if (max_undo <? length st)%nat then tl st else st).

Definition place_voxel (s : t) (x y z : Z) (color : option RGB) : bool * t :=
  if negb (is_valid_position s x y z) then (false, s)
  else
    let pos := (x, y, z) in
    let color := match color with Some c => c | None => current_color s end in
    let old_voxel := PyDict.get (voxels s) pos in
    let s := _push_undo s Place pos old_voxel in
    let s := with_voxels s (PyDict.set (voxels s) pos (mkVoxel color)) in
    (true, _invalidate_cache s).

Definition remove_voxel (s : t) (x y z : Z) : bool * t :=
  let pos := (x, y, z) in
  match PyDict.get (voxels s) pos with
  | None => (false, s)
  | Some old_voxel =>
      let s := _push_undo s Remove pos (Some old_voxel) in
      let s := with_voxels s (PyDict.del (voxels s) pos) in
      (true, _invalidate_cache s)
  end.

Definition get_voxel (s : t) (x y z : Z) : option Voxel :=
  PyDict.get (voxels s) (x, y, z).

Definition has_voxel (s : t) (x y z : Z) : bool :=
  PyDict.contains (voxels s) (x, y, z).

(** The effect of one popped record on the voxel dictionary. *)
Definition revert (r : UndoRec) (d : PyDict.t Voxel) : PyDict.t Voxel :=
  let '(action, pos, voxel) := r in
  match action with
  | Place =>
      match voxel with
      | None => if PyDict.contains d pos then PyDict.del d pos else d
      | Some v => PyDict.set d pos v
      end
  | Remove =>
      match voxel with
      | Some v => PyDict.set d pos v
      | None => d
      end
  end.

Definition undo (s : t) : bool * t :=
  match undo_stack s with
  | [] => (false, s)
  | r0 :: rest =>
      let r := last (r0 :: rest) r0 in
      let s := with_undo_stack s (removelast (r0 :: rest)) in
      let s := with_voxels s (revert r (voxels s)) in
      (true, _invalidate_cache s)
  end.

Definition directions : list ((Z * Z * Z) * Face) :=
  [ ((1, 0, 0), Right); ((-1, 0, 0), Left);
    ((0, 1, 0), Top); ((0, -1, 0), Bottom);
    ((0, 0, 1), Front); ((0, 0, -1), Back) ].

(** The two nested loops of [get_visible_faces], run when the cache is
    empty. *)
Definition rebuild_faces (s : t) : list FaceRec :=
  flat_map
    (fun item : Pos * Voxel =>
       let '((x, y, z), voxel) := item in
       flat_map
         (fun dir : (Z * Z * Z) * Face =>
            let '((dx, dy, dz), face) := dir in
            if negb (has_voxel s (x + dx) (y + dy) (z + dz))
            then [mkFaceRec (x, y, z) face (color voxel)]
            else [])
         directions)
    (voxels s).

Definition get_visible_faces (s : t) : list FaceRec * t :=
  match _visible_faces_cache s with
  | Some faces => (faces, s)
  | None =>
      let faces := rebuild_faces s in
      (faces, with_cache s (Some faces))
  end.

Definition get_all_voxels (s : t) : list (Pos * RGB) :=
  map (fun item : Pos * Voxel => (fst item, color (snd item))) (voxels s).

Definition clear (s : t) : t :=
  _invalidate_cache (with_undo_stack (with_voxels s []) []).

(** *** Sequences of calls *)

Inductive Op : Type :=
| OpPlace (x y z : Z) (color : option RGB)
| OpRemove (x y z : Z)
| OpUndo
| OpClear
| OpGetVisibleFaces
| OpNextColor
| OpPrevColor.

Definition step (s : t) (op : Op) : t :=
  match op with
  | OpPlace x y z c => snd (place_voxel s x y z c)
  | OpRemove x y z => snd (remove_voxel s x y z)
  | OpUndo => snd (undo s)
  | OpClear => clear s
  | OpGetVisibleFaces => snd (get_visible_faces s)
  | OpNextColor => next_color s
  | OpPrevColor => prev_color s
  end.

Definition run (s : t) (ops : list Op) : t := fold_left step ops s.

(** The edits that write a record to the undo log. *)
Inductive Edit : Type :=
| EPlace (x y z : Z) (color : option RGB)
| ERemove (x y z : Z).

Definition op_of_edit (e : Edit) : Op :=
  match e with
  | EPlace x y z c => OpPlace x y z c
  | ERemove x y z => OpRemove x y z
  end.

Fixpoint undo_n (n : nat) (s : t) : t :=
  match n with
  | O => s
  | S n' => undo_n n' (snd (undo s))
  end.

(** *** The remaining methods *)

(** [create_floor]: every cell of the level [y] is written, in the order of
    the two loops; nothing is recorded in the undo log and [y] is not
    checked. *)
Definition create_floor (s : t) (y : Z) (color : RGB) : t :=
  let d :=
    fold_left
      (fun (d : PyDict.t Voxel) (x : Z) =>
         fold_left
           (fun (d : PyDict.t Voxel) (z : Z) =>
              PyDict.set d (x, y, z) (mkVoxel color))
           (py_range (grid_size s)) d)
      (py_range (grid_size s)) (voxels s) in
  _invalidate_cache (with_voxels s d).



End VoxelEngine.

(** ** Landmarks *)

Module Landmark.
Record t : Type := mk { x : float; y : float; z : float }.
End Landmark.

(** A frame as the tracking backend delivers it: a Python list, expected to
    hold 21 points.  [landmarks[i]] raises [IndexError] past the end, which
    is the [None] of [nth_error]. *)
Definition Frame : Type := list Landmark.t.

Definition WRIST : nat := 0.
Definition THUMB_CMC : nat := 1.
Definition THUMB_MCP : nat := 2.
Definition THUMB_IP : nat := 3.
Definition THUMB_TIP : nat := 4.
Definition INDEX_MCP : nat := 5.
Definition INDEX_PIP : nat := 6.
Definition INDEX_DIP : nat := 7.
Definition INDEX_TIP : nat := 8.
Definition MIDDLE_MCP : nat := 9.
Definition MIDDLE_PIP : nat := 10.
Definition MIDDLE_DIP : nat := 11.
Definition MIDDLE_TIP : nat := 12.
Definition RING_MCP : nat := 13.
Definition RING_PIP : nat := 14.
Definition RING_DIP : nat := 15.
Definition RING_TIP : nat := 16.
Definition PINKY_MCP : nat := 17.
Definition PINKY_PIP : nat := 18.
Definition PINKY_DIP : nat := 19.
Definition PINKY_TIP : nat := 20.

(** Sequencing of computations that may raise. *)
Definition bind {A B : Type} (m : option A) (k : A -> option B) : option B :=
  match m with
  | Some a => k a
  | None => None
  end.

Notation "x <- m ;; k" := (bind m (fun x => k))
  (at level 61, m at next level, right associativity).

(** ** [src/gesture_detector.py] *)

Inductive Gesture : Type := NONE | POINT | PINCH | GRAB | PALM | PEACE.

Inductive State : Type := IDLE | HAND_PRESENT | PRE_PINCH | PINCHED | RELEASE.

Inductive Finger : Type := index | middle | ring | pinky.

Definition gesture_eqb (a b : Gesture) : bool :=
  match a, b with
  | NONE, NONE | POINT, POINT | PINCH, PINCH
  | GRAB, GRAB | PALM, PALM | PEACE, PEACE => true
  | _, _ => false
  end.

Definition state_eqb (a b : State) : bool :=
  match a, b with
  | IDLE, IDLE | HAND_PRESENT, HAND_PRESENT | PRE_PINCH, PRE_PINCH
  | PINCHED, PINCHED | RELEASE, RELEASE => true
  | _, _ => false
  end.

(** The dictionary built by [_get_gesture_scores]. *)
Record Scores : Type := mkScores {
  pinch : float;
  palm : float;
  grab : float;
  peace : float
}.

Module GestureDetector.
#[local] Open Scope float_scope.

Definition pinch_threshold : float := 0.8.
Definition curl_threshold : float := 0.03.
Definition min_hold_frames : Z := 3.

Record t : Type := mk {
  last_scores : option Scores;
  last_gesture : Gesture;
  gesture_hold_frames : Z;
  state : State;
  state_frames : Z
}.

(** [__init__]; [last_scores] starts as the empty dictionary. *)
Definition init : t := mk None NONE 0%Z IDLE 0%Z.

Section Pow.

(** The operation [x ** 2] of the platform; [None] is its [OverflowError]. *)
Variable pow2 : float -> option float.

(** The three squares are taken from left to right; the first that raises
    ends the call. *)
Definition _dist (p1 p2 : Landmark.t) : option float :=
  sx <- pow2 (Landmark.x p1 - Landmark.x p2) ;;
  sy <- pow2 (Landmark.y p1 - Landmark.y p2) ;;
  sz <- pow2 (Landmark.z p1 - Landmark.z p2) ;;
  Some (sqrt (sx + sy + sz)).

Definition _get_hand_scale (landmarks : Frame) : option float :=
  wrist <- nth_error landmarks WRIST ;;
  index_mcp <- nth_error landmarks INDEX_MCP ;;
  middle_mcp <- nth_error landmarks MIDDLE_MCP ;;
  d1 <- _dist wrist index_mcp ;;
  d2 <- _dist wrist middle_mcp ;;
  Some (py_max (py_max d1 d2) 0.01).

Definition finger_tips (finger : Finger) : nat * nat * nat :=
  match finger with
  | index => (INDEX_MCP, INDEX_PIP, INDEX_TIP)
  | middle => (MIDDLE_MCP, MIDDLE_PIP, MIDDLE_TIP)
  | ring => (RING_MCP, RING_PIP, RING_TIP)
  | pinky => (PINKY_MCP, PINKY_PIP, PINKY_TIP)
  end.

Definition _is_finger_extended (landmarks : Frame) (finger : Finger)
    : option bool :=
  let '(mcp, pip, tip) := finger_tips finger in
  lm_mcp <- nth_error landmarks mcp ;;
  lm_pip <- nth_error landmarks pip ;;
  lm_tip <- nth_error landmarks tip ;;
  let mcp_y := Landmark.y lm_mcp in
  let pip_y := Landmark.y lm_pip in
  let tip_y := Landmark.y lm_tip in
  Some ((tip_y <? pip_y - curl_threshold) && (tip_y <? mcp_y)).

Definition _is_thumb_extended (landmarks : Frame) : option bool :=
  thumb_tip <- nth_error landmarks THUMB_TIP ;;
  thumb_mcp <- nth_error landmarks THUMB_MCP ;;
  index_mcp <- nth_error landmarks INDEX_MCP ;;
  let thumb_tip_dist := abs (Landmark.x thumb_tip - Landmark.x index_mcp) in
  let thumb_mcp_dist := abs (Landmark.x thumb_mcp - Landmark.x index_mcp) in
  Some (thumb_mcp_dist + 0.05 <? thumb_tip_dist).

Definition _get_gesture_scores (landmarks : Frame) (scale : float)
    : option Scores :=
  thumb_tip <- nth_error landmarks THUMB_TIP ;;
  index_tip <- nth_error landmarks INDEX_TIP ;;
  pinch_dist <- _dist thumb_tip index_tip ;;
  let norm_pinch := pinch_dist / scale in
  let pinch := py_max 0 (py_min 1 (1 - norm_pinch / 0.5)) in
  e0 <- _is_finger_extended landmarks index ;;
  e1 <- _is_finger_extended landmarks middle ;;
  e2 <- _is_finger_extended landmarks ring ;;
  e3 <- _is_finger_extended landmarks pinky ;;
  let ext_count := (Z.b2z e0 + Z.b2z e1 + Z.b2z e2 + Z.b2z e3)%Z in
  thumb_ext <- _is_thumb_extended landmarks ;;
  let palm := if (ext_count =? 4)%Z && thumb_ext then 1 else 0 in
  let grab := if (ext_count =? 0)%Z && negb thumb_ext then 1 else 0 in
  let is_peace := e0 && e1 && negb e2 && negb e3 in
  let peace := if is_peace then 1 else 0 in
  Some (mkScores pinch palm grab peace).

(** Step 2 of [detect]: the new state and the raw label [new_gesture]. *)
Definition transition (st : State) (scores : Scores) : State * Gesture :=
  let pinch_score := pinch scores in
  let st := if state_eqb st IDLE then HAND_PRESENT else st in
  match st with
  | HAND_PRESENT =>
      if 0.4 <? pinch_score then (PRE_PINCH, NONE)
      else if 0.8 <? palm scores then (HAND_PRESENT, PALM)
      else if 0.8 <? grab scores then (HAND_PRESENT, GRAB)
      else if 0.8 <? peace scores then (HAND_PRESENT, PEACE)
      else (HAND_PRESENT, POINT)
  | PRE_PINCH =>
      let st' :=
        if 0.7 <? pinch_score then PINCHED
        else if pinch_score <? 0.3 then HAND_PRESENT
        else PRE_PINCH in
      (st', POINT)
  | PINCHED =>
      if pinch_score <? 0.5 then (RELEASE, NONE) else (PINCHED, PINCH)
  | RELEASE =>
      let st' :=
        if pinch_score <? 0.3 then HAND_PRESENT
        else if 0.8 <? pinch_score then RELEASE
        else RELEASE in
      (st', POINT)
  | IDLE => (IDLE, NONE)
  end.

(** Steps 2 and 3 of [detect], from the assignment of [last_scores] on:
    the transition, then the debounce of the output label. *)
Definition detect_scored (d : t) (scores : Scores) : Gesture * t :=
  let '(st, new_gesture) := transition (state d) scores in
  let '(hold, last) :=
    if gesture_eqb new_gesture (last_gesture d)
    then ((gesture_hold_frames d + 1)%Z, last_gesture d)
    else (1%Z, new_gesture) in
  let d' := mk (Some scores) last hold st (state_frames d) in
  if gesture_eqb new_gesture PINCH && state_eqb st PINCHED then (PINCH, d')
  else if (min_hold_frames <=? hold)%Z then (new_gesture, d')
  else (NONE, d').

Definition detect (d : t) (landmarks : option Frame) : option (Gesture * t) :=
  match landmarks with
  | None =>
      Some (NONE, mk (last_scores d) NONE 0%Z IDLE (state_frames d))
  | Some lm =>
      scale <- _get_hand_scale lm ;;
      if scale =? 0 then Some (NONE, d)
      else
        scores <- _get_gesture_scores lm scale ;;
        Some (detect_scored d scores)
  end.

End Pow.

(** *** Sequences of ticks *)

(** What one tick hands to the state machine: no usable frame, or the
    scores of the frame. *)
Inductive Tick : Type :=
| NoHand
| Hand (scores : Scores).

Definition tick (d : t) (k : Tick) : Gesture * t :=
  match k with
  | NoHand => (NONE, mk (last_scores d) NONE 0%Z IDLE (state_frames d))
  | Hand scores => detect_scored d scores
  end.

Definition run (d : t) (ks : list Tick) : t :=
  fold_left (fun d k => snd (tick d k)) ks d.

(** The states after each tick of a run. *)
Fixpoint trace (d : t) (ks : list Tick) : list State :=
  match ks with
  | [] => []
  | k :: ks' => let d' := snd (tick d k) in state d' :: trace d' ks'
  end.

End GestureDetector.

(** ** [src/hand_tracker.py]: the motion sanity filter *)

Module HandTracker.
#[local] Open Scope float_scope.

Definition MAX_SPEED : float := 5.0.

(** The two attributes [_is_velocity_sane] reads and writes. *)
Record t : Type := mk {
  last_sane_landmarks : option Frame;
  last_sane_timestamp : Z
}.

Definition init : t := mk None 0%Z.

(** [None] stands for the exception the call raises: [OverflowError] when
    the difference of the timestamps does not convert to a float,
    [IndexError] when a frame has no wrist point. *)
Definition _is_velocity_sane (s : t) (landmarks : Frame) (timestamp_ms : Z)
    : option (bool * t) :=
  match last_sane_landmarks s with
  | None => Some (true, mk (Some landmarks) timestamp_ms)
  | Some last =>
      elapsed_ms <- py_float (timestamp_ms - last_sane_timestamp s) ;;
      let dt := elapsed_ms / 1000.0 in
      if dt <=? 0 then Some (true, s)
      else
        wrist <- nth_error landmarks 0 ;;
        prev_wrist <- nth_error last 0 ;;
        let dx := Landmark.x wrist - Landmark.x prev_wrist in
        let dy := Landmark.y wrist - Landmark.y prev_wrist in
        let dz := Landmark.z wrist - Landmark.z prev_wrist in
        let dist := sqrt (dx * dx + dy * dy + dz * dz) in
        let speed := dist / dt in
        if MAX_SPEED <? speed then Some (false, s)
        else Some (true, mk (Some landmarks) timestamp_ms)
  end.

End HandTracker.

(** ** [src/hand_tracker.py]: the smoother and the per-frame pipeline *)

Module LandmarkSmoother.
#[local] Open Scope float_scope.

Record t : Type := mk {
  alpha : float;
  jump_threshold : float;
  prev_landmarks : option Frame
}.

(** [__init__] with its default arguments. *)
Definition init : t := mk 0.7 0.1 None.

(** The body of the loop of [update] for one point.  The new point is
    built with the coordinates computed here; its [visibility] and
    [presence] are those of [curr], which the rest of the program never
    reads. *)
Definition new_point (s : t) (curr prev : Landmark.t) : Landmark.t :=
  let dx := Landmark.x curr - Landmark.x prev in
  let dy := Landmark.y curr - Landmark.y prev in
  let dz := Landmark.z curr - Landmark.z prev in
  let dist := sqrt (dx * dx + dy * dy + dz * dz) in
  if jump_threshold s <? dist then curr
  else
    let new_x := alpha s * Landmark.x curr + (1 - alpha s) * Landmark.x prev in
    let new_y := alpha s * Landmark.y curr + (1 - alpha s) * Landmark.y prev in
    let new_z := alpha s * Landmark.z curr + (1 - alpha s) * Landmark.z prev in
    Landmark.mk new_x new_y new_z.

(** The loop of [update] from index [i] on; [prev[i]] raises past the end
    of the stored frame. *)
Fixpoint smooth_from (s : t) (i : nat) (current prev : Frame)
    : option Frame :=
  match current with
  | [] => Some []
  | curr :: rest =>
      p <- nth_error prev i ;;
      smoothed <- smooth_from s (S i) rest prev ;;
      Some (new_point s curr p :: smoothed)
  end.

Definition update (s : t) (current_landmarks : Frame) : option (Frame * t) :=
  match prev_landmarks s with
  | None =>
      Some (current_landmarks,
            mk (alpha s) (jump_threshold s) (Some current_landmarks))
  | Some prev =>
      smoothed <- smooth_from s 0 current_landmarks prev ;;
      Some (smoothed, mk (alpha s) (jump_threshold s) (Some smoothed))
  end.

End LandmarkSmoother.

Module Tracking.

(** The attributes of [HandTracker] that [process] reads and writes beside
    the webcam and the landmarker: the timestamp, the smoother and the two
    attributes of the sanity check. *)
Record t : Type := mk {
  frame_timestamp_ms : Z;
  smoother : LandmarkSmoother.t;
  sanity : HandTracker.t
}.

(** [HandTracker.__init__] *)
Definition init : t :=
  mk 0 (LandmarkSmoother.mk 0.6 0.1 None) HandTracker.init.

(** What the webcam and the landmarker deliver for one call of [process]:
    a failed read, or a frame with the hands found in it. *)
Inductive Capture : Type :=
| ReadFailed
| Captured (hand_landmarks : list Frame).

(** What [process] returns: [(None, None)], [(frame, None)] or
    [(frame, landmarks)]. *)
Inductive Result : Type :=
| NoFrame
| FrameOnly
| FrameWith (landmarks : Frame).

Definition process (s : t) (c : Capture) : option (Result * t) :=
  match c with
  | ReadFailed => Some (NoFrame, s)
  | Captured hand_landmarks =>
      let ts := frame_timestamp_ms s + 33 in
      match hand_landmarks with
      | [] => Some (FrameOnly, mk ts (smoother s) (sanity s))
      | raw_landmarks :: _ =>
          r <- HandTracker._is_velocity_sane (sanity s) raw_landmarks ts ;;
          let '(sane, sanity') := r in
          if sane then
            u <- LandmarkSmoother.update (smoother s) raw_landmarks ;;
            let '(landmarks, smoother') := u in
            Some (FrameWith landmarks, mk ts smoother' sanity')
          else Some (FrameOnly, mk ts (smoother s) sanity')
      end
  end.

(** Successive calls of [process]; an exception ends the run. *)
Fixpoint run (s : t) (cs : list Capture) : option (list Result * t) :=
  match cs with
  | [] => Some ([], s)
  | c :: cs' =>
      r <- process s c ;;
      let '(out, s') := r in
      rs <- run s' cs' ;;
      let '(outs, s'') := rs in
      Some (out :: outs, s'')
  end.

End Tracking.

(** ** [src/camera.py]: the orbit state *)

Module Camera.
#[local] Open Scope float_scope.

(** The attributes [orbit], [zoom] and [update] work on; [target], a
    [float32] array used by the view matrix only, is left out. *)
Record t : Type := mk {
  distance : float;
  yaw : float;
  pitch : float;
  target_yaw : float;
  target_pitch : float
}.

Definition smoothing : float := 0.15.
Definition min_pitch : float := -80.0.
Definition max_pitch : float := 80.0.
Definition min_distance : float := 10.0.
Definition max_distance : float := 100.0.

(** [__init__] *)
Definition init : t := mk 35.0 45.0 30.0 45.0 30.0.

Definition orbit (c : t) (delta_yaw delta_pitch : float) : t :=
  let target_yaw := target_yaw c + delta_yaw in
  let target_pitch := target_pitch c + delta_pitch in
  let target_pitch := py_max min_pitch (py_min max_pitch target_pitch) in
  mk (distance c) (yaw c) (pitch c) target_yaw target_pitch.

Definition zoom (c : t) (delta : float) : t :=
  let distance := distance c - delta in
  let distance := py_max min_distance (py_min max_distance distance) in
  mk distance (yaw c) (pitch c) (target_yaw c) (target_pitch c).

Definition update (c : t) : t :=
  let yaw := yaw c + (target_yaw c - yaw c) * smoothing in
  let pitch := pitch c + (target_pitch c - pitch c) * smoothing in
  mk (distance c) yaw pitch (target_yaw c) (target_pitch c).

End Camera.

(** ** [main.py]: gestures turned into edits *)

Module AirForge.

(** The attributes [_process_gesture], [_create_demo_structure] and the key
    handler read and write.  [action_lock_until], [pinch_fired] and
    [delete_fired] are created together on the first frame with a hand, and
    [_peace_active] on the first pass over the PEACE test: [None] stands
    for an attribute that does not exist yet. *)
Record t : Type := mk {
  voxel_engine : VoxelEngine.t;
  camera : Camera.t;
  grid_size : Z;
  cursor_pos : Pos;
  last_hand_pos : option (float * float * float);
  last_grab_pos : option (float * float * float);
  action_lock : option (Z * bool * bool);
  _peace_active : option bool
}.

Definition with_engine (a : t) (e : VoxelEngine.t) : t :=
  mk e (camera a) (grid_size a) (cursor_pos a) (last_hand_pos a)
     (last_grab_pos a) (action_lock a) (_peace_active a).

(** The cells of the demo platform, in the order of the loops. *)
Definition demo_cells (grid_size : Z) : list Pos :=
  let center := grid_size / 2 in
  flat_map
    (fun x : Z =>
       map (fun z : Z => (x, 0, z)) (py_range2 (center - 2) (center + 3)))
    (py_range2 (center - 2) (center + 3)).

Definition _create_demo_structure (a : t) : t :=
  with_engine a
    (fold_left
       (fun (e : VoxelEngine.t) (p : Pos) =>
          let '(x, y, z) := p in
          snd (VoxelEngine.place_voxel e x y z (Some (100, 100, 100))))
       (demo_cells (grid_size a)) (voxel_engine a)).

(** [__init__], without the window, the tracker and the detector. *)
Definition init (grid_size : Z) : t :=
  _create_demo_structure
    (mk (VoxelEngine.init grid_size) Camera.init grid_size
        (grid_size / 2, grid_size / 2, grid_size / 2)
        None None None None).

(** The keys [_handle_events] passes on to the engine and the camera. *)
Inductive Key : Type := K_z | K_c | K_r | K_x.

Definition handle_key (a : t) (k : Key) : t :=
  match k with
  | K_z => with_engine a (snd (VoxelEngine.undo (voxel_engine a)))
  | K_c => with_engine a (VoxelEngine.next_color (voxel_engine a))
  | K_r =>
      mk (voxel_engine a)
         (Camera.mk (Camera.distance (camera a)) 45 30 45 30)
         (grid_size a) (cursor_pos a) (last_hand_pos a) (last_grab_pos a)
         (action_lock a) (_peace_active a)
  | K_x =>
      _create_demo_structure
        (with_engine a (VoxelEngine.clear (voxel_engine a)))
  end.

(** [max(0, min(self.grid_size - 1, v))] *)
Definition clamp (a : t) (v : Z) : Z := Z.max 0 (Z.min (grid_size a - 1) v).

(** The cursor computed from the index finger tip.  The first product
    converts [grid_size] to a float and raises where that overflows; the
    later conversions are of the same integer.  [grid_size / 2], a quotient
    of two [int]s, is the correctly rounded quotient: the float of
    [grid_size] halved, which is exact. *)
Definition cursor_from (a : t) (hand_pos : float * float * float)
    : option Pos :=
  let '(hx, hy, hz) := hand_pos in
  size <- py_float (grid_size a) ;;
  cursor_x <- py_int (hx * size)%float ;;
  cursor_y <- py_int ((1 - hy) * size)%float ;;
  cursor_z <- py_int (size / 2 - hz * 50)%float ;;
  Some (clamp a cursor_x, clamp a cursor_y, clamp a cursor_z).

(** [_process_gesture]; [current_time] is the value of
    [pygame.time.get_ticks()] read during the call. *)
Definition _process_gesture (a : t) (gesture : Gesture)
    (landmarks : option Frame) (current_time : Z) : option t :=
  match landmarks with
  | None =>
      Some (mk (voxel_engine a) (camera a) (grid_size a) (cursor_pos a)
               None None (action_lock a) (_peace_active a))
  | Some lm =>
      tip <- nth_error lm INDEX_TIP ;;
      let hand_pos := (Landmark.x tip, Landmark.y tip, Landmark.z tip) in
      cursor <- cursor_from a hand_pos ;;
      let '(lock_until, pinch_fired, delete_fired) :=
        match action_lock a with
        | Some l => l
        | None => (0, false, false)
        end in
      let pinch_fired :=
        if gesture_eqb gesture PINCH then pinch_fired else false in
      let delete_fired :=
        if gesture_eqb gesture PALM then delete_fired else false in
      if (current_time <? lock_until) then
        Some (mk (voxel_engine a) (camera a) (grid_size a) cursor
                 (last_hand_pos a) (last_grab_pos a)
                 (Some (lock_until, pinch_fired, delete_fired))
                 (_peace_active a))
      else
        let '(x, y, z) := cursor in
        (* the chain PINCH / PALM / GRAB / else *)
        let '(engine, cam, grab, lock_until, pinch_fired, delete_fired) :=
          match gesture with
          | PINCH =>
              if negb pinch_fired then
                let '(ok, e) :=
                  VoxelEngine.place_voxel (voxel_engine a) x y z None in
                if ok then
                  (e, camera a, last_grab_pos a,
                   (current_time + 200), true, delete_fired)
                else
                  (e, camera a, last_grab_pos a,
                   lock_until, pinch_fired, delete_fired)
              else
                (voxel_engine a, camera a, last_grab_pos a,
                 lock_until, pinch_fired, delete_fired)
          | PALM =>
              if negb delete_fired || (lock_until <? current_time) then
                let '(ok, e) :=
                  VoxelEngine.remove_voxel (voxel_engine a) x y z in
                if ok then
                  (e, camera a, last_grab_pos a,
                   (current_time + 150), pinch_fired, true)
                else
                  (e, camera a, last_grab_pos a,
                   lock_until, pinch_fired, delete_fired)
              else
                (voxel_engine a, camera a, last_grab_pos a,
                 lock_until, pinch_fired, delete_fired)
          | GRAB =>
              let cam :=
                match last_grab_pos a with
                | Some (lx, ly, _) =>
                    let dx := ((Landmark.x tip - lx) * 200)%float in
                    let dy := ((Landmark.y tip - ly) * 200)%float in
                    Camera.orbit (camera a) (- dx)%float dy
                | None => camera a
                end in
              (voxel_engine a, cam, Some hand_pos,
               lock_until, pinch_fired, delete_fired)
          | _ =>
              (voxel_engine a, camera a, None,
               lock_until, pinch_fired, delete_fired)
          end in
        (* the PEACE test *)
        let '(engine, lock_until, peace) :=
          if gesture_eqb gesture PEACE then
            match _peace_active a with
            | Some true => (engine, lock_until, true)
            | _ =>
                (VoxelEngine.next_color engine,
                 (current_time + 300), true)
            end
          else (engine, lock_until, false) in
        Some (mk engine cam (grid_size a) cursor (Some hand_pos) grab
                 (Some (lock_until, pinch_fired, delete_fired))
                 (Some peace))
  end.

(** One pass of the main loop as far as the editor state goes: the gesture
    the detector returned, the landmarks of the frame and the clock. *)
Definition Frame_input : Type := Gesture * option Frame * Z.

Fixpoint run (a : t) (inputs : list Frame_input) : option t :=
  match inputs with
  | [] => Some a
  | (gesture, landmarks, current_time) :: rest =>
      a' <- _process_gesture a gesture landmarks current_time ;;
      run a' rest
  end.

End AirForge.

(* ================================================================== *)
(** * Part II: what the specification promises, stated next to the code *)
(* ================================================================== *)

(** ** Store invariants *)

(** The bounds check of [is_valid_position], applied to a key. *)
Definition valid_key (s : VoxelEngine.t) (p : Pos) : Prop :=
  let '(x, y, z) := p in VoxelEngine.is_valid_position s x y z = true.

(** Every key passes the bounds check and no coordinate occurs twice. *)
Definition store_invariant (s : VoxelEngine.t) : Prop :=
  Forall (valid_key s) (PyDict.keys (VoxelEngine.voxels s)) /\
  NoDup (PyDict.keys (VoxelEngine.voxels s)).

(** Every record of the undo log names a coordinate within bounds. *)
Definition undo_log_valid (s : VoxelEngine.t) : Prop :=
  Forall (fun r : UndoRec => valid_key s (snd (fst r)))
         (VoxelEngine.undo_stack s).

(** A filled cache holds what a rebuild would produce now. *)
Definition cache_coherent (s : VoxelEngine.t) : Prop :=
  match VoxelEngine._visible_faces_cache s with
  | Some faces => faces = VoxelEngine.rebuild_faces s
  | None => True
  end.

(** ** The visible-face sequence, in the specification's words *)

(** The six axis-aligned directions in the order of the data model: +x, -x,
    +y, -y, +z, -z, which the code calls right, left, top, bottom, front
    and back. *)
Definition axis_directions : list Face :=
  [Right; Left; Top; Bottom; Front; Back].

(** The neighbouring cell in a direction. *)
Definition neighbour (p : Pos) (f : Face) : Pos :=
  let '(x, y, z) := p in
  match f with
  | Right => (x + 1, y, z)
  | Left => (x - 1, y, z)
  | Top => (x, y + 1, z)
  | Bottom => (x, y - 1, z)
  | Front => (x, y, z + 1)
  | Back => (x, y, z - 1)
  end.

(** A cell is occupied when the store holds a voxel for it; cells outside
    the grid hold none. *)
Definition occupied (store : PyDict.t Voxel) (p : Pos) : bool :=
  match PyDict.get store p with
  | Some _ => true
  | None => false
  end.

(** The recomputation of section 4.6, a function of the store's content
    alone: for every occupied cell, in the order of the store, and for each
    of the six directions, a face record is emitted if the neighbouring
    cell in that direction is unoccupied. *)
Definition recompute_faces (store : PyDict.t Voxel) : list FaceRec :=
  concat
    (map (fun cell : Pos * Voxel =>
            map (fun f : Face => mkFaceRec (fst cell) f (color (snd cell)))
                (filter
                   (fun f : Face =>
                      negb (occupied store (neighbour (fst cell) f)))
                   axis_directions))
         store).

(** Two dictionaries with the same content, whatever the order. *)
Definition same_content {V : Type} (d d' : PyDict.t V) : Prop :=
  forall k, PyDict.get d k = PyDict.get d' k.

(** ** Undoing a whole log *)

(** The dictionary obtained from [d] by reverting every record of the log
    [st], newest (last) first. *)
Definition unwind (st : list UndoRec) (d : PyDict.t Voxel) : PyDict.t Voxel :=
  fold_right VoxelEngine.revert d st.

(** What holds after [n] edits of a new engine of size [g], none of which
    can have overflowed the log. *)
Definition edits_invariant (g : Z) (n : nat) (s : VoxelEngine.t) : Prop :=
  VoxelEngine.grid_size s = g /\
  VoxelEngine.current_color_index s = 0 /\
  VoxelEngine._visible_faces_cache s = None /\
  (length (VoxelEngine.undo_stack s) <= n)%nat /\
  same_content (unwind (VoxelEngine.undo_stack s) (VoxelEngine.voxels s)) [].

(** ** Counting visible faces *)

(** The coordinate reached from [p] by the offset [d]. *)
Definition shift (p : Pos) (d : Z * Z * Z) : Pos :=
  let '(x, y, z) := p in
  let '(dx, dy, dz) := d in
  (x + dx, y + dy, z + dz).

(** The number of the six neighbours of [p] that [occ] reports empty. *)
Definition exposed (occ : Pos -> bool) (p : Pos) : nat :=
  length
    (filter (fun dir : (Z * Z * Z) * Face => negb (occ (shift p (fst dir))))
            VoxelEngine.directions).

(** The cells of the [a] by [b] by [c] box whose lowest corner is [o]. *)
Definition box_cells (o : Pos) (a b c : nat) : list Pos :=
  let '(ox, oy, oz) := o in
  flat_map
    (fun i : nat =>
       flat_map
         (fun j : nat =>
            map (fun l : nat =>
                   (ox + Z.of_nat i, oy + Z.of_nat j, oz + Z.of_nat l))
                (seq 0 c))
         (seq 0 b))
    (seq 0 a).

Definition in_range (lo : Z) (n : nat) (v : Z) : bool :=
  (lo <=? v) && (v <? lo + Z.of_nat n).

Definition in_box (o : Pos) (a b c : nat) (q : Pos) : bool :=
  let '(ox, oy, oz) := o in
  let '(x, y, z) := q in
  in_range ox a x && in_range oy b y && in_range oz c z.

(** The number of ends of a row of [n] cells that the [i]-th cell sits at. *)
Definition ends (n i : nat) : nat :=
  ((if S i =? n then 1 else 0) + (if i =? 0 then 1 else 0))%nat.

(** Sum of [f 0], ..., [f (n - 1)]. *)
Definition sum_upto (n : nat) (f : nat -> nat) : nat :=
  list_sum (map f (seq 0 n)).

(** ** Gesture detector, in the specification's words *)

(** The finger-extended predicate in the specification's words: the tip is
    above both the PIP joint and the MCP joint by more than the curl
    threshold. *)
Definition finger_extended_spec (landmarks : Frame) (finger : Finger)
    : option bool :=
  let '(mcp, pip, tip) := GestureDetector.finger_tips finger in
  lm_mcp <- nth_error landmarks mcp ;;
  lm_pip <- nth_error landmarks pip ;;
  lm_tip <- nth_error landmarks tip ;;
  let margin := GestureDetector.curl_threshold in
  Some ((Landmark.y lm_tip <? Landmark.y lm_pip - margin)%float
        && (Landmark.y lm_tip <? Landmark.y lm_mcp - margin)%float).

(** A frame with every point at the origin except the three joints of the
    index finger: tip at height 0.5, PIP at 0.6, MCP at 0.51. *)
Definition frame_index_raised : Frame :=
  map (fun i : nat =>
         if (i =? INDEX_TIP)%nat then Landmark.mk 0 0.5 0
         else if (i =? INDEX_PIP)%nat then Landmark.mk 0 0.6 0
         else if (i =? INDEX_MCP)%nat then Landmark.mk 0 0.51 0
         else Landmark.mk 0 0 0)
      (seq 0 21).

(** The pinch scores of the seven-tick scenario. *)
Definition pinch_cycle : list float :=
  [0.2; 0.5; 0.75; 0.1; 0.95; 0.2; 0.05]%float.

(** The state a tick leads to, as a function of the pinch score alone. *)
Fixpoint state_trace (st : State) (ks : list Scores) : list State :=
  match ks with
  | [] => []
  | k :: ks' =>
      let st' := fst (GestureDetector.transition st k) in
      st' :: state_trace st' ks'
  end.

(** ** Debounce, in the specification's words *)

(** The raw label of each tick of a run that starts in state [st]; a tick
    without a hand produces none and sends the machine back to IDLE. *)
Fixpoint raw_labels (st : State) (ks : list GestureDetector.Tick)
    : list (option Gesture) :=
  match ks with
  | [] => []
  | GestureDetector.NoHand :: ks' => None :: raw_labels IDLE ks'
  | GestureDetector.Hand sc :: ks' =>
      Some (snd (GestureDetector.transition st sc))
      :: raw_labels (fst (GestureDetector.transition st sc)) ks'
  end.

(** How many of the most recent ticks in a row produced the raw label [g];
    [hist] lists the ticks newest first. *)
Fixpoint streak (g : Gesture) (hist : list (option Gesture)) : nat :=
  match hist with
  | Some g' :: hist' => if gesture_eqb g g' then S (streak g hist') else O
  | _ => O
  end.

(** The debounce counters agree with the history of raw labels. *)
Definition counters_track (d : GestureDetector.t)
    (hist : list (option Gesture)) : Prop :=
  forall g : Gesture,
    Z.of_nat (streak g hist) =
    if gesture_eqb g (GestureDetector.last_gesture d)
    then GestureDetector.gesture_hold_frames d
    else 0.

(** ** Frames of [tests/test_gesture.py] *)

(** [create_mock_hand]: wrist, index and middle MCP fix the hand scale, the
    thumb tip and the index tip are [pinch_dist] apart. *)
Definition create_mock_hand (pinch_dist : float) : Frame :=
  map (fun i : nat =>
         if (i =? WRIST)%nat then Landmark.mk 0.5 0.8 0
         else if (i =? INDEX_MCP)%nat then Landmark.mk 0.5 0.6 0
         else if (i =? MIDDLE_MCP)%nat then Landmark.mk 0.55 0.6 0
         else if (i =? THUMB_TIP)%nat then Landmark.mk 0.5 0.4 0
         else if (i =? INDEX_TIP)%nat then Landmark.mk (0.5 + pinch_dist) 0.4 0
         else if (i =? THUMB_IP)%nat then Landmark.mk 0.4 0.4 0
         else if (i =? INDEX_PIP)%nat then Landmark.mk (0.6 + pinch_dist) 0.4 0
         else Landmark.mk 0 0 0)
      (seq 0 21).

(** The gesture returned and the state reached by each call of [detect],
    on a platform whose [x ** 2] is [pow2]. *)
Fixpoint detect_trace (pow2 : float -> option float) (d : GestureDetector.t)
    (frames : list (option Frame)) : list (option (Gesture * State)) :=
  match frames with
  | [] => []
  | f :: frames' =>
      match GestureDetector.detect pow2 d f with
      | None => [None]
      | Some (g, d') =>
          Some (g, GestureDetector.state d') :: detect_trace pow2 d' frames'
      end
  end.

(** ** Motion sanity filter, in the specification's words *)

(** Seconds elapsed since the last accepted frame, as a float; there is
    none when the milliseconds elapsed are beyond the range of floats. *)
Definition elapsed_seconds (s : HandTracker.t) (timestamp_ms : Z)
    : option float :=
  match py_float (timestamp_ms - HandTracker.last_sane_timestamp s) with
  | Some ms => Some (ms / 1000.0)%float
  | None => None
  end.

(** Wrist displacement between two points divided by the elapsed time. *)
Definition wrist_speed (prev_wrist wrist : Landmark.t) (dt : float) : float :=
  (let dx := Landmark.x wrist - Landmark.x prev_wrist in
   let dy := Landmark.y wrist - Landmark.y prev_wrist in
   let dz := Landmark.z wrist - Landmark.z prev_wrist in
   sqrt (dx * dx + dy * dy + dz * dz) / dt)%float.

(** A 21-point frame with the wrist at [(wx, 0, 0)] and every other point at
    the origin. *)
Definition frame_with_wrist (wx : float) : Frame :=
  Landmark.mk wx 0 0 :: repeat (Landmark.mk 0 0 0) 20.

(** ** Edits and their results *)

(** A call of [place_voxel] or [remove_voxel], with the value it returns. *)
Definition edit (s : VoxelEngine.t) (e : VoxelEngine.Edit)
    : bool * VoxelEngine.t :=
  match e with
  | VoxelEngine.EPlace x y z c => VoxelEngine.place_voxel s x y z c
  | VoxelEngine.ERemove x y z => VoxelEngine.remove_voxel s x y z
  end.

(** The palette index is one that [COLORS] has. *)
Definition color_index_ok (s : VoxelEngine.t) : Prop :=
  0 <= VoxelEngine.current_color_index s
    < Z.of_nat (length VoxelEngine.COLORS).

(** ** The floor *)

(** The cells [create_floor] writes, in the order of its loops. *)
Definition floor_cells (g y : Z) : list Pos :=
  flat_map (fun x : Z => map (fun z : Z => (x, y, z)) (py_range g))
           (py_range g).

(** [p] lies on the level [y] of a grid of size [g]. *)
Definition on_level (g y : Z) (p : Pos) : bool :=
  let '(px, py, pz) := p in
  (py =? y) && ((0 <=? px) && (px <? g)) && ((0 <=? pz) && (pz <? g)).

(** ** Runs of the detector *)

(** The gesture returned by each tick of a run. *)
Fixpoint outputs (d : GestureDetector.t) (ks : list GestureDetector.Tick)
    : list Gesture :=
  match ks with
  | [] => []
  | k :: ks' =>
      fst (GestureDetector.tick d k)
      :: outputs (snd (GestureDetector.tick d k)) ks'
  end.

(** ** Runs of [process] *)

(** The landmarks of the most recent result that carried some. *)
Fixpoint last_landmarks (acc : option Frame) (outs : list Tracking.Result)
    : option Frame :=
  match outs with
  | [] => acc
  | Tracking.FrameWith lm :: outs' => last_landmarks (Some lm) outs'
  | _ :: outs' => last_landmarks acc outs'
  end.

(** The number of results that carried a webcam frame. *)
Definition frames_read (outs : list Tracking.Result) : Z :=
  Z.of_nat (length (filter (fun r => match r with
                                     | Tracking.NoFrame => false
                                     | _ => true
                                     end) outs)).

(** ** The editor loop *)

(** The engine and the application agree on the grid size, which is at
    least 1. *)
Definition wired (a : AirForge.t) : Prop :=
  VoxelEngine.grid_size (AirForge.voxel_engine a) = AirForge.grid_size a /\
  1 <= AirForge.grid_size a.

(** [pinch_fired], false while the attribute does not exist. *)
Definition pinch_fired (a : AirForge.t) : bool :=
  match AirForge.action_lock a with
  | Some (_, fired, _) => fired
  | None => false
  end.

(** [action_lock_until], 0 while the attribute does not exist. *)
Definition lock_until (a : AirForge.t) : Z :=
  match AirForge.action_lock a with
  | Some (t, _, _) => t
  | None => 0
  end.

(** [_peace_active], false while the attribute does not exist. *)
Definition peace_active (a : AirForge.t) : bool :=
  match AirForge._peace_active a with
  | Some b => b
  | None => false
  end.

(** The frames of a run all carry the gesture [g]. *)
Definition all_gesture (g : Gesture) (inputs : list AirForge.Frame_input)
    : Prop :=
  Forall (fun i : AirForge.Frame_input => fst (fst i) = g) inputs.

(** The frames of a run are all stamped before [t]. *)
Definition all_before (t : Z) (inputs : list AirForge.Frame_input) : Prop :=
  Forall (fun i : AirForge.Frame_input => snd i < t) inputs.

(** The engine holds the demo platform of a grid of size [g] and nothing
    else: the 5 by 5 gray cells of level 0 around the centre. *)
Definition holds_demo_platform (e : VoxelEngine.t) (g : Z) : Prop :=
  (forall p : Pos,
     PyDict.get (VoxelEngine.voxels e) p =
     if in_box (g / 2 - 2, 0, g / 2 - 2) 5 1 5 p
     then Some (mkVoxel (100, 100, 100)) else None) /\
  length (VoxelEngine.voxels e) = 25%nat /\
  length (fst (VoxelEngine.get_visible_faces e)) = 70%nat.

(* ================================================================== *)
(** * Part III: proofs *)
(* ================================================================== *)

(** ** Dictionary facts *)

Section DictFacts.
Context {V : Type}.
Implicit Types (d : PyDict.t V) (k p : Pos) (v : V).

Lemma pos_eqb_eq (p q : Pos) : pos_eqb p q = true <-> p = q.
Proof.
  destruct p as [[x y] z], q as [[x' y'] z']. unfold pos_eqb.
  rewrite !andb_true_iff, !Z.eqb_eq. split.
  - intros [[-> ->] ->]. reflexivity.
  - intros H. injection H as -> -> ->. auto.
Qed.

Lemma pos_eqb_refl (p : Pos) : pos_eqb p p = true.
Proof. apply pos_eqb_eq. reflexivity. Qed.

Lemma pos_eqb_neq (p q : Pos) : pos_eqb p q = false <-> p <> q.
Proof.
  rewrite <- pos_eqb_eq. destruct (pos_eqb p q); split; intros H;
    try discriminate; try reflexivity; try (intros C; discriminate).
  exfalso. apply H. reflexivity.
Qed.

Lemma pos_eqb_sym (p q : Pos) : pos_eqb p q = pos_eqb q p.
Proof.
  destruct (pos_eqb q p) eqn:E.
  - apply pos_eqb_eq in E. subst. apply pos_eqb_refl.
  - apply pos_eqb_neq in E. apply pos_eqb_neq. congruence.
Qed.

Lemma get_None_iff d k : PyDict.get d k = None <-> ~ In k (PyDict.keys d).
Proof.
  induction d as [|[k' v'] r IH]; cbn.
  - tauto.
  - destruct (pos_eqb k k') eqn:E.
    + apply pos_eqb_eq in E. subst. split; [discriminate | tauto].
    + apply pos_eqb_neq in E. rewrite IH. split.
      * intros H [C | C]; [congruence | tauto].
      * tauto.
Qed.

Lemma get_Some_in d k v : PyDict.get d k = Some v -> In k (PyDict.keys d).
Proof.
  induction d as [|[k' v'] r IH]; cbn; [discriminate |].
  destruct (pos_eqb k k') eqn:E.
  - apply pos_eqb_eq in E. auto.
  - auto.
Qed.

Lemma contains_true_iff d k :
  PyDict.contains d k = true <-> In k (PyDict.keys d).
Proof.
  unfold PyDict.contains.
  destruct (PyDict.get d k) eqn:E.
  - split; [intros _ | reflexivity]. eapply get_Some_in; eassumption.
  - split; [discriminate |]. intros H. apply get_None_iff in E. tauto.
Qed.

Lemma contains_false_iff d k :
  PyDict.contains d k = false <-> PyDict.get d k = None.
Proof.
  unfold PyDict.contains.
  destruct (PyDict.get d k); split; congruence.
Qed.

Lemma get_set_same d k v : PyDict.get (PyDict.set d k v) k = Some v.
Proof.
  induction d as [|[k' v'] r IH]; cbn.
  - now rewrite pos_eqb_refl.
  - destruct (pos_eqb k k') eqn:E; cbn; rewrite E; auto.
Qed.

Lemma get_set_other d k k' v :
  k <> k' -> PyDict.get (PyDict.set d k v) k' = PyDict.get d k'.
Proof.
  intros Hne. induction d as [|[k0 v0] r IH]; cbn.
  - assert (pos_eqb k' k = false) as -> by (apply pos_eqb_neq; congruence).
    reflexivity.
  - destruct (pos_eqb k k0) eqn:E; cbn.
    + apply pos_eqb_eq in E. subst k0.
      assert (pos_eqb k' k = false) as -> by (apply pos_eqb_neq; congruence).
      reflexivity.
    + rewrite IH. reflexivity.
Qed.

Lemma get_del_same d k : PyDict.get (PyDict.del d k) k = None.
Proof.
  induction d as [|[k' v'] r IH]; cbn; [reflexivity |].
  destruct (pos_eqb k k') eqn:E; cbn; [exact IH | now rewrite E].
Qed.

Lemma get_del_other d k k' :
  k <> k' -> PyDict.get (PyDict.del d k) k' = PyDict.get d k'.
Proof.
  intros Hne. induction d as [|[k0 v0] r IH]; cbn; [reflexivity |].
  destruct (pos_eqb k k0) eqn:E; cbn.
  - apply pos_eqb_eq in E. subst k0.
    assert (pos_eqb k' k = false) as -> by (apply pos_eqb_neq; congruence).
    exact IH.
  - rewrite IH. reflexivity.
Qed.

Lemma set_absent d k v :
  PyDict.get d k = None -> PyDict.set d k v = d ++ [(k, v)].
Proof.
  induction d as [|[k' v'] r IH]; cbn; [reflexivity |].
  destruct (pos_eqb k k'); [discriminate |].
  intros H. now rewrite IH.
Qed.

Lemma del_absent d k : PyDict.get d k = None -> PyDict.del d k = d.
Proof.
  induction d as [|[k' v'] r IH]; cbn; [reflexivity |].
  destruct (pos_eqb k k'); [discriminate |].
  intros H. now rewrite IH.
Qed.

Lemma del_app_last d k v :
  PyDict.get d k = None -> PyDict.del (d ++ [(k, v)]) k = d.
Proof.
  induction d as [|[k' v'] r IH]; cbn.
  - now rewrite pos_eqb_refl.
  - destruct (pos_eqb k k'); [discriminate |].
    intros H. now rewrite IH.
Qed.

Lemma keys_set d k v p :
  In p (PyDict.keys (PyDict.set d k v)) <-> p = k \/ In p (PyDict.keys d).
Proof.
  induction d as [|[k' v'] r IH]; cbn.
  - intuition congruence.
  - destruct (pos_eqb k k') eqn:E; cbn.
    + apply pos_eqb_eq in E. subst. intuition congruence.
    + rewrite IH. tauto.
Qed.

Lemma keys_del d k p :
  In p (PyDict.keys (PyDict.del d k)) <-> p <> k /\ In p (PyDict.keys d).
Proof.
  induction d as [|[k' v'] r IH]; cbn.
  - tauto.
  - destruct (pos_eqb k k') eqn:E; cbn.
    + apply pos_eqb_eq in E. subst. rewrite IH. intuition congruence.
    + apply pos_eqb_neq in E. rewrite IH. intuition congruence.
Qed.

Lemma NoDup_keys_set d k v :
  NoDup (PyDict.keys d) -> NoDup (PyDict.keys (PyDict.set d k v)).
Proof.
  induction d as [|[k' v'] r IH]; cbn; intros H.
  - constructor; [tauto | constructor].
  - inversion H as [|? ? Hni Hnd]; subst.
    destruct (pos_eqb k k') eqn:E; cbn.
    + constructor; assumption.
    + apply pos_eqb_neq in E. constructor; [| now apply IH].
      fold (PyDict.keys (PyDict.set r k v)). rewrite keys_set.
      intros [C | C]; [congruence | tauto].
Qed.

Lemma NoDup_keys_del d k :
  NoDup (PyDict.keys d) -> NoDup (PyDict.keys (PyDict.del d k)).
Proof.
  induction d as [|[k' v'] r IH]; cbn; intros H; [constructor |].
  inversion H as [|? ? Hni Hnd]; subst.
  destruct (pos_eqb k k') eqn:E; cbn; [now apply IH |].
  constructor; [| now apply IH].
  fold (PyDict.keys (PyDict.del r k)). rewrite keys_del. tauto.
Qed.

End DictFacts.

Section DictForall.
Context {V : Type}.
Implicit Types (d : PyDict.t V) (k p : Pos) (v : V).

Lemma Forall_keys_set (P : Pos -> Prop) d k v :
  Forall P (PyDict.keys d) -> P k -> Forall P (PyDict.keys (PyDict.set d k v)).
Proof.
  rewrite !Forall_forall. intros H Hk p Hp.
  apply keys_set in Hp. destruct Hp as [-> | Hp]; auto.
Qed.

Lemma Forall_keys_del (P : Pos -> Prop) d k :
  Forall P (PyDict.keys d) -> Forall P (PyDict.keys (PyDict.del d k)).
Proof.
  rewrite !Forall_forall. intros H p Hp.
  apply keys_del in Hp. apply H. tauto.
Qed.

End DictForall.

(** ** The store: failure cases, cache coherence, key invariant *)

Ltac split_ands := repeat match goal with |- _ /\ _ => split end.

Section Store.
Import VoxelEngine.

Lemma is_valid_position_iff (s : t) (x y z : Z) :
  is_valid_position s x y z = true <->
  0 <= x < grid_size s /\ 0 <= y < grid_size s /\ 0 <= z < grid_size s.
Proof.
  unfold is_valid_position.
  rewrite !andb_true_iff, !Z.leb_le, !Z.ltb_lt. tauto.
Qed.

(** C2: [place_voxel] fails exactly on a coordinate outside
    [0, grid_size) on some axis, [remove_voxel] exactly on an empty cell,
    [undo] exactly on an empty log; a failing call returns the engine it was
    given, so the voxel map, the undo log and the face cache are untouched. *)
Theorem failed_mutation_leaves_store (s : t) (x y z : Z) (c : option RGB) :
  (fst (place_voxel s x y z c) = false <->
   ~ (0 <= x < grid_size s /\ 0 <= y < grid_size s /\ 0 <= z < grid_size s))
  /\ (fst (place_voxel s x y z c) = false -> snd (place_voxel s x y z c) = s)
  /\ (fst (remove_voxel s x y z) = false <->
      PyDict.contains (voxels s) (x, y, z) = false)
  /\ (fst (remove_voxel s x y z) = false -> snd (remove_voxel s x y z) = s)
  /\ (fst (undo s) = false <-> undo_stack s = [])
  /\ (fst (undo s) = false -> snd (undo s) = s).
Proof.
  split_ands.
  - unfold place_voxel. rewrite <- is_valid_position_iff.
    destruct (is_valid_position s x y z); cbn; split; intros H;
      congruence.
  - unfold place_voxel.
    destruct (is_valid_position s x y z); cbn; [discriminate | reflexivity].
  - unfold remove_voxel, PyDict.contains.
    destruct (PyDict.get (voxels s) (x, y, z)); cbn; split; congruence.
  - unfold remove_voxel.
    destruct (PyDict.get (voxels s) (x, y, z)); cbn;
      [discriminate | reflexivity].
  - unfold undo. destruct (undo_stack s); cbn; split; congruence.
  - unfold undo. destruct (undo_stack s); cbn; [reflexivity | discriminate].
Qed.

Lemma rebuild_faces_same_voxels (s s' : t) :
  voxels s = voxels s' -> rebuild_faces s = rebuild_faces s'.
Proof.
  unfold rebuild_faces, has_voxel. intros H. rewrite H. reflexivity.
Qed.

Lemma cache_coherent_invalidated (s : t) :
  cache_coherent (_invalidate_cache s).
Proof. exact I. Qed.

Lemma get_visible_faces_coherent (s : t) :
  cache_coherent s ->
  fst (get_visible_faces s) = rebuild_faces s /\
  cache_coherent (snd (get_visible_faces s)) /\
  voxels (snd (get_visible_faces s)) = voxels s.
Proof.
  unfold cache_coherent, get_visible_faces. intros H.
  destruct (_visible_faces_cache s) as [f|] eqn:E; cbn.
  - rewrite E. auto.
  - split_ands; reflexivity.
Qed.

Lemma step_cache_coherent (s : t) (op : Op) :
  cache_coherent s -> cache_coherent (step s op).
Proof.
  intros H. destruct op as [x y z c | x y z | | | | |]; cbn.
  - unfold place_voxel. destruct (is_valid_position s x y z); cbn;
      [exact I | exact H].
  - unfold remove_voxel. destruct (PyDict.get (voxels s) (x, y, z)); cbn;
      [exact I | exact H].
  - unfold undo. destruct (undo_stack s); cbn; [exact H | exact I].
  - exact I.
  - apply get_visible_faces_coherent, H.
  - exact H.
  - exact H.
Qed.

Lemma run_cache_coherent (ops : list Op) : forall s,
  cache_coherent s -> cache_coherent (run s ops).
Proof.
  induction ops as [|op ops IH]; intros s H; cbn.
  - exact H.
  - apply IH, step_cache_coherent, H.
Qed.

(** The two loops of the code emit what the recomputation of section 4.6
    emits, in the same order. *)
Lemma rebuild_faces_recompute (s : t) :
  rebuild_faces s = recompute_faces (voxels s).
Proof.
  unfold rebuild_faces, recompute_faces. rewrite flat_map_concat_map.
  f_equal. apply map_ext. intros [[[x y] z] v].
  cbn [directions flat_map axis_directions filter fst snd neighbour].
  unfold has_voxel, PyDict.contains, occupied.
  rewrite !Z.add_0_r.
  change (x + -1) with (x - 1). change (y + -1) with (y - 1).
  change (z + -1) with (z - 1).
  repeat match goal with
         | |- context [PyDict.get (voxels s) ?p] =>
             destruct (PyDict.get (voxels s) p)
         end; reflexivity.
Qed.

(** C1: after any sequence of calls on a new engine, [get_visible_faces]
    returns exactly the face sequence that the recomputation of section 4.6
    produces from the voxels now in the store, whether it answers from the
    cache or not; a cache that is filled holds that sequence; and each
    mutating call leaves the cache empty whenever it reports success
    ([clear] always). *)
Theorem visible_faces_never_stale :
  (forall (g : Z) (ops : list Op),
     fst (get_visible_faces (run (init g) ops)) =
     recompute_faces (voxels (run (init g) ops)))
  /\ (forall (g : Z) (ops : list Op) (faces : list FaceRec),
        _visible_faces_cache (run (init g) ops) = Some faces ->
        faces = recompute_faces (voxels (run (init g) ops)))
  /\ (forall s x y z c,
        _visible_faces_cache (snd (place_voxel s x y z c)) =
        if fst (place_voxel s x y z c) then None
        else _visible_faces_cache s)
  /\ (forall s x y z,
        _visible_faces_cache (snd (remove_voxel s x y z)) =
        if fst (remove_voxel s x y z) then None
        else _visible_faces_cache s)
  /\ (forall s,
        _visible_faces_cache (snd (undo s)) =
        if fst (undo s) then None else _visible_faces_cache s)
  /\ (forall s, _visible_faces_cache (clear s) = None).
Proof.
  split_ands.
  - intros g ops.
    assert (cache_coherent (run (init g) ops)) as H
      by (apply run_cache_coherent; exact I).
    apply get_visible_faces_coherent in H. destruct H as [-> _].
    apply rebuild_faces_recompute.
  - intros g ops faces Hc.
    assert (cache_coherent (run (init g) ops)) as H
      by (apply run_cache_coherent; exact I).
    unfold cache_coherent in H. rewrite Hc in H. rewrite H.
    apply rebuild_faces_recompute.
  - intros s x y z c. unfold place_voxel.
    destruct (is_valid_position s x y z); reflexivity.
  - intros s x y z. unfold remove_voxel.
    destruct (PyDict.get (voxels s) (x, y, z)); reflexivity.
  - intros s. unfold undo. destruct (undo_stack s); reflexivity.
  - reflexivity.
Qed.

Lemma visible_faces_never_stale_witness :
  let s := run (init 4) [OpPlace 1 1 1 None; OpPlace 2 1 1 None;
                         OpGetVisibleFaces; OpNextColor] in
  exists faces : list FaceRec,
    _visible_faces_cache s = Some faces /\
    length faces = 10%nat /\
    faces = recompute_faces (voxels s).
Proof.
  cbv zeta. eexists. split; [vm_compute; reflexivity |].
  split; [reflexivity |].
  apply (proj1 (proj2 visible_faces_never_stale) 4
           [OpPlace 1 1 1 None; OpPlace 2 1 1 None;
            OpGetVisibleFaces; OpNextColor]).
  vm_compute. reflexivity.
Defined.

(** A run that reads the faces, edits, and reads again: the second read
    does not return the list cached by the first. *)
Example faces_read_after_edit :
  let s := run (init 4) [OpPlace 1 1 1 None; OpGetVisibleFaces;
                         OpPlace 2 1 1 None] in
  length (fst (get_visible_faces (run (init 4) [OpPlace 1 1 1 None]))) = 6%nat
  /\ length (fst (get_visible_faces s)) = 10%nat
  /\ fst (get_visible_faces s) = recompute_faces (voxels s)
  /\ fst (get_visible_faces (snd (get_visible_faces s))) =
     fst (get_visible_faces s).
Proof. cbv zeta. split_ands; vm_compute; reflexivity. Qed.

End Store.

Section StoreInvariant.
Import VoxelEngine.

Lemma Forall_tl {A : Type} (P : A -> Prop) (l : list A) :
  Forall P l -> Forall P (tl l).
Proof. intros H. destruct H; cbn; [constructor | assumption]. Qed.

Lemma Forall_last_removelast {A : Type} (P : A -> Prop) (l : list A) (a : A) :
  l <> [] -> Forall P l -> Forall P (removelast l) /\ P (last l a).
Proof.
  intros Hne H. rewrite (app_removelast_last a Hne) in H at 1.
  apply Forall_app in H. destruct H as [H1 H2].
  split; [exact H1 | now inversion H2].
Qed.

Lemma revert_keys_Forall (P : Pos -> Prop) (r : UndoRec) (d : PyDict.t Voxel) :
  Forall P (PyDict.keys d) -> P (snd (fst r)) ->
  Forall P (PyDict.keys (revert r d)).
Proof.
  destruct r as [[[|] pos] [v|]]; cbn; intros H Hp.
  - now apply Forall_keys_set.
  - destruct (PyDict.contains d pos); [now apply Forall_keys_del | exact H].
  - now apply Forall_keys_set.
  - exact H.
Qed.

Lemma revert_NoDup (r : UndoRec) (d : PyDict.t Voxel) :
  NoDup (PyDict.keys d) -> NoDup (PyDict.keys (revert r d)).
Proof.
  destruct r as [[[|] pos] [v|]]; cbn; intros H.
  - now apply NoDup_keys_set.
  - destruct (PyDict.contains d pos); [now apply NoDup_keys_del | exact H].
  - now apply NoDup_keys_set.
  - exact H.
Qed.

Lemma push_undo_valid (s : t) (a : Action) (pos : Pos) (v : option Voxel) :
  undo_log_valid s -> valid_key s pos ->
  undo_log_valid (_push_undo s a pos v).
Proof.
  unfold undo_log_valid, _push_undo. cbn. intros H Hp.
  assert (Forall (fun r : UndoRec => valid_key s (snd (fst r)))
            (undo_stack s ++ [(a, pos, v)])) as Hall.
  { apply Forall_app. split; [exact H |].
    constructor; [exact Hp | constructor]. }
  match goal with
  | |- context [if ?b then _ else _] => destruct b
  end; [apply Forall_tl |]; exact Hall.
Qed.

Lemma place_voxel_invariant (s : t) (x y z : Z) (c : option RGB) :
  store_invariant s -> undo_log_valid s ->
  store_invariant (snd (place_voxel s x y z c)) /\
  undo_log_valid (snd (place_voxel s x y z c)).
Proof.
  intros [Hk Hn] Hu. unfold place_voxel.
  destruct (is_valid_position s x y z) eqn:Ev; cbn [negb snd];
    [| now repeat split].
  split; [split |].
  - apply (Forall_keys_set (valid_key s)); assumption.
  - apply NoDup_keys_set; assumption.
  - apply (push_undo_valid s Place (x, y, z)); assumption.
Qed.

Lemma remove_voxel_invariant (s : t) (x y z : Z) :
  store_invariant s -> undo_log_valid s ->
  store_invariant (snd (remove_voxel s x y z)) /\
  undo_log_valid (snd (remove_voxel s x y z)).
Proof.
  intros [Hk Hn] Hu. unfold remove_voxel.
  destruct (PyDict.get (voxels s) (x, y, z)) as [old|] eqn:Eg; cbn [snd];
    [| now repeat split].
  split; [split |].
  - apply (Forall_keys_del (valid_key s)); assumption.
  - apply NoDup_keys_del; assumption.
  - apply (push_undo_valid s Remove (x, y, z)); [assumption |].
    apply get_Some_in in Eg.
    rewrite Forall_forall in Hk. apply (Hk _ Eg).
Qed.

Lemma undo_invariant (s : t) :
  store_invariant s -> undo_log_valid s ->
  store_invariant (snd (undo s)) /\ undo_log_valid (snd (undo s)).
Proof.
  intros [Hk Hn] Hu. unfold undo.
  destruct (undo_stack s) as [|r0 rest] eqn:Es; cbn [snd].
  - repeat split; assumption.
  - unfold undo_log_valid in Hu. rewrite Es in Hu.
    apply (Forall_last_removelast _ _ r0) in Hu; [| discriminate].
    destruct Hu as [Hrest Hlast].
    split; [split |].
    + apply (revert_keys_Forall (valid_key s)); assumption.
    + apply revert_NoDup; assumption.
    + exact Hrest.
Qed.

Lemma step_invariant (s : t) (op : Op) :
  store_invariant s -> undo_log_valid s ->
  store_invariant (step s op) /\ undo_log_valid (step s op).
Proof.
  intros Hs Hu. destruct op as [x y z c | x y z | | | | |]; cbn [step].
  - now apply place_voxel_invariant.
  - now apply remove_voxel_invariant.
  - now apply undo_invariant.
  - repeat split; constructor.
  - unfold get_visible_faces.
    destruct (_visible_faces_cache s); cbn [snd]; split; assumption.
  - split; assumption.
  - split; assumption.
Qed.

Lemma run_invariant (ops : list Op) : forall s,
  store_invariant s -> undo_log_valid s ->
  store_invariant (run s ops) /\ undo_log_valid (run s ops).
Proof.
  induction ops as [|op ops IH]; intros s Hs Hu; cbn.
  - split; assumption.
  - destruct (step_invariant s op Hs Hu) as [Hs' Hu']. now apply IH.
Qed.

Lemma step_grid_size (s : t) (op : Op) : grid_size (step s op) = grid_size s.
Proof.
  destruct op as [x y z c | x y z | | | | |]; cbn [step];
    [ unfold place_voxel; destruct (is_valid_position s x y z)
    | unfold remove_voxel; destruct (PyDict.get (voxels s) (x, y, z))
    | unfold undo; destruct (undo_stack s)
    |
    | unfold get_visible_faces; destruct (_visible_faces_cache s)
    | | ]; reflexivity.
Qed.

Lemma run_grid_size (ops : list Op) : forall g : Z,
  grid_size (run (init g) ops) = g.
Proof.
  intros g. change g with (grid_size (init g)) at 2.
  generalize (init g). induction ops as [|op ops IH]; intros s; cbn.
  - reflexivity.
  - fold (run (step s op) ops). now rewrite IH, step_grid_size.
Qed.

(** C6: on a new engine every key passes the bounds check and no
    coordinate occurs twice, and both remain true after any sequence of
    [place_voxel], [remove_voxel], [undo], [clear] (and of the calls that do
    not write the dictionary); the grid size the check refers to never
    changes. *)
Theorem store_keys_valid_and_unique (g : Z) (ops : list Op) :
  store_invariant (init g) /\
  store_invariant (run (init g) ops) /\
  grid_size (run (init g) ops) = g.
Proof.
  assert (store_invariant (init g)) as H0 by (split; constructor).
  split_ands; [exact H0 | |].
  - apply run_invariant; [exact H0 | constructor].
  - apply run_grid_size.
Qed.

End StoreInvariant.

(** ** Placing, then removing, at one coordinate *)

Section PlaceRemove.
Import VoxelEngine.

(** C3, as the code has it: in every state reached from a new engine, for
    an in-bounds coordinate whose cell is empty, [place_voxel] followed by
    [remove_voxel] at that coordinate both succeed, give back the voxel
    dictionary as it was (content and order), and [get_visible_faces]
    returns what it returned before. *)
Theorem place_then_remove_on_empty_cell
    (g : Z) (ops : list Op) (x y z : Z) (c : option RGB) :
  let s := run (init g) ops in
  let s1 := snd (place_voxel s x y z c) in
  let s2 := snd (remove_voxel s1 x y z) in
  is_valid_position s x y z = true ->
  has_voxel s x y z = false ->
  fst (place_voxel s x y z c) = true /\
  fst (remove_voxel s1 x y z) = true /\
  voxels s2 = voxels s /\
  fst (get_visible_faces s2) = fst (get_visible_faces s).
Proof.
  intros s s1 s2 Hv He.
  assert (cache_coherent s) as Hc by (apply run_cache_coherent; exact I).
  apply contains_false_iff in He.
  assert (place_voxel s x y z c =
          (true, _invalidate_cache
                   (with_voxels (_push_undo s Place (x, y, z) None)
                      (voxels s ++
                       [((x, y, z),
                         mkVoxel match c with
                                 | Some c' => c'
                                 | None => current_color s
                                 end)])))) as Hplace.
  { unfold place_voxel. rewrite Hv, He. cbn [negb].
    cbn [voxels _push_undo with_undo_stack].
    rewrite (set_absent _ _ _ He). reflexivity. }
  assert (fst (remove_voxel s1 x y z) = true /\
          voxels s2 = voxels s /\
          _visible_faces_cache s2 = None) as (Hr & Hvox & Hcache).
  { subst s2 s1. rewrite Hplace. cbn [snd]. unfold remove_voxel.
    cbn [voxels _invalidate_cache with_cache with_voxels].
    rewrite <- (set_absent _ _ _ He), get_set_same.
    rewrite (set_absent _ _ _ He).
    cbn [fst snd voxels _visible_faces_cache _invalidate_cache with_cache
         with_voxels _push_undo with_undo_stack].
    rewrite (del_app_last _ _ _ He). auto. }
  split_ands; try assumption.
  - rewrite Hplace. reflexivity.
  - destruct (get_visible_faces_coherent s Hc) as [-> _].
    unfold get_visible_faces. rewrite Hcache. cbn [fst].
    apply rebuild_faces_same_voxels, Hvox.
Qed.

Lemma place_then_remove_on_empty_cell_witness :
  let s := run (init 16) [OpPlace 5 5 5 None; OpGetVisibleFaces] in
  let s1 := snd (place_voxel s 6 5 5 None) in
  let s2 := snd (remove_voxel s1 6 5 5) in
  fst (place_voxel s 6 5 5 None) = true /\
  fst (remove_voxel s1 6 5 5) = true /\
  voxels s2 = voxels s /\
  fst (get_visible_faces s2) = fst (get_visible_faces s).
Proof.
  apply (place_then_remove_on_empty_cell 16
           [OpPlace 5 5 5 None; OpGetVisibleFaces] 6 5 5 None);
    reflexivity.
Defined.

(** C3 as the specification words it fails on an occupied cell: on a
    16-grid holding one voxel at (5, 5, 5), placing and then removing at
    (5, 5, 5) leaves the dictionary empty and no visible face, where there
    were one voxel and six faces. *)
Lemma place_then_remove_on_occupied_cell :
  let s := run (init 16) [OpPlace 5 5 5 None] in
  let s1 := snd (place_voxel s 5 5 5 None) in
  let s2 := snd (remove_voxel s1 5 5 5) in
  1 <= grid_size s /\
  is_valid_position s 5 5 5 = true /\
  fst (place_voxel s 5 5 5 None) = true /\
  fst (remove_voxel s1 5 5 5) = true /\
  voxels s2 <> voxels s /\
  fst (get_visible_faces s2) <> fst (get_visible_faces s) /\
  length (fst (get_visible_faces s)) = 6%nat /\
  length (fst (get_visible_faces s2)) = 0%nat.
Proof. cbv zeta. split_ands; vm_compute; congruence. Qed.

End PlaceRemove.

(** ** Undoing every edit *)

Section SameContent.
Context {V : Type}.
Implicit Types (d : PyDict.t V) (k p : Pos) (v : V).

Lemma same_content_refl d : same_content d d.
Proof. intros k. reflexivity. Qed.

Lemma same_content_trans d1 d2 d3 :
  same_content d1 d2 -> same_content d2 d3 -> same_content d1 d3.
Proof. intros H1 H2 k. now rewrite H1. Qed.

Lemma same_content_nil d : same_content d [] -> d = [].
Proof.
  destruct d as [|[k v] r]; [reflexivity |].
  intros H. specialize (H k). cbn in H.
  rewrite pos_eqb_refl in H. discriminate.
Qed.

Lemma get_set d k v k' :
  PyDict.get (PyDict.set d k v) k' =
  if pos_eqb k k' then Some v else PyDict.get d k'.
Proof.
  destruct (pos_eqb k k') eqn:E.
  - apply pos_eqb_eq in E. subst. apply get_set_same.
  - apply pos_eqb_neq in E. now apply get_set_other.
Qed.

Lemma get_del d k k' :
  PyDict.get (PyDict.del d k) k' =
  if pos_eqb k k' then None else PyDict.get d k'.
Proof.
  destruct (pos_eqb k k') eqn:E.
  - apply pos_eqb_eq in E. subst. apply get_del_same.
  - apply pos_eqb_neq in E. now apply get_del_other.
Qed.

Lemma same_content_set d d' k v :
  same_content d d' -> same_content (PyDict.set d k v) (PyDict.set d' k v).
Proof. intros H k'. rewrite !get_set, H. reflexivity. Qed.

Lemma same_content_del d d' k :
  same_content d d' -> same_content (PyDict.del d k) (PyDict.del d' k).
Proof. intros H k'. rewrite !get_del, H. reflexivity. Qed.

Lemma same_content_contains d d' k :
  same_content d d' -> PyDict.contains d k = PyDict.contains d' k.
Proof. intros H. unfold PyDict.contains. now rewrite H. Qed.

End SameContent.

Section UndoAll.
Import VoxelEngine.

Lemma same_content_revert (r : UndoRec) (d d' : PyDict.t Voxel) :
  same_content d d' -> same_content (revert r d) (revert r d').
Proof.
  intros H. destruct r as [[[|] pos] [v|]]; cbn.
  - now apply same_content_set.
  - rewrite (same_content_contains d d' pos H).
    destruct (PyDict.contains d' pos); [now apply same_content_del | exact H].
  - now apply same_content_set.
  - exact H.
Qed.

Lemma same_content_unwind (st : list UndoRec) (d d' : PyDict.t Voxel) :
  same_content d d' -> same_content (unwind st d) (unwind st d').
Proof.
  intros H. induction st as [|r st IH]; cbn; [exact H |].
  now apply same_content_revert.
Qed.

Lemma unwind_snoc (st : list UndoRec) (r : UndoRec) (d : PyDict.t Voxel) :
  unwind (st ++ [r]) d = unwind st (revert r d).
Proof. unfold unwind. now rewrite fold_right_app. Qed.

(** Reverting the record of a placement gives back the old content. *)
Lemma revert_place (d : PyDict.t Voxel) (p : Pos) (v : Voxel) :
  same_content (revert (Place, p, PyDict.get d p) (PyDict.set d p v)) d.
Proof.
  intros k. cbn. destruct (PyDict.get d p) as [o|] eqn:E.
  - rewrite get_set. destruct (pos_eqb p k) eqn:Ek.
    + apply pos_eqb_eq in Ek. subst. now rewrite E.
    + apply pos_eqb_neq in Ek. now apply get_set_other.
  - unfold PyDict.contains. rewrite get_set_same, get_del.
    destruct (pos_eqb p k) eqn:Ek.
    + apply pos_eqb_eq in Ek. subst. now rewrite E.
    + apply pos_eqb_neq in Ek. now apply get_set_other.
Qed.

(** Reverting the record of a removal gives back the old content. *)
Lemma revert_remove (d : PyDict.t Voxel) (p : Pos) (o : Voxel) :
  PyDict.get d p = Some o ->
  same_content (revert (Remove, p, Some o) (PyDict.del d p)) d.
Proof.
  intros E k. cbn. rewrite get_set. destruct (pos_eqb p k) eqn:Ek.
  - apply pos_eqb_eq in Ek. subst. now rewrite E.
  - apply pos_eqb_neq in Ek. now apply get_del_other.
Qed.

Lemma push_undo_below_capacity (s : t) (a : Action) (p : Pos)
    (v : option Voxel) :
  (length (undo_stack s) < max_undo)%nat ->
  _push_undo s a p v = with_undo_stack s (undo_stack s ++ [(a, p, v)]).
Proof.
  intros H. unfold _push_undo.
  assert ((max_undo <? length (undo_stack s ++ [(a, p, v)]))%nat = false)
    as ->.
  { apply Nat.ltb_ge. rewrite length_app. cbn. lia. }
  reflexivity.
Qed.

Lemma edit_keeps_edits_invariant (g : Z) (n : nat) (s : t) (e : Edit) :
  (n < max_undo)%nat ->
  edits_invariant g n s ->
  edits_invariant g (S n) (step s (op_of_edit e)).
Proof.
  intros Hn (Hg & Hi & Hc & Hl & Hu).
  assert (length (undo_stack s) < max_undo)%nat as Hlt by lia.
  destruct e as [x y z c | x y z]; cbn [op_of_edit step].
  - unfold place_voxel.
    destruct (is_valid_position s x y z); cbn [negb snd].
    + rewrite push_undo_below_capacity by exact Hlt.
      unfold edits_invariant.
      cbn [grid_size current_color_index _visible_faces_cache undo_stack
           voxels _invalidate_cache with_cache with_voxels with_undo_stack].
      split_ands; try assumption; try reflexivity.
      * rewrite length_app. cbn. lia.
      * rewrite unwind_snoc.
        eapply same_content_trans; [| exact Hu].
        apply same_content_unwind, revert_place.
    + unfold edits_invariant. split_ands; try assumption. lia.
  - unfold remove_voxel.
    destruct (PyDict.get (voxels s) (x, y, z)) as [o|] eqn:E; cbn [snd].
    + rewrite push_undo_below_capacity by exact Hlt.
      unfold edits_invariant.
      cbn [grid_size current_color_index _visible_faces_cache undo_stack
           voxels _invalidate_cache with_cache with_voxels with_undo_stack].
      split_ands; try assumption; try reflexivity.
      * rewrite length_app. cbn. lia.
      * rewrite unwind_snoc.
        eapply same_content_trans; [| exact Hu].
        apply same_content_unwind, revert_remove, E.
    + unfold edits_invariant. split_ands; try assumption. lia.
Qed.

Lemma run_edits_invariant (g : Z) (es : list Edit) : forall (n : nat) (s : t),
  (n + length es <= max_undo)%nat ->
  edits_invariant g n s ->
  edits_invariant g (n + length es) (run s (map op_of_edit es)).
Proof.
  induction es as [|e es IH]; intros n s Hn Hs; cbn [length map run fold_left].
  - now rewrite Nat.add_0_r.
  - cbn [length] in Hn.
    replace (n + S (length es))%nat with (S n + length es)%nat by lia.
    apply IH; [lia |].
    apply edit_keeps_edits_invariant; [lia | exact Hs].
Qed.

(** [n] undos empty a log of at most [n] records and revert every one. *)
Lemma undo_n_unwinds (n : nat) : forall (g i : Z) (st : list UndoRec)
    (d : PyDict.t Voxel),
  (length st <= n)%nat ->
  undo_n n (mk g d i st None) = mk g (unwind st d) i [] None.
Proof.
  induction n as [|n IH]; intros g i st d Hl.
  - destruct st; [reflexivity | cbn in Hl; lia].
  - cbn [undo_n]. destruct st as [|r0 rest] eqn:Est.
    + cbn. apply (IH g i [] d). cbn. lia.
    + assert (r0 :: rest <> []) as Hne by discriminate.
      change (snd (undo (mk g d i (r0 :: rest) None)))
        with (mk g (revert (last (r0 :: rest) r0) d) i
                (removelast (r0 :: rest)) None).
      rewrite IH.
      * rewrite (app_removelast_last r0 Hne) at 3.
        now rewrite unwind_snoc.
      * pose proof (f_equal (@length _) (app_removelast_last r0 Hne)) as Hlen.
        rewrite length_app in Hlen. cbn [length] in Hlen, Hl. lia.
Qed.

(** C4: on a new engine, after any [N <= 50] calls of [place_voxel] and
    [remove_voxel] (successful or not), [N] calls of [undo] give back the
    engine as it was created: no voxel, an empty undo log, an empty cache. *)
Theorem undo_all_edits_restores_empty (g : Z) (es : list Edit) :
  (length es <= max_undo)%nat ->
  undo_n (length es) (run (init g) (map op_of_edit es)) = init g.
Proof.
  intros Hn.
  assert (edits_invariant g 0 (init g)) as H0.
  { unfold edits_invariant. cbn. split_ands; try reflexivity; try lia.
    apply same_content_refl. }
  pose proof (run_edits_invariant g es 0 (init g) Hn H0) as H.
  cbn [Nat.add] in H.
  destruct (run (init g) (map op_of_edit es)) as [g' d i st c].
  destruct H as (Hg & Hi & Hc & Hl & Hu).
  cbn [grid_size current_color_index _visible_faces_cache undo_stack voxels]
    in *.
  subst g' i c. rewrite undo_n_unwinds by exact Hl.
  apply same_content_nil in Hu. rewrite Hu. reflexivity.
Qed.

Lemma undo_all_edits_restores_empty_witness :
  let es := [EPlace 1 2 3 None; EPlace 1 2 3 (Some (9, 9, 9));
             EPlace 4 2 3 None; ERemove 1 2 3; ERemove 0 0 0;
             EPlace 16 0 0 None; EPlace 1 2 3 None] in
  undo_n (length es) (run (init 16) (map op_of_edit es)) = init 16.
Proof.
  cbv zeta. apply undo_all_edits_restores_empty.
  unfold max_undo. cbn [length]. lia.
Defined.

(** Undoing a removal puts the voxel back at the end of the iteration
    order: the dictionary has the same content as before the removal, not
    the same order. *)
Example undo_of_remove_reorders :
  PyDict.keys (voxels (run (init 16)
                         [OpPlace 1 0 0 None; OpPlace 2 0 0 None])) =
    [(1, 0, 0); (2, 0, 0)] /\
  PyDict.keys (voxels (run (init 16)
                         [OpPlace 1 0 0 None; OpPlace 2 0 0 None;
                          OpRemove 1 0 0; OpUndo])) =
    [(2, 0, 0); (1, 0, 0)].
Proof. split; reflexivity. Qed.

(** Past the capacity the oldest record is gone: after 51 placements, 51
    undos leave the first voxel in place. *)
Example undo_beyond_capacity :
  let es := map (fun i : nat => EPlace (Z.of_nat i) 0 0 None) (seq 0 51) in
  PyDict.keys (voxels (undo_n 51 (run (init 64) (map op_of_edit es)))) =
  [(0, 0, 0)].
Proof. vm_compute. reflexivity. Qed.

End UndoAll.

(** ** Visible-face counts *)

Section FaceCounts.
Import VoxelEngine.

Lemma sum_upto_ext (n : nat) (f g : nat -> nat) :
  (forall i, (i < n)%nat -> f i = g i) -> sum_upto n f = sum_upto n g.
Proof.
  intros H. unfold sum_upto. f_equal. apply map_ext_in.
  intros i Hi. apply in_seq in Hi. apply H. lia.
Qed.

Lemma sum_upto_S (n : nat) (f : nat -> nat) :
  sum_upto (S n) f = (sum_upto n f + f n)%nat.
Proof.
  unfold sum_upto. rewrite seq_S, map_app, list_sum_app. cbn. lia.
Qed.

Lemma sum_upto_plus (n : nat) (f g : nat -> nat) :
  sum_upto n (fun i => f i + g i)%nat = (sum_upto n f + sum_upto n g)%nat.
Proof.
  induction n as [|n IH]; [reflexivity |].
  rewrite !sum_upto_S, IH. lia.
Qed.

Lemma sum_upto_const (n c : nat) : sum_upto n (fun _ => c) = (n * c)%nat.
Proof.
  induction n as [|n IH]; [reflexivity |].
  rewrite sum_upto_S, IH. lia.
Qed.

Lemma sum_upto_indicator (n c : nat) :
  (c < n)%nat -> sum_upto n (fun i => if i =? c then 1 else 0)%nat = 1%nat.
Proof.
  induction n as [|n IH]; intros Hc; [lia |].
  rewrite sum_upto_S. destruct (Nat.eqb_spec n c) as [-> | Hne].
  - rewrite (sum_upto_ext c _ (fun _ => 0%nat)).
    + rewrite sum_upto_const. lia.
    + intros i Hi. destruct (Nat.eqb_spec i c); [lia | reflexivity].
  - rewrite IH by lia. lia.
Qed.

Lemma sum_upto_ends (n : nat) : (1 <= n)%nat -> sum_upto n (ends n) = 2%nat.
Proof.
  intros Hn. unfold ends. rewrite sum_upto_plus.
  rewrite (sum_upto_ext n (fun i => if S i =? n then 1 else 0)%nat
             (fun i => if i =? n - 1 then 1 else 0)%nat).
  - rewrite !sum_upto_indicator by lia. reflexivity.
  - intros i Hi.
    destruct (Nat.eqb_spec (S i) n), (Nat.eqb_spec i (n - 1)); lia.
Qed.

(** Sum over a box of a function that is a sum of one term per axis. *)
Lemma sum_box_separable (a b c : nat) (f g h : nat -> nat) :
  sum_upto a (fun i => sum_upto b (fun j => sum_upto c (fun l =>
    f i + g j + h l)))%nat =
  (b * c * sum_upto a f + a * c * sum_upto b g + a * b * sum_upto c h)%nat.
Proof.
  assert (forall i j, sum_upto c (fun l => f i + g j + h l)%nat =
                      (c * f i + c * g j + sum_upto c h)%nat) as H1.
  { intros i j.
    rewrite (sum_upto_plus c (fun _ => f i + g j)%nat h), sum_upto_const.
    lia. }
  assert (forall i, sum_upto b (fun j => sum_upto c (fun l =>
                      f i + g j + h l))%nat =
                    (b * c * f i + c * sum_upto b g + b * sum_upto c h)%nat)
    as H2.
  { intros i.
    rewrite (sum_upto_ext b _ (fun j => (c * f i + sum_upto c h) + c * g j)%nat)
      by (intros j _; rewrite H1; lia).
    rewrite sum_upto_plus, sum_upto_const.
    assert (sum_upto b (fun j => c * g j)%nat = (c * sum_upto b g)%nat) as ->.
    { clear. induction b as [|b IH]; [cbn; lia |].
      rewrite !sum_upto_S, IH. lia. }
    lia. }
  rewrite (sum_upto_ext a _
             (fun i => (c * sum_upto b g + b * sum_upto c h) + b * c * f i)%nat)
    by (intros i _; rewrite H2; lia).
  rewrite sum_upto_plus, sum_upto_const.
  assert (sum_upto a (fun i => b * c * f i)%nat = (b * c * sum_upto a f)%nat)
    as ->.
  { clear. induction a as [|a IH]; [cbn; lia |].
    rewrite !sum_upto_S, IH. lia. }
  lia.
Qed.

Lemma list_sum_map_flat_map {A B : Type} (F : B -> nat) (g : A -> list B)
    (l : list A) :
  list_sum (map F (flat_map g l)) =
  list_sum (map (fun x => list_sum (map F (g x))) l).
Proof.
  induction l as [|x l IH]; cbn; [reflexivity |].
  now rewrite map_app, list_sum_app, IH.
Qed.

Lemma list_sum_box (F : Pos -> nat) (o : Pos) (a b c : nat) :
  list_sum (map F (box_cells o a b c)) =
  sum_upto a (fun i => sum_upto b (fun j => sum_upto c (fun l =>
    F (shift o (Z.of_nat i, Z.of_nat j, Z.of_nat l))))).
Proof.
  destruct o as [[ox oy] oz]. unfold box_cells, sum_upto, shift.
  rewrite list_sum_map_flat_map. f_equal. apply map_ext. intros i.
  rewrite list_sum_map_flat_map. f_equal. apply map_ext. intros j.
  now rewrite map_map.
Qed.

Lemma in_range_iff (lo : Z) (n : nat) (v : Z) :
  in_range lo n v = true <->
  exists i : nat, (i < n)%nat /\ v = lo + Z.of_nat i.
Proof.
  unfold in_range. rewrite andb_true_iff, Z.leb_le, Z.ltb_lt. split.
  - intros [H1 H2]. exists (Z.to_nat (v - lo)). split; lia.
  - intros (i & Hi & ->). lia.
Qed.

Lemma in_box_iff (o : Pos) (a b c : nat) (q : Pos) :
  in_box o a b c q = true <-> In q (box_cells o a b c).
Proof.
  destruct o as [[ox oy] oz], q as [[x y] z]. unfold in_box, box_cells.
  rewrite !andb_true_iff, !in_range_iff, in_flat_map. split.
  - intros [[(i & Hi & ->) (j & Hj & ->)] (l & Hl & ->)].
    exists i. split; [apply in_seq; lia |].
    apply in_flat_map. exists j. split; [apply in_seq; lia |].
    apply in_map_iff. exists l. split; [reflexivity | apply in_seq; lia].
  - intros (i & Hi & H). apply in_flat_map in H. destruct H as (j & Hj & H).
    apply in_map_iff in H. destruct H as (l & Heq & Hl).
    apply in_seq in Hi, Hj, Hl. injection Heq as <- <- <-.
    repeat split; eexists; (split; [| reflexivity]); lia.
Qed.

Lemma in_range_same (lo : Z) (n i : nat) :
  (i < n)%nat -> in_range lo n (lo + Z.of_nat i + 0) = true.
Proof. intros H. unfold in_range. apply andb_true_iff. split; lia. Qed.

Lemma in_range_succ (lo : Z) (n i : nat) :
  (i < n)%nat -> in_range lo n (lo + Z.of_nat i + 1) = negb (S i =? n)%nat.
Proof.
  intros H. unfold in_range.
  destruct (Nat.eqb_spec (S i) n); cbn.
  - apply andb_false_iff. right. lia.
  - apply andb_true_iff. split; lia.
Qed.

Lemma in_range_pred (lo : Z) (n i : nat) :
  (i < n)%nat -> in_range lo n (lo + Z.of_nat i + -1) = negb (i =? 0)%nat.
Proof.
  intros H. unfold in_range.
  destruct (Nat.eqb_spec i 0); cbn.
  - apply andb_false_iff. left. lia.
  - apply andb_true_iff. split; lia.
Qed.

(** A cell of a filled box shows one face for each end of a row it sits at. *)
Lemma exposed_in_box (o : Pos) (a b c i j l : nat) :
  (i < a)%nat -> (j < b)%nat -> (l < c)%nat ->
  exposed (in_box o a b c) (shift o (Z.of_nat i, Z.of_nat j, Z.of_nat l)) =
  (ends a i + ends b j + ends c l)%nat.
Proof.
  intros Hi Hj Hl. destruct o as [[ox oy] oz].
  unfold exposed, directions, shift, in_box, ends.
  cbn [filter fst snd].
  rewrite !(in_range_same _ _ _ Hi), !(in_range_same _ _ _ Hj),
          !(in_range_same _ _ _ Hl),
          (in_range_succ _ _ _ Hi), (in_range_succ _ _ _ Hj),
          (in_range_succ _ _ _ Hl),
          (in_range_pred _ _ _ Hi), (in_range_pred _ _ _ Hj),
          (in_range_pred _ _ _ Hl).
  destruct (S i =? a)%nat, (i =? 0)%nat, (S j =? b)%nat, (j =? 0)%nat,
           (S l =? c)%nat, (l =? 0)%nat; reflexivity.
Qed.

Lemma exposed_ext (occ occ' : Pos -> bool) (p : Pos) :
  (forall q, occ q = occ' q) -> exposed occ p = exposed occ' p.
Proof.
  intros H. unfold exposed. f_equal. apply filter_ext. intros d.
  now rewrite H.
Qed.

Lemma rebuild_faces_length (s : t) :
  length (rebuild_faces s) =
  list_sum (map (exposed (PyDict.contains (voxels s)))
                (PyDict.keys (voxels s))).
Proof.
  unfold rebuild_faces, PyDict.keys.
  rewrite length_flat_map, map_map. f_equal. apply map_ext.
  intros [[[x y] z] v].
  unfold exposed, has_voxel, directions, shift.
  cbn [flat_map filter fst snd app].
  repeat match goal with
         | |- context [PyDict.contains ?d ?k] =>
             destruct (PyDict.contains d k)
         end; reflexivity.
Qed.

(** The face count depends on the set of occupied cells only. *)
Lemma faces_by_occupancy (s : t) (cells : list Pos) (occ : Pos -> bool) :
  Permutation (PyDict.keys (voxels s)) cells ->
  (forall q, occ q = true <-> In q cells) ->
  length (rebuild_faces s) = list_sum (map (exposed occ) cells).
Proof.
  intros Hperm Hocc. rewrite rebuild_faces_length.
  rewrite (map_ext _ (exposed occ)).
  - apply Permutation_list_sum, Permutation_map, Hperm.
  - intros p. apply exposed_ext. intros q.
    apply eq_true_iff_eq. rewrite contains_true_iff, Hocc.
    split; apply Permutation_in; [| symmetry]; exact Hperm.
Qed.

(** A filled box of [a] by [b] by [c] cells shows its surface. *)
Lemma box_face_count (s : t) (o : Pos) (a b c : nat) :
  (1 <= a)%nat -> (1 <= b)%nat -> (1 <= c)%nat ->
  Permutation (PyDict.keys (voxels s)) (box_cells o a b c) ->
  length (rebuild_faces s) = (2 * (a * b + b * c + c * a))%nat.
Proof.
  intros Ha Hb Hc Hperm.
  rewrite (faces_by_occupancy s _ (in_box o a b c) Hperm (in_box_iff o a b c)).
  rewrite list_sum_box.
  rewrite (sum_upto_ext a _ (fun i => sum_upto b (fun j => sum_upto c (fun l =>
             ends a i + ends b j + ends c l)))%nat).
  - rewrite sum_box_separable, !sum_upto_ends by assumption. lia.
  - intros i Hi. apply sum_upto_ext. intros j Hj.
    apply sum_upto_ext. intros l Hl. now apply exposed_in_box.
Qed.

Lemma pair_is_box (s : t) (p q : Pos) (o : Pos) (a b c : nat) :
  Permutation (PyDict.keys (voxels s)) [p; q] ->
  box_cells o a b c = [p; q] \/ box_cells o a b c = [q; p] ->
  Permutation (PyDict.keys (voxels s)) (box_cells o a b c).
Proof.
  intros H [-> | ->]; [exact H |].
  eapply Permutation_trans; [exact H | apply perm_swap].
Qed.

(** C5: with a coherent cache, [get_visible_faces] returns 6 records when
    one cell is occupied, 10 when the occupied cells are a cell and one of
    its six axis neighbours, and [6 * k * k] when they are the cells of a
    filled cube of side [k]; grid bounds play no part in the count. *)
Theorem visible_face_counts :
  (forall (s : t) (p : Pos),
     cache_coherent s ->
     Permutation (PyDict.keys (voxels s)) [p] ->
     length (fst (get_visible_faces s)) = 6%nat)
  /\ (forall (s : t) (p : Pos) (d : Z * Z * Z) (f : Face),
        cache_coherent s ->
        In (d, f) directions ->
        Permutation (PyDict.keys (voxels s)) [p; shift p d] ->
        length (fst (get_visible_faces s)) = 10%nat)
  /\ (forall (s : t) (o : Pos) (k : nat),
        cache_coherent s ->
        Permutation (PyDict.keys (voxels s)) (box_cells o k k k) ->
        length (fst (get_visible_faces s)) = (6 * k * k)%nat).
Proof.
  split_ands.
  - intros s [[x y] z] Hc Hp.
    destruct (get_visible_faces_coherent s Hc) as [-> _].
    rewrite (box_face_count s (x, y, z) 1 1 1); try lia.
    cbn. now rewrite !Z.add_0_r.
  - intros s [[x y] z] d f Hc Hd Hp.
    destruct (get_visible_faces_coherent s Hc) as [-> _].
    cbn in Hd.
    destruct Hd as [H | [H | [H | [H | [H | [H | []]]]]]];
      injection H as <- <-; cbn [shift] in Hp.
    + rewrite (box_face_count s (x, y, z) 2 1 1); try lia.
      apply (pair_is_box s _ _ _ _ _ _ Hp). left. cbn.
      now rewrite !Z.add_0_r.
    + rewrite (box_face_count s (x + -1, y + 0, z + 0) 2 1 1); try lia.
      apply (pair_is_box s _ _ _ _ _ _ Hp). right. cbn.
      replace (x + -1 + 1) with x by lia. now rewrite !Z.add_0_r.
    + rewrite (box_face_count s (x, y, z) 1 2 1); try lia.
      apply (pair_is_box s _ _ _ _ _ _ Hp). left. cbn.
      now rewrite !Z.add_0_r.
    + rewrite (box_face_count s (x + 0, y + -1, z + 0) 1 2 1); try lia.
      apply (pair_is_box s _ _ _ _ _ _ Hp). right. cbn.
      replace (y + -1 + 1) with y by lia. now rewrite !Z.add_0_r.
    + rewrite (box_face_count s (x, y, z) 1 1 2); try lia.
      apply (pair_is_box s _ _ _ _ _ _ Hp). left. cbn.
      now rewrite !Z.add_0_r.
    + rewrite (box_face_count s (x + 0, y + 0, z + -1) 1 1 2); try lia.
      apply (pair_is_box s _ _ _ _ _ _ Hp). right. cbn.
      replace (z + -1 + 1) with z by lia. now rewrite !Z.add_0_r.
  - intros s o k Hc Hp.
    destruct (get_visible_faces_coherent s Hc) as [-> _].
    destruct k as [|k].
    + destruct o as [[ox oy] oz]. cbn in Hp.
      apply Permutation_sym, Permutation_nil in Hp.
      rewrite rebuild_faces_length, Hp. reflexivity.
    + rewrite (box_face_count s o (S k) (S k) (S k)); try lia.
      exact Hp.
Qed.

Lemma visible_face_counts_witness :
  length (fst (get_visible_faces
                 (run (init 16) [OpPlace 5 5 5 None]))) = 6%nat
  /\ length (fst (get_visible_faces
                    (run (init 16)
                       [OpPlace 5 5 5 None; OpGetVisibleFaces;
                        OpPlace 6 5 5 None]))) = 10%nat
  /\ length (fst (get_visible_faces
                    (run (init 16)
                       (map (fun p : Pos =>
                               let '(x, y, z) := p in OpPlace x y z None)
                            (box_cells (0, 0, 0) 3 3 3))))) = (6 * 3 * 3)%nat.
Proof.
  destruct visible_face_counts as (H1 & H2 & H3). split_ands.
  - apply (H1 _ (5, 5, 5)); [exact I | apply Permutation_refl].
  - apply (H2 _ (5, 5, 5) (1, 0, 0) Right);
      [exact I | left; reflexivity | apply Permutation_refl].
  - apply (H3 _ (0, 0, 0) 3%nat); [exact I | apply Permutation_refl].
Defined.

End FaceCounts.

(** ** Finger-extended predicate *)

Section FingerExtended.
Import GestureDetector.

Lemma finger_tips_below_21 (f : Finger) :
  let '(mcp, pip, tip) := finger_tips f in
  (mcp < 21 /\ pip < 21 /\ tip < 21)%nat.
Proof. destruct f; cbv; repeat split; lia. Qed.

Lemma nth_error_in_frame (lm : Frame) (i : nat) :
  length lm = 21%nat -> (i < 21)%nat -> exists p, nth_error lm i = Some p.
Proof.
  intros Hlen Hi.
  destruct (nth_error lm i) as [p|] eqn:E; [now exists p|].
  apply nth_error_None in E. lia.
Qed.

(** C9, as the code has it: on a 21-point frame the predicate is defined,
    and it holds exactly when the tip's vertical coordinate is smaller than
    the PIP joint's by more than the curl threshold and smaller than the
    MCP joint's (no threshold on the MCP comparison). *)
Theorem finger_extended_pip_margin_mcp_plain (lm : Frame) (f : Finger) :
  length lm = 21%nat ->
  exists mcp pip tip,
    nth_error lm (fst (fst (finger_tips f))) = Some mcp /\
    nth_error lm (snd (fst (finger_tips f))) = Some pip /\
    nth_error lm (snd (finger_tips f)) = Some tip /\
    (_is_finger_extended lm f = Some true \/
     _is_finger_extended lm f = Some false) /\
    (_is_finger_extended lm f = Some true <->
     (Landmark.y tip <? Landmark.y pip - curl_threshold)%float = true /\
     (Landmark.y tip <? Landmark.y mcp)%float = true).
Proof.
  intros Hlen.
  pose proof (finger_tips_below_21 f) as Hb.
  unfold _is_finger_extended.
  destruct (finger_tips f) as [[im ip] it]; cbn [fst snd].
  destruct Hb as (Hm & Hp & Ht).
  destruct (nth_error_in_frame lm im Hlen Hm) as [m Em].
  destruct (nth_error_in_frame lm ip Hlen Hp) as [p Ep].
  destruct (nth_error_in_frame lm it Hlen Ht) as [t' Et].
  exists m, p, t'. rewrite Em, Ep, Et. cbn [bind].
  split; [reflexivity | split; [reflexivity | split; [reflexivity |]]].
  split.
  - destruct (_ && _); [left | right]; reflexivity.
  - split.
    + intros H. injection H as H'. apply andb_true_iff in H'. exact H'.
    + intros [H1 H2]. rewrite H1, H2. reflexivity.
Qed.

Lemma finger_extended_pip_margin_mcp_plain_witness :
  length frame_index_raised = 21%nat /\
  exists mcp pip tip,
    nth_error frame_index_raised (fst (fst (finger_tips index))) = Some mcp /\
    nth_error frame_index_raised (snd (fst (finger_tips index))) = Some pip /\
    nth_error frame_index_raised (snd (finger_tips index)) = Some tip /\
    (_is_finger_extended frame_index_raised index = Some true \/
     _is_finger_extended frame_index_raised index = Some false) /\
    (_is_finger_extended frame_index_raised index = Some true <->
     (Landmark.y tip <? Landmark.y pip - curl_threshold)%float = true /\
     (Landmark.y tip <? Landmark.y mcp)%float = true).
Proof.
  split; [reflexivity |].
  apply (finger_extended_pip_margin_mcp_plain frame_index_raised index).
  reflexivity.
Defined.

(** C9 as the specification words it fails: with the tip 0.01 above the
    MCP joint and 0.1 above the PIP joint the code reports the finger
    extended, while the tip is not above the MCP joint by more than the
    curl threshold of 0.03. *)
Lemma finger_extended_ignores_mcp_margin :
  length frame_index_raised = 21%nat /\
  _is_finger_extended frame_index_raised index = Some true /\
  finger_extended_spec frame_index_raised index = Some false.
Proof. repeat split; vm_compute; reflexivity. Qed.

End FingerExtended.

(** ** The seven-tick pinch scenario *)

Section PinchCycle.
Import GestureDetector.

Lemma detect_scored_state (d : t) (sc : Scores) :
  state (snd (detect_scored d sc)) = fst (transition (state d) sc).
Proof.
  unfold detect_scored.
  destruct (transition (state d) sc) as [st g].
  destruct (gesture_eqb g (last_gesture d)); cbv beta iota zeta;
    repeat match goal with
           | |- context [if ?b then _ else _] => destruct b
           end; reflexivity.
Qed.

Lemma trace_state_trace (ks : list Scores) : forall d,
  trace d (map Hand ks) = state_trace (state d) ks.
Proof.
  induction ks as [|k ks IH]; intros d; cbn [map trace state_trace tick].
  - reflexivity.
  - rewrite IH, detect_scored_state. reflexivity.
Qed.

(** The next state depends on the pinch score only. *)
Lemma transition_state_pinch_only (st : State) (sc : Scores) :
  fst (transition st sc) =
  fst (transition st (mkScores (pinch sc) 0 0 0)).
Proof.
  destruct sc as [p a b c]. unfold transition; cbn [pinch palm grab peace].
  destruct (if state_eqb st IDLE then HAND_PRESENT else st);
    try reflexivity.
  destruct (0.4 <? p)%float; [reflexivity|].
  destruct (0.8 <? a)%float; [reflexivity|].
  destruct (0.8 <? b)%float; [reflexivity|].
  destruct (0.8 <? c)%float; reflexivity.
Qed.

Lemma state_trace_pinch_only (ks : list Scores) : forall st,
  state_trace st ks =
  state_trace st (map (fun p => mkScores p 0 0 0) (map pinch ks)).
Proof.
  induction ks as [|k ks IH]; intros st; cbn [map state_trace].
  - reflexivity.
  - rewrite <- transition_state_pinch_only, <- IH. reflexivity.
Qed.

(** C7, as the code has it: from IDLE or HAND_PRESENT, whatever the other
    scores and the debounce counters, the pinch scores
    0.2, 0.5, 0.75, 0.1, 0.95, 0.2, 0.05 lead through HAND_PRESENT,
    PRE_PINCH, PINCHED, RELEASE, RELEASE (re-pinch ignored), HAND_PRESENT
    (0.2 is already below the 0.3 release threshold), HAND_PRESENT. *)
Theorem pinch_cycle_states (d : t) (ks : list Scores) :
  state d = IDLE \/ state d = HAND_PRESENT ->
  map pinch ks = pinch_cycle ->
  trace d (map Hand ks) =
  [HAND_PRESENT; PRE_PINCH; PINCHED; RELEASE; RELEASE;
   HAND_PRESENT; HAND_PRESENT].
Proof.
  intros Hst Hks.
  rewrite trace_state_trace, state_trace_pinch_only, Hks.
  destruct Hst as [-> | ->]; vm_compute; reflexivity.
Qed.

Lemma pinch_cycle_states_witness :
  trace init (map Hand (map (fun p => mkScores p 0 0 0) pinch_cycle)) =
  [HAND_PRESENT; PRE_PINCH; PINCHED; RELEASE; RELEASE;
   HAND_PRESENT; HAND_PRESENT].
Proof.
  apply (pinch_cycle_states init
           (map (fun p => mkScores p 0 0 0) pinch_cycle)).
  - left; reflexivity.
  - reflexivity.
Defined.

(** C7 as the specification words it fails: the sixth tick (score 0.2)
    does not stay in RELEASE. *)
Lemma pinch_cycle_sixth_tick_leaves_release :
  trace init (map Hand (map (fun p => mkScores p 0 0 0) pinch_cycle)) <>
  [HAND_PRESENT; PRE_PINCH; PINCHED; RELEASE; RELEASE;
   RELEASE; HAND_PRESENT]
  /\
  trace (mk None NONE 0 HAND_PRESENT 0)
        (map Hand (map (fun p => mkScores p 0 0 0) pinch_cycle)) <>
  [HAND_PRESENT; PRE_PINCH; PINCHED; RELEASE; RELEASE;
   RELEASE; HAND_PRESENT].
Proof. split; vm_compute; discriminate. Qed.

End PinchCycle.

(** ** Debounce of the output label *)

Section Debounce.
Import GestureDetector.

Lemma gesture_eqb_eq (a b : Gesture) : gesture_eqb a b = true <-> a = b.
Proof. destruct a, b; cbn; split; congruence. Qed.

Lemma gesture_eqb_refl (a : Gesture) : gesture_eqb a a = true.
Proof. now apply gesture_eqb_eq. Qed.

(** The raw label is PINCH exactly on a tick that starts in PINCHED with a
    pinch score not below 0.5; the machine then stays in PINCHED. *)
Lemma transition_pinch (st : State) (sc : Scores) :
  snd (transition st sc) = PINCH <->
  st = PINCHED /\ (pinch sc <? 0.5)%float = false.
Proof.
  unfold transition. destruct st; cbn [state_eqb];
    repeat match goal with
           | |- context [if ?b then _ else _] => destruct b eqn:?
           end; cbn [snd]; split; try discriminate; try tauto;
    intros [? ?]; congruence.
Qed.

Lemma transition_pinch_state (st : State) (sc : Scores) :
  snd (transition st sc) = PINCH -> fst (transition st sc) = PINCHED.
Proof.
  intros H. apply transition_pinch in H. destruct H as [-> H].
  unfold transition. cbn [state_eqb]. now rewrite H.
Qed.

(** The three results of [detect_scored], one by one. *)
Lemma detect_scored_parts (d : t) (sc : Scores) :
  let raw := snd (transition (state d) sc) in
  let hold := if gesture_eqb raw (last_gesture d)
              then (gesture_hold_frames d + 1)%Z else 1%Z in
  last_gesture (snd (detect_scored d sc)) = raw /\
  gesture_hold_frames (snd (detect_scored d sc)) = hold /\
  fst (detect_scored d sc) =
  if gesture_eqb raw PINCH then PINCH
  else if (min_hold_frames <=? hold)%Z then raw else NONE.
Proof.
  cbv zeta. unfold detect_scored.
  pose proof (transition_pinch_state (state d) sc) as Hp.
  destruct (transition (state d) sc) as [st raw]. cbn [fst snd] in *.
  destruct (gesture_eqb raw (last_gesture d)) eqn:El.
  - apply gesture_eqb_eq in El. cbv beta iota zeta.
    destruct (gesture_eqb raw PINCH) eqn:Ep.
    + apply gesture_eqb_eq in Ep. rewrite (Hp Ep). cbn.
      split_ands; congruence.
    + cbn [andb].
      destruct (min_hold_frames <=? gesture_hold_frames d + 1)%Z;
        cbn; split_ands; congruence.
  - cbv beta iota zeta.
    destruct (gesture_eqb raw PINCH) eqn:Ep.
    + apply gesture_eqb_eq in Ep. rewrite (Hp Ep). cbn.
      split_ands; congruence.
    + cbn [andb]. destruct (min_hold_frames <=? 1)%Z;
        cbn; split_ands; congruence.
Qed.

Lemma tick_counters_track (d : t) (k : Tick) (hist : list (option Gesture)) :
  counters_track d hist ->
  counters_track (snd (tick d k))
    (match k with
     | NoHand => None
     | Hand sc => Some (snd (transition (state d) sc))
     end :: hist).
Proof.
  intros H g. destruct k as [|sc]; cbn [tick snd streak].
  - cbn. destruct (gesture_eqb g NONE); reflexivity.
  - destruct (detect_scored_parts d sc) as (-> & -> & _).
    destruct (gesture_eqb g (snd (transition (state d) sc))) eqn:Eg;
      [| reflexivity].
    apply gesture_eqb_eq in Eg. subst g.
    rewrite Nat2Z.inj_succ, (H (snd (transition (state d) sc))).
    destruct (gesture_eqb _ (last_gesture d)); lia.
Qed.

Lemma tick_state (d : t) (k : Tick) :
  state (snd (tick d k)) =
  match k with
  | NoHand => IDLE
  | Hand sc => fst (transition (state d) sc)
  end.
Proof. destruct k; [reflexivity | apply detect_scored_state]. Qed.

Lemma run_counters_track (ks : list Tick) :
  forall (d : t) (hist : list (option Gesture)),
  counters_track d hist ->
  counters_track (run d ks) (rev (raw_labels (state d) ks) ++ hist).
Proof.
  induction ks as [|k ks IH]; intros d hist H; [exact H |].
  cbn [run fold_left]. fold (run (snd (tick d k)) ks).
  pose proof (tick_counters_track d k hist H) as Hk.
  apply IH in Hk. rewrite tick_state in Hk.
  destruct k as [|sc]; cbn [raw_labels rev]; rewrite <- app_assoc; exact Hk.
Qed.

(** [detect] is [tick]: on a missing frame the reset, on a frame either the
    early exit on a zero scale or the state machine run on its scores. *)
Lemma detect_no_hand (pow2 : float -> option float) (d : t) :
  detect pow2 d None = Some (tick d NoHand).
Proof. reflexivity. Qed.

Lemma detect_hand (pow2 : float -> option float) (d : t) (lm : Frame)
    (r : Gesture * t) :
  detect pow2 d (Some lm) = Some r ->
  r = (NONE, d) \/
  exists (scale : float) (sc : Scores),
    _get_hand_scale pow2 lm = Some scale /\
    _get_gesture_scores pow2 lm scale = Some sc /\
    r = tick d (Hand sc).
Proof.
  cbn [detect]. destruct (_get_hand_scale pow2 lm) as [scale|]; cbn [bind];
    [| discriminate].
  destruct (scale =? 0)%float.
  - intros H. left. congruence.
  - destruct (_get_gesture_scores pow2 lm scale) as [sc|] eqn:E; cbn [bind];
      [| discriminate].
    intros H. right. exists scale, sc.
    split; [reflexivity | split; [exact E |]].
    cbn [tick]. congruence.
Qed.

(** The cycle of [tests/test_gesture.py] through [detect] itself, with
    correctly rounded squares: the call that enters PINCHED returns NONE,
    the following ones return PINCH at once. *)
Example detect_on_mock_hands :
  detect_trace pow2_nearest init
    [ None; Some (create_mock_hand 0.15); Some (create_mock_hand 0.015);
      Some (create_mock_hand 0.001); Some (create_mock_hand 0.001);
      Some (create_mock_hand 0.001); Some (create_mock_hand 0.12) ] =
  [ Some (NONE, IDLE); Some (NONE, HAND_PRESENT); Some (NONE, PRE_PINCH);
    Some (NONE, PINCHED); Some (PINCH, PINCHED); Some (PINCH, PINCHED);
    Some (NONE, RELEASE) ].
Proof. vm_compute. reflexivity. Qed.

(** C8, as the code has it: after any run of ticks on a new detector, the
    gesture returned for a frame is PINCH whenever the raw label is PINCH,
    whatever the hold count; otherwise it is the raw label once that label
    has been produced on three or more consecutive ticks (this one
    included), and NONE before that.  The raw label is PINCH exactly on a
    tick that starts in PINCHED with a pinch score not below 0.5, so not on
    the tick that enters PINCHED. *)
Theorem debounced_output (ks : list Tick) (sc : Scores) :
  let d := run init ks in
  let raw := snd (transition (state d) sc) in
  let held := S (streak raw (rev (raw_labels IDLE ks))) in
  fst (detect_scored d sc) =
    (if gesture_eqb raw PINCH then PINCH
     else if (3 <=? held)%nat then raw else NONE)
  /\ (raw = PINCH <->
      state d = PINCHED /\ (pinch sc <? 0.5)%float = false).
Proof.
  intros d raw held. split; [| apply transition_pinch].
  assert (counters_track d (rev (raw_labels IDLE ks))) as H.
  { assert (counters_track init []) as H0
      by (intros g; cbn; destruct (gesture_eqb g NONE); reflexivity).
    apply (run_counters_track ks) in H0.
    now rewrite app_nil_r in H0. }
  destruct (detect_scored_parts d sc) as (_ & _ & ->). fold raw.
  specialize (H raw).
  assert ((if gesture_eqb raw (last_gesture d)
           then (gesture_hold_frames d + 1)%Z else 1%Z) = Z.of_nat held) as ->.
  { unfold held. rewrite Nat2Z.inj_succ, H.
    destruct (gesture_eqb raw (last_gesture d)); lia. }
  unfold min_hold_frames.
  destruct (gesture_eqb raw PINCH); [reflexivity |].
  destruct (Nat.leb_spec 3 held), (Z.leb_spec 3 (Z.of_nat held));
    try reflexivity; lia.
Qed.

(** C8 as the specification words it fails for PINCH: on the tick that
    enters PINCHED (third tick below) the state is PINCHED and NONE is
    returned; and on a tick that starts in PINCHED with a low score (fourth
    tick) NONE is returned as well. *)
Lemma pinch_not_returned_on_entering_pinched :
  let quiet := fun p : float => mkScores p 0%float 0%float 0%float in
  let d2 := run init [Hand (quiet 0.2%float); Hand (quiet 0.5%float)] in
  let d3 := snd (detect_scored d2 (quiet 0.75%float)) in
  state d2 = PRE_PINCH /\
  state d3 = PINCHED /\
  fst (detect_scored d2 (quiet 0.75%float)) = NONE /\
  fst (detect_scored d3 (quiet 0.1%float)) = NONE.
Proof. cbv zeta. split_ands; vm_compute; reflexivity. Qed.

End Debounce.

(** ** Motion sanity filter *)

Section VelocityFilter.
Import HandTracker.

(** C10, as the code has it.  With no stored frame the call accepts and
    stores the frame and the timestamp, whatever the timestamp.  With a
    stored frame the call first takes the elapsed time as a float: when the
    elapsed milliseconds are beyond the range of floats it raises and
    returns nothing.  Otherwise it rejects exactly when the elapsed time is
    not [<= 0] and the wrist speed exceeds [MAX_SPEED], and a rejection
    leaves the stored state as it was; an elapsed time [<= 0] is accepted
    and also leaves the stored state as it was; every other acceptance
    stores the frame and the timestamp. *)
Theorem velocity_filter_behaviour
    (s : t) (lm : Frame) (ts : Z) (w : Landmark.t) :
  nth_error lm 0 = Some w ->
  (last_sane_landmarks s = None ->
   _is_velocity_sane s lm ts = Some (true, mk (Some lm) ts))
  /\
  (forall (last : Frame) (pw : Landmark.t),
     last_sane_landmarks s = Some last ->
     nth_error last 0 = Some pw ->
     (elapsed_seconds s ts = None -> _is_velocity_sane s lm ts = None) /\
     (forall dt : float,
        elapsed_seconds s ts = Some dt ->
        let speed := wrist_speed pw w dt in
        exists r : bool * t,
          _is_velocity_sane s lm ts = Some r /\
          (fst r = false <->
           (dt <=? 0)%float = false /\ (MAX_SPEED <? speed)%float = true) /\
          (fst r = false -> snd r = s) /\
          ((dt <=? 0)%float = true -> r = (true, s)) /\
          ((dt <=? 0)%float = false -> fst r = true ->
           snd r = mk (Some lm) ts))).
Proof.
  intros Hw. split.
  - intros Hnone. unfold _is_velocity_sane. now rewrite Hnone.
  - intros last pw Hlast Hpw.
    unfold _is_velocity_sane, elapsed_seconds. rewrite Hlast.
    destruct (py_float (ts - last_sane_timestamp s)) as [ms|];
      cbn [bind]; (split; [intros H | intros dt H]); try discriminate;
      [| reflexivity].
    apply (f_equal (fun o => match o with Some d => d | None => dt end))
        in H.
      cbv beta iota in H. subst dt.
    set (speed := wrist_speed pw w (ms / 1000.0)%float).
      destruct (ms / 1000.0 <=? 0)%float eqn:Edt.
      * exists (true, s). cbn [fst snd]. split_ands; try reflexivity;
          try discriminate.
        split; [discriminate | intros [H _]; discriminate].
      * rewrite Hw, Hpw. cbn [bind].
        change (sqrt _ / (ms / 1000.0))%float
          with (wrist_speed pw w (ms / 1000.0)%float).
        fold speed.
        destruct (MAX_SPEED <? speed)%float eqn:Esp.
        -- exists (false, s). cbn [fst snd]. split_ands; try reflexivity;
             try discriminate.
           split; [intros _; split; reflexivity | reflexivity].
        -- exists (true, mk (Some lm) ts). cbn [fst snd].
           split_ands; try reflexivity; try discriminate.
           split; [discriminate | intros [_ H]; discriminate].
Qed.

Lemma velocity_filter_behaviour_witness :
  let s := mk (Some (frame_with_wrist 0)) 100 in
  let lm := frame_with_wrist 0.5 in
  (last_sane_landmarks s = None ->
   _is_velocity_sane s lm 133 = Some (true, mk (Some lm) 133))
  /\
  (forall (last : Frame) (pw : Landmark.t),
     last_sane_landmarks s = Some last ->
     nth_error last 0 = Some pw ->
     (elapsed_seconds s 133 = None -> _is_velocity_sane s lm 133 = None) /\
     (forall dt : float,
        elapsed_seconds s 133 = Some dt ->
        let speed := wrist_speed pw (Landmark.mk 0.5 0 0) dt in
        exists r : bool * t,
          _is_velocity_sane s lm 133 = Some r /\
          (fst r = false <->
           (dt <=? 0)%float = false /\ (MAX_SPEED <? speed)%float = true) /\
          (fst r = false -> snd r = s) /\
          ((dt <=? 0)%float = true -> r = (true, s)) /\
          ((dt <=? 0)%float = false -> fst r = true ->
           snd r = mk (Some lm) 133))).
Proof.
  cbv zeta.
  apply (velocity_filter_behaviour
           (mk (Some (frame_with_wrist 0)) 100) (frame_with_wrist 0.5) 133
           (Landmark.mk 0.5 0 0)).
  reflexivity.
Defined.

(** Where the conversion of the elapsed milliseconds stops: the largest
    integer that still converts, and the first one that does not; on the
    latter the call raises and the stored state survives only outside the
    call. *)
Example elapsed_time_beyond_floats :
  let s := mk (Some (frame_with_wrist 0)) 0 in
  py_float (2 ^ 1024 - 2 ^ 970 - 1) = Some 0x1.fffffffffffffp+1023%float /\
  py_float (2 ^ 1024 - 2 ^ 970) = None /\
  py_float (- (2 ^ 1024 - 2 ^ 970)) = None /\
  _is_velocity_sane s (frame_with_wrist 0) (2 ^ 1024) = None /\
  _is_velocity_sane init (frame_with_wrist 0) (2 ^ 1024) =
    Some (true, mk (Some (frame_with_wrist 0)) (2 ^ 1024)).
Proof. cbv zeta. split_ands; vm_compute; reflexivity. Qed.

(** The three outcomes on 21-point frames, 33 ms apart: a wrist that moved
    by 0.1 is accepted and stored, one that moved by 0.5 (about 15 units
    per second) is rejected. *)
Example velocity_filter_outcomes :
  let s := mk (Some (frame_with_wrist 0)) 100 in
  _is_velocity_sane init (frame_with_wrist 0) 100 = Some (true, s) /\
  _is_velocity_sane s (frame_with_wrist 0.1) 133 =
    Some (true, mk (Some (frame_with_wrist 0.1)) 133) /\
  _is_velocity_sane s (frame_with_wrist 0.5) 133 = Some (false, s).
Proof. cbv zeta. split_ands; vm_compute; reflexivity. Qed.

(** C10 as the specification words it fails on the accepting case with no
    elapsed time: a frame stamped at or before the stored timestamp is
    accepted, but neither the frame nor the timestamp is stored. *)
Lemma stale_timestamp_accepted_without_update :
  let s := mk (Some (frame_with_wrist 0)) 100 in
  let lm := frame_with_wrist 0.1 in
  _is_velocity_sane s lm 100 = Some (true, s) /\
  _is_velocity_sane s lm 90 = Some (true, s) /\
  last_sane_landmarks s <> Some lm /\
  last_sane_timestamp s <> 90.
Proof.
  cbv zeta. split_ands.
  - vm_compute. reflexivity.
  - vm_compute. reflexivity.
  - intros H.
    apply (f_equal (fun o : option Frame =>
                      match o with
                      | Some (p :: _) => (Landmark.x p =? 0)%float
                      | _ => false
                      end)) in H.
    vm_compute in H. discriminate.
  - cbn. discriminate.
Qed.

End VelocityFilter.

(* ================================================================== *)
(** * Part IV: further properties of the code *)
(* ================================================================== *)

(** ** The palette *)

Section Palette.
Import VoxelEngine.

Lemma color_index_cases (s : t) :
  color_index_ok s ->
  current_color_index s = 0 \/ current_color_index s = 1 \/
  current_color_index s = 2 \/ current_color_index s = 3 \/
  current_color_index s = 4 \/ current_color_index s = 5 \/
  current_color_index s = 6 \/ current_color_index s = 7.
Proof. unfold color_index_ok. cbn. lia. Qed.

(** X1: [next_color] and [prev_color] undo each other on an engine whose index
    is within the palette, and eight calls of either come back to the same
    engine. *)
Theorem color_cycle_round_trip (s : t) :
  color_index_ok s ->
  prev_color (next_color s) = s /\
  next_color (prev_color s) = s /\
  Nat.iter 8 next_color s = s /\
  Nat.iter 8 prev_color s = s.
Proof.
  intros H. apply color_index_cases in H.
  destruct s as [g d i u c]. cbn [current_color_index] in H.
  unfold next_color, prev_color, with_color_index.
  repeat destruct H as [H | H]; subst i; cbn; split_ands; reflexivity.
Qed.

Lemma color_cycle_round_trip_witness :
  let s := run (init 16) [OpNextColor; OpNextColor; OpPlace 1 1 1 None] in
  prev_color (next_color s) = s /\
  next_color (prev_color s) = s /\
  Nat.iter 8 next_color s = s /\
  Nat.iter 8 prev_color s = s.
Proof.
  cbv zeta. apply color_cycle_round_trip.
  unfold color_index_ok. cbn. lia.
Defined.

Lemma step_color_index_ok (s : t) (op : Op) :
  color_index_ok s -> color_index_ok (step s op).
Proof.
  intros H. destruct op as [x y z c | x y z | | | | |]; cbn [step].
  - unfold place_voxel. destruct (is_valid_position s x y z); exact H.
  - unfold remove_voxel. destruct (PyDict.get (voxels s) (x, y, z)); exact H.
  - unfold undo. destruct (undo_stack s); exact H.
  - exact H.
  - unfold get_visible_faces. destruct (_visible_faces_cache s); exact H.
  - unfold color_index_ok, next_color. cbn [current_color_index with_color_index].
    apply Z.mod_pos_bound. cbn. lia.
  - unfold color_index_ok, prev_color. cbn [current_color_index with_color_index].
    apply Z.mod_pos_bound. cbn. lia.
Qed.

Lemma run_color_index_ok (ops : list Op) : forall s,
  color_index_ok s -> color_index_ok (run s ops).
Proof.
  induction ops as [|op ops IH]; intros s H; cbn; [exact H |].
  apply IH, step_color_index_ok, H.
Qed.

(** X2: After any sequence of calls on a new engine the palette index is within
    [0, 8) and [current_color] is one of the eight palette colours: the
    lookup [COLORS[current_color_index]] never fails. *)
Theorem current_color_in_palette (g : Z) (ops : list Op) :
  0 <= current_color_index (run (init g) ops) < 8 /\
  In (current_color (run (init g) ops)) COLORS.
Proof.
  assert (color_index_ok (run (init g) ops)) as H.
  { apply run_color_index_ok. unfold color_index_ok. cbn. lia. }
  split; [exact H |].
  unfold current_color. apply nth_In.
  unfold color_index_ok in H. cbn in H. cbn [length COLORS]. lia.
Qed.

End Palette.

(** ** Looking up after an edit *)

Section EditLookup.
Import VoxelEngine.

(** X3: After a successful [place_voxel] the cell holds a voxel of the colour
    given; when none is given and the palette index is one that [COLORS]
    has (the code then looks up [COLORS[current_color_index]]), it holds a
    voxel of the current colour, one of the eight of the palette.  Every
    other cell is as before. *)
Theorem place_then_lookup (s : t) (x y z : Z) (c : option RGB) :
  is_valid_position s x y z = true ->
  (c = None -> color_index_ok s) ->
  let s' := snd (place_voxel s x y z c) in
  get_voxel s' x y z =
    Some (mkVoxel match c with Some c' => c' | None => current_color s end)
  /\ (c = None -> In (current_color s) COLORS)
  /\ has_voxel s' x y z = true
  /\ forall x' y' z', (x', y', z') <> (x, y, z) ->
       get_voxel s' x' y' z' = get_voxel s x' y' z'.
Proof.
  intros Hv Hc s'. subst s'. unfold place_voxel. rewrite Hv. cbn [negb snd].
  unfold get_voxel, has_voxel, PyDict.contains.
  cbn [voxels _invalidate_cache with_cache with_voxels _push_undo
       with_undo_stack].
  rewrite get_set_same. split_ands; try reflexivity.
  - intros Hn. apply Hc in Hn. unfold color_index_ok in Hn.
    unfold current_color. apply nth_In. cbn [length COLORS] in Hn |- *. lia.
  - intros x' y' z' Hne. apply get_set_other. congruence.
Qed.

Lemma place_then_lookup_witness :
  let s := run (init 16) [OpPlace 5 5 5 None; OpNextColor] in
  let s' := snd (place_voxel s 5 5 5 None) in
  get_voxel s' 5 5 5 = Some (mkVoxel (current_color s))
  /\ (@None RGB = None -> In (current_color s) COLORS)
  /\ has_voxel s' 5 5 5 = true
  /\ forall x' y' z', (x', y', z') <> (5, 5, 5) ->
       get_voxel s' x' y' z' = get_voxel s x' y' z'.
Proof.
  cbv zeta.
  apply (place_then_lookup
           (run (init 16) [OpPlace 5 5 5 None; OpNextColor]) 5 5 5 None).
  - reflexivity.
  - intros _. unfold color_index_ok. cbn. lia.
Defined.

(** X4: After a successful [remove_voxel] the cell is empty and every other
    cell is as before. *)
Theorem remove_then_lookup (s : t) (x y z : Z) :
  has_voxel s x y z = true ->
  let s' := snd (remove_voxel s x y z) in
  fst (remove_voxel s x y z) = true
  /\ get_voxel s' x y z = None
  /\ has_voxel s' x y z = false
  /\ forall x' y' z', (x', y', z') <> (x, y, z) ->
       get_voxel s' x' y' z' = get_voxel s x' y' z'.
Proof.
  unfold has_voxel, PyDict.contains, remove_voxel, get_voxel.
  destruct (PyDict.get (voxels s) (x, y, z)) as [old|]; [| discriminate].
  intros _. cbn [fst snd voxels _invalidate_cache with_cache with_voxels
                 _push_undo with_undo_stack].
  rewrite get_del_same. split_ands; try reflexivity.
  intros x' y' z' Hne. apply get_del_other. congruence.
Qed.

Lemma remove_then_lookup_witness :
  let s := run (init 16) [OpPlace 5 5 5 None; OpPlace 6 5 5 None] in
  let s' := snd (remove_voxel s 5 5 5) in
  fst (remove_voxel s 5 5 5) = true
  /\ get_voxel s' 5 5 5 = None
  /\ has_voxel s' 5 5 5 = false
  /\ forall x' y' z', (x', y', z') <> (5, 5, 5) ->
       get_voxel s' x' y' z' = get_voxel s x' y' z'.
Proof.
  cbv zeta.
  apply (remove_then_lookup
           (run (init 16) [OpPlace 5 5 5 None; OpPlace 6 5 5 None]) 5 5 5).
  reflexivity.
Defined.

(** X5: In a state reached from a new engine no cell outside the grid is
    occupied, so [remove_voxel], which checks no bounds, fails there. *)
Theorem remove_out_of_bounds_fails (g : Z) (ops : list Op) (x y z : Z) :
  let s := run (init g) ops in
  is_valid_position s x y z = false ->
  has_voxel s x y z = false /\
  remove_voxel s x y z = (false, s).
Proof.
  intros s Hv.
  assert (store_invariant s) as [Hk _].
  { apply run_invariant; [split |]; constructor. }
  assert (PyDict.get (voxels s) (x, y, z) = None) as Hg.
  { destruct (PyDict.get (voxels s) (x, y, z)) eqn:E; [| reflexivity].
    apply get_Some_in in E. rewrite Forall_forall in Hk.
    specialize (Hk _ E). cbn in Hk. congruence. }
  unfold has_voxel, PyDict.contains, remove_voxel. now rewrite Hg.
Qed.

Lemma remove_out_of_bounds_fails_witness :
  let s := run (init 16) [OpPlace 5 5 5 None; OpPlace 16 0 0 None] in
  has_voxel s 16 0 0 = false /\
  remove_voxel s 16 0 0 = (false, s).
Proof.
  cbv zeta.
  apply (remove_out_of_bounds_fails 16
           [OpPlace 5 5 5 None; OpPlace 16 0 0 None] 16 0 0).
  reflexivity.
Defined.

End EditLookup.

(** ** One edit, then one undo *)

Section UndoOne.
Import VoxelEngine.

Lemma push_undo_stack (s : t) (a : Action) (p : Pos) (v : option Voxel) :
  undo_stack (_push_undo s a p v) =
  (if (max_undo <=? length (undo_stack s))%nat
   then tl (undo_stack s) else undo_stack s) ++ [(a, p, v)].
Proof.
  unfold _push_undo. cbn [undo_stack with_undo_stack].
  rewrite length_app. cbn [length].
  destruct (Nat.leb_spec max_undo (length (undo_stack s))) as [H | H].
  - assert ((max_undo <? length (undo_stack s) + 1)%nat = true) as ->
      by (apply Nat.ltb_lt; lia).
    destruct (undo_stack s); [cbn in H; unfold max_undo in H; lia |].
    reflexivity.
  - assert ((max_undo <? length (undo_stack s) + 1)%nat = false) as ->
      by (apply Nat.ltb_ge; lia).
    reflexivity.
Qed.

Lemma undo_snoc (s : t) (q : list UndoRec) (r : UndoRec) :
  undo_stack s = q ++ [r] ->
  undo s =
  (true, _invalidate_cache
           (with_voxels (with_undo_stack s q) (revert r (voxels s)))).
Proof.
  intros H. unfold undo.
  destruct (undo_stack s) as [|r0 rest] eqn:E.
  - destruct q; discriminate.
  - rewrite H, last_last, removelast_last. reflexivity.
Qed.

(** X6: Whatever the engine, even with a full log: an [undo] right after a
    successful [place_voxel] or [remove_voxel] succeeds and gives every cell
    its former content; the log is the former one, less its oldest record
    when it already held 50. *)
Theorem undo_reverts_last_edit (s : t) (e : Edit) :
  fst (edit s e) = true ->
  let s1 := snd (edit s e) in
  fst (undo s1) = true /\
  same_content (voxels (snd (undo s1))) (voxels s) /\
  undo_stack (snd (undo s1)) =
    (if (max_undo <=? length (undo_stack s))%nat
     then tl (undo_stack s) else undo_stack s).
Proof.
  intros He s1. subst s1.
  destruct e as [x y z c | x y z]; cbn [edit] in *.
  - unfold place_voxel in *.
    destruct (is_valid_position s x y z); [| discriminate]. cbn [negb snd].
    rewrite (undo_snoc _ _ (Place, (x, y, z), PyDict.get (voxels s) (x, y, z)))
      by apply push_undo_stack.
    cbn [fst snd voxels undo_stack _invalidate_cache with_cache with_voxels
         with_undo_stack _push_undo].
    split_ands; try reflexivity. apply revert_place.
  - unfold remove_voxel in *.
    destruct (PyDict.get (voxels s) (x, y, z)) as [old|] eqn:E;
      [| discriminate]. cbn [snd].
    rewrite (undo_snoc _ _ (Remove, (x, y, z), Some old))
      by apply push_undo_stack.
    cbn [fst snd voxels undo_stack _invalidate_cache with_cache with_voxels
         with_undo_stack _push_undo].
    split_ands; try reflexivity. apply revert_remove, E.
Qed.

Lemma undo_reverts_last_edit_witness :
  let s := run (init 16) [OpPlace 5 5 5 None; OpPlace 6 5 5 None] in
  let s1 := snd (edit s (ERemove 5 5 5)) in
  fst (undo s1) = true /\
  same_content (voxels (snd (undo s1))) (voxels s) /\
  undo_stack (snd (undo s1)) =
    (if (max_undo <=? length (undo_stack s))%nat
     then tl (undo_stack s) else undo_stack s).
Proof.
  cbv zeta.
  apply (undo_reverts_last_edit
           (run (init 16) [OpPlace 5 5 5 None; OpPlace 6 5 5 None])
           (ERemove 5 5 5)).
  reflexivity.
Defined.

Lemma step_undo_log_bounded (s : t) (op : Op) :
  (length (undo_stack s) <= max_undo)%nat ->
  (length (undo_stack (step s op)) <= max_undo)%nat.
Proof.
  intros H.
  assert (forall a p v,
            (length (undo_stack (_push_undo s a p v)) <= max_undo)%nat) as Hp.
  { intros a p v. rewrite push_undo_stack, length_app. cbn [length].
    destruct (Nat.leb_spec max_undo (length (undo_stack s))).
    - destruct (undo_stack s); cbn [tl length] in *;
        [unfold max_undo in *; lia | lia].
    - lia. }
  destruct op as [x y z c | x y z | | | | |]; cbn [step].
  - unfold place_voxel. destruct (is_valid_position s x y z); cbn; auto.
    apply Hp.
  - unfold remove_voxel. destruct (PyDict.get (voxels s) (x, y, z)); cbn; auto.
    apply Hp.
  - unfold undo. destruct (undo_stack s) as [|r0 rest] eqn:E; cbn [snd].
    + rewrite E. exact H.
    + cbn [undo_stack _invalidate_cache with_cache with_voxels with_undo_stack].
      assert (r0 :: rest <> []) as Hne by discriminate.
      pose proof (f_equal (@length _) (app_removelast_last r0 Hne)) as Hl.
      rewrite length_app in Hl. cbn [length] in Hl, H. lia.
  - cbn. lia.
  - unfold get_visible_faces. destruct (_visible_faces_cache s); exact H.
  - exact H.
  - exact H.
Qed.

(** X7: The undo log never holds more than 50 records. *)
Theorem undo_log_bounded (g : Z) (ops : list Op) :
  (length (undo_stack (run (init g) ops)) <= 50)%nat.
Proof.
  change 50%nat with max_undo.
  assert (length (undo_stack (init g)) <= max_undo)%nat as H by (cbn; lia).
  revert H. generalize (init g).
  induction ops as [|op ops IH]; intros s H; cbn; [exact H |].
  apply IH, step_undo_log_bounded, H.
Qed.

End UndoOne.

(** ** What the face list and the voxel list contain *)

Section Listings.
Import VoxelEngine.

Lemma In_dict_get {V : Type} (d : PyDict.t V) (p : Pos) (v : V) :
  NoDup (PyDict.keys d) -> (In (p, v) d <-> PyDict.get d p = Some v).
Proof.
  induction d as [|[k' v'] r IH]; cbn; intros Hnd.
  - split; [tauto | discriminate].
  - inversion Hnd as [|? ? Hni Hr]; subst.
    destruct (pos_eqb p k') eqn:E.
    + apply pos_eqb_eq in E. subst k'. split.
      * intros [H | H]; [congruence |].
        exfalso. apply Hni. apply (in_map fst) in H. exact H.
      * intros H. left. congruence.
    + apply pos_eqb_neq in E. rewrite <- (IH Hr). split.
      * intros [H | H]; [congruence | exact H].
      * tauto.
Qed.

Lemma In_faces_of_cell (s : t) (pos : Pos) (voxel : Voxel) (f : FaceRec) :
  In f (flat_map
          (fun dir : (Z * Z * Z) * Face =>
             let '((dx, dy, dz), face) := dir in
             let '(x, y, z) := pos in
             if negb (has_voxel s (x + dx) (y + dy) (z + dz))
             then [mkFaceRec (x, y, z) face (color voxel)]
             else [])
          directions) <->
  face_pos f = pos /\ face_color f = color voxel /\
  exists d, In (d, face_dir f) directions /\
            PyDict.contains (voxels s) (shift pos d) = false.
Proof.
  rewrite in_flat_map. destruct pos as [[x y] z]. split.
  - intros ([[[dx dy] dz] face] & Hd & Hin).
    unfold has_voxel in Hin.
    destruct (PyDict.contains (voxels s) (x + dx, y + dy, z + dz)) eqn:E;
      cbn in Hin; [tauto |].
    destruct Hin as [<- | []]. cbn.
    split_ands; try reflexivity. exists (dx, dy, dz). split; assumption.
  - intros (Hp & Hc & ([[dx dy] dz] & Hd & He)).
    exists ((dx, dy, dz), face_dir f). split; [exact Hd |].
    unfold has_voxel. cbn [shift] in He. rewrite He. cbn. left.
    destruct f as [fp fd fc]. cbn in *. congruence.
Qed.

(** X8: In a state reached from a new engine, the records returned by
    [get_visible_faces] are exactly the triples of an occupied cell, a
    direction in which the neighbouring cell is empty, and the colour of the
    cell's voxel; a face between two occupied cells is never listed. *)
Theorem visible_face_iff (g : Z) (ops : list Op) (f : FaceRec) :
  let s := run (init g) ops in
  In f (fst (get_visible_faces s)) <->
  PyDict.get (voxels s) (face_pos f) = Some (mkVoxel (face_color f)) /\
  exists d, In (d, face_dir f) directions /\
            PyDict.contains (voxels s) (shift (face_pos f) d) = false.
Proof.
  intros s.
  assert (cache_coherent s) as Hc by (apply run_cache_coherent; exact I).
  assert (NoDup (PyDict.keys (voxels s))) as Hnd.
  { apply run_invariant; [split |]; constructor. }
  destruct (get_visible_faces_coherent s Hc) as [-> _].
  unfold rebuild_faces. rewrite in_flat_map. split.
  - intros ([[[x y] z] voxel] & Hin & Hf).
    apply (In_faces_of_cell s (x, y, z) voxel f) in Hf.
    destruct Hf as (Hp & Hcol & Hd). rewrite Hp. split; [| exact Hd].
    apply (In_dict_get _ _ _ Hnd) in Hin. rewrite Hin, Hcol.
    now destruct voxel.
  - intros (Hget & Hd). apply (In_dict_get _ _ _ Hnd) in Hget.
    exists (face_pos f, mkVoxel (face_color f)). split; [exact Hget |].
    destruct (face_pos f) as [[x y] z] eqn:Ep.
    apply (In_faces_of_cell s (x, y, z) (mkVoxel (face_color f)) f).
    rewrite Ep. split_ands; try reflexivity. exact Hd.
Qed.

(** X9: In a state reached from a new engine, [get_all_voxels] lists exactly
    the occupied cells with the colour of their voxel, each cell once. *)
Theorem all_voxels_iff (g : Z) (ops : list Op) :
  let s := run (init g) ops in
  (forall p c, In (p, c) (get_all_voxels s) <->
               PyDict.get (voxels s) p = Some (mkVoxel c)) /\
  NoDup (map fst (get_all_voxels s)) /\
  length (get_all_voxels s) = length (voxels s).
Proof.
  intros s.
  assert (NoDup (PyDict.keys (voxels s))) as Hnd.
  { apply run_invariant; [split |]; constructor. }
  unfold get_all_voxels. split_ands.
  - intros p c. rewrite <- (In_dict_get _ _ _ Hnd), in_map_iff. split.
    + intros ([p' [c']] & Heq & Hin). cbn in Heq. congruence.
    + intros Hin. exists (p, mkVoxel c). split; [reflexivity | exact Hin].
  - rewrite map_map. cbn [fst]. exact Hnd.
  - apply length_map.
Qed.

End Listings.

(** ** [create_floor] *)

Section Floor.
Import VoxelEngine.

Lemma In_py_range2 (lo hi v : Z) : In v (py_range2 lo hi) <-> lo <= v < hi.
Proof.
  unfold py_range2. rewrite in_map_iff. split.
  - intros (i & <- & Hi). apply in_seq in Hi. lia.
  - intros H. exists (Z.to_nat (v - lo)). split; [lia |].
    apply in_seq. lia.
Qed.

Lemma In_floor_cells (g y : Z) (p : Pos) :
  In p (floor_cells g y) <-> on_level g y p = true.
Proof.
  destruct p as [[px py] pz]. unfold floor_cells, on_level, py_range.
  rewrite in_flat_map, !andb_true_iff, Z.eqb_eq, !Z.leb_le, !Z.ltb_lt. split.
  - intros (x & Hx & Hin). apply in_map_iff in Hin.
    destruct Hin as (z & Heq & Hz). apply In_py_range2 in Hx, Hz.
    injection Heq as <- <- <-. lia.
  - intros [[-> Hx] Hz]. exists px. split; [apply In_py_range2; lia |].
    apply in_map_iff. exists pz. split; [reflexivity |].
    apply In_py_range2. lia.
Qed.

Lemma fold_set_nested (y : Z) (v : Voxel) (zs : list Z) (xs : list Z) :
  forall d : PyDict.t Voxel,
  fold_left
    (fun (d : PyDict.t Voxel) (x : Z) =>
       fold_left (fun (d : PyDict.t Voxel) (z : Z) => PyDict.set d (x, y, z) v)
                 zs d)
    xs d =
  fold_left (fun (d : PyDict.t Voxel) (k : Pos) => PyDict.set d k v)
            (flat_map (fun x : Z => map (fun z : Z => (x, y, z)) zs) xs) d.
Proof.
  induction xs as [|x xs IH]; intros d; cbn [fold_left flat_map].
  - reflexivity.
  - rewrite fold_left_app, IH. f_equal.
    generalize d. clear. induction zs as [|z zs IHz]; intros d; cbn.
    + reflexivity.
    + apply IHz.
Qed.

Lemma create_floor_voxels (s : t) (y : Z) (c : RGB) :
  voxels (create_floor s y c) =
  fold_left (fun (d : PyDict.t Voxel) (k : Pos) => PyDict.set d k (mkVoxel c))
            (floor_cells (grid_size s) y) (voxels s).
Proof. unfold create_floor. cbn [voxels _invalidate_cache with_cache with_voxels].
  apply fold_set_nested. Qed.

Lemma get_fold_set {V : Type} (v : V) (ks : list Pos) :
  forall (d : PyDict.t V) (p : Pos),
  (In p ks ->
   PyDict.get (fold_left (fun d k => PyDict.set d k v) ks d) p = Some v) /\
  (~ In p ks ->
   PyDict.get (fold_left (fun d k => PyDict.set d k v) ks d) p =
   PyDict.get d p).
Proof.
  induction ks as [|k ks IH]; intros d p; cbn [fold_left In].
  - split; [tauto | reflexivity].
  - destruct (IH (PyDict.set d k v) p) as [IH1 IH2]. split.
    + intros [-> | Hin].
      * assert (In p ks \/ ~ In p ks) as [Hin | Hni].
        { clear. induction ks as [|k ks IH]; [right; tauto |].
          destruct (pos_eqb p k) eqn:E.
          - apply pos_eqb_eq in E. left. left. congruence.
          - apply pos_eqb_neq in E. destruct IH; [left; right; assumption |].
            right. intros [C | C]; [congruence | tauto]. }
        -- now apply IH1.
        -- rewrite (IH2 Hni). apply get_set_same.
      * now apply IH1.
    + intros Hni. rewrite IH2 by tauto. apply get_set_other. tauto.
Qed.

Lemma NoDup_keys_fold_set {V : Type} (v : V) (ks : list Pos) :
  forall d : PyDict.t V,
  NoDup (PyDict.keys d) ->
  NoDup (PyDict.keys (fold_left (fun d k => PyDict.set d k v) ks d)).
Proof.
  induction ks as [|k ks IH]; intros d H; cbn [fold_left]; [exact H |].
  now apply IH, NoDup_keys_set.
Qed.

(** Lookup after [create_floor]: the level [y] holds the given colour, every
    other cell is as before. *)
Lemma create_floor_get (s : t) (y : Z) (c : RGB) (p : Pos) :
  PyDict.get (voxels (create_floor s y c)) p =
  if on_level (grid_size s) y p then Some (mkVoxel c)
  else PyDict.get (voxels s) p.
Proof.
  rewrite create_floor_voxels.
  destruct (get_fold_set (mkVoxel c) (floor_cells (grid_size s) y)
              (voxels s) p) as [H1 H2].
  destruct (on_level (grid_size s) y p) eqn:E.
  - apply H1, In_floor_cells, E.
  - apply H2. rewrite In_floor_cells, E. discriminate.
Qed.

(** X10: [create_floor] leaves a voxel of the given colour in every cell of the
    level [y] (whatever was there), no other cell changed, the cache empty,
    and the undo log as it was: the floor cannot be undone. *)
Theorem create_floor_cells (s : t) (y : Z) (c : RGB) :
  (forall p : Pos,
     PyDict.get (voxels (create_floor s y c)) p =
     if on_level (grid_size s) y p then Some (mkVoxel c)
     else PyDict.get (voxels s) p) /\
  undo_stack (create_floor s y c) = undo_stack s /\
  _visible_faces_cache (create_floor s y c) = None /\
  grid_size (create_floor s y c) = grid_size s /\
  current_color_index (create_floor s y c) = current_color_index s.
Proof.
  split_ands; try reflexivity.
  intros p. apply create_floor_get.
Qed.

(** X11: [create_floor] checks no bounds: on an engine reached from a new one,
    with a grid of size at least 1, the keys stay within bounds exactly when
    the level [y] is within [0, grid_size). *)
Theorem create_floor_keeps_bounds_iff (g : Z) (ops : list Op) (y : Z)
    (c : RGB) :
  1 <= g ->
  let s := run (init g) ops in
  store_invariant (create_floor s y c) <-> 0 <= y < g.
Proof.
  intros Hg s.
  assert (store_invariant s) as [Hk Hnd].
  { apply run_invariant; [split |]; constructor. }
  assert (grid_size s = g) as Hgs by apply run_grid_size.
  pose proof (create_floor_get s y c) as Hget.
  assert (grid_size (create_floor s y c) = grid_size s) as Hgc
    by reflexivity.
  split.
  - intros [Hk' _].
    assert (In (0, y, 0) (PyDict.keys (voxels (create_floor s y c)))) as Hin.
    { apply (get_Some_in _ _ (mkVoxel c)). rewrite Hget, Hgs. cbn.
      rewrite Z.eqb_refl. cbn.
      destruct (Z.ltb_spec 0 g); [reflexivity | lia]. }
    rewrite Forall_forall in Hk'. specialize (Hk' _ Hin).
    cbn in Hk'. apply is_valid_position_iff in Hk'. rewrite Hgc, Hgs in Hk'.
    lia.
  - intros Hy. split.
    + apply Forall_forall. intros [[px py] pz] Hin.
      assert (PyDict.get (voxels (create_floor s y c)) (px, py, pz) <> None)
        as Hne by (rewrite get_None_iff; tauto).
      rewrite Hget in Hne.
      destruct (on_level (grid_size s) y (px, py, pz)) eqn:E.
      * cbn in E. rewrite !andb_true_iff, Z.eqb_eq, !Z.leb_le, !Z.ltb_lt in E.
        cbn. apply is_valid_position_iff. rewrite Hgc. lia.
      * rewrite Forall_forall in Hk.
        assert (In (px, py, pz) (PyDict.keys (voxels s))) as Hin'.
        { destruct (PyDict.get (voxels s) (px, py, pz)) eqn:Eg; [| tauto].
          apply get_Some_in in Eg. exact Eg. }
        exact (Hk _ Hin').
    + rewrite create_floor_voxels. apply NoDup_keys_fold_set, Hnd.
Qed.

Lemma create_floor_keeps_bounds_iff_witness :
  store_invariant
    (create_floor (run (init 4) [OpPlace 1 1 1 None]) 0 (100, 100, 100))
  <-> 0 <= 0 < 4.
Proof.
  apply (create_floor_keeps_bounds_iff 4 [OpPlace 1 1 1 None] 0
           (100, 100, 100)).
  lia.
Defined.

Lemma NoDup_flat_map {A B : Type} (f : A -> list B) (l : list A) :
  NoDup l ->
  (forall x, In x l -> NoDup (f x)) ->
  (forall x x' b, In x l -> In x' l -> In b (f x) -> In b (f x') -> x = x') ->
  NoDup (flat_map f l).
Proof.
  induction l as [|a l IH]; intros Hnd Hf Hdis; cbn; [constructor |].
  inversion Hnd as [|? ? Hni Hl]; subst.
  apply NoDup_app.
  - apply Hf. now left.
  - apply IH; [exact Hl | |].
    + intros x Hx. apply Hf. now right.
    + intros x x' b Hx Hx'. apply Hdis; now right.
  - intros b Hb Hb'. apply in_flat_map in Hb'. destruct Hb' as (x & Hx & Hbx).
    apply Hni. rewrite (Hdis a x b); auto; [now left | now right].
Qed.

Lemma NoDup_box_cells (o : Pos) (a b c : nat) : NoDup (box_cells o a b c).
Proof.
  destruct o as [[ox oy] oz]. unfold box_cells.
  apply NoDup_flat_map; [apply seq_NoDup | |].
  - intros i _. apply NoDup_flat_map; [apply seq_NoDup | |].
    + intros j _. apply NoDup_map_NoDup_ForallPairs; [| apply seq_NoDup].
      intros l l' _ _ H. injection H; intros; lia.
    + intros j j' p _ _ Hp Hp'.
      apply in_map_iff in Hp, Hp'.
      destruct Hp as (l & <- & _), Hp' as (l' & H & _).
      injection H; intros; lia.
  - intros i i' p _ _ Hp Hp'.
    apply in_flat_map in Hp, Hp'.
    destruct Hp as (j & _ & Hp), Hp' as (j' & _ & Hp').
    apply in_map_iff in Hp, Hp'.
    destruct Hp as (l & <- & _), Hp' as (l' & H & _).
    injection H; intros; lia.
Qed.

Lemma on_level_in_box (g y : Z) (p : Pos) :
  on_level g y p = in_box (0, y, 0) (Z.to_nat g) 1 (Z.to_nat g) p.
Proof.
  destruct p as [[px py] pz]. unfold on_level, in_box, in_range.
  apply eq_true_iff_eq.
  rewrite !andb_true_iff, Z.eqb_eq, !Z.leb_le, !Z.ltb_lt. lia.
Qed.

(** X12: On a new engine of size [g >= 1], [create_floor] gives [g * g] voxels
    and [get_visible_faces] then returns [2 * g * g + 4 * g] faces: the two
    sides of the floor and its rim. *)
Theorem floor_face_count (g y : Z) (c : RGB) :
  1 <= g ->
  let s := create_floor (init g) y c in
  Z.of_nat (length (voxels s)) = g * g /\
  Z.of_nat (length (fst (get_visible_faces s))) = 2 * g * g + 4 * g.
Proof.
  intros Hg s.
  assert (Permutation (PyDict.keys (voxels s))
            (box_cells (0, y, 0) (Z.to_nat g) 1 (Z.to_nat g))) as Hperm.
  { apply NoDup_Permutation.
    - subst s. rewrite create_floor_voxels.
      apply NoDup_keys_fold_set. constructor.
    - apply NoDup_box_cells.
    - intros p. rewrite <- in_box_iff, <- on_level_in_box.
      pose proof (create_floor_get (init g) y c) as Hget.
      fold s in Hget. cbn [grid_size init] in Hget. specialize (Hget p).
      destruct (on_level g y p).
      + split; [reflexivity | intros _].
        eapply get_Some_in, Hget.
      + split; [| discriminate]. intros Hin. exfalso.
        apply (get_None_iff (voxels s) p); [| exact Hin].
        rewrite Hget. reflexivity. }
  split.
  - rewrite <- (length_map fst). fold (PyDict.keys (voxels s)).
    rewrite (Permutation_length Hperm).
    assert (forall (o : Pos) (a b c' : nat),
              length (box_cells o a b c') = (a * b * c')%nat) as Hlen.
    { intros [[ox oy] oz] a b c'. unfold box_cells.
      rewrite (flat_map_constant_length (c := (b * c')%nat)).
      - rewrite length_seq. lia.
      - intros i _. rewrite (flat_map_constant_length (c := c')).
        + now rewrite length_seq.
        + intros j _. now rewrite length_map, length_seq. }
    rewrite Hlen. nia.
  - unfold get_visible_faces. subst s. cbn [_visible_faces_cache create_floor
      _invalidate_cache with_cache fst].
    rewrite (box_face_count _ (0, y, 0) (Z.to_nat g) 1 (Z.to_nat g));
      [| lia | lia | lia | exact Hperm].
    nia.
Qed.

Lemma floor_face_count_witness :
  let s := create_floor (init 16) 0 (100, 100, 100) in
  Z.of_nat (length (voxels s)) = 16 * 16 /\
  Z.of_nat (length (fst (get_visible_faces s))) = 2 * 16 * 16 + 4 * 16.
Proof.
  cbv zeta. apply (floor_face_count 16 0 (100, 100, 100)). lia.
Defined.

End Floor.

(** ** [world_to_grid] *)

Section WorldToGrid.
Import VoxelEngine.





End WorldToGrid.

(** ** Order of floats *)

Section FloatOrder.
#[local] Open Scope float_scope.

Lemma ltb_leb (x y : float) : (x <? y) = true -> (x <=? y) = true.
Proof.
  rewrite ltb_spec, leb_spec. unfold SFltb, SFleb.
  destruct (SFcompare (Prim2SF x) (Prim2SF y)) as [[| |]|]; congruence.
Qed.

(** A float equal to zero is below 0.01. *)
Lemma eqb_zero_below (x : float) : (x =? 0) = true -> (x <? 0.01) = true.
Proof.
  rewrite eqb_spec, ltb_spec.
  replace (Prim2SF 0) with (S754_zero false) by (vm_compute; reflexivity).
  replace (Prim2SF 0.01) with (S754_finite false 5764607523034235 (-59))
    by (vm_compute; reflexivity).
  unfold SFeqb, SFltb. intros H.
  destruct (Prim2SF x) as [s | s | | s m e].
  - reflexivity.
  - destruct s; cbv in H; discriminate.
  - cbv in H. discriminate.
  - destruct s; cbv in H; discriminate.
Qed.

(** [max(a, 0.01)] is never zero. *)
Lemma py_max_floor_nonzero (a : float) : (py_max a 0.01 =? 0) = false.
Proof.
  unfold py_max. destruct (a <? 0.01) eqn:E; [vm_compute; reflexivity |].
  destruct (a =? 0) eqn:E0; [| reflexivity].
  apply eqb_zero_below in E0. congruence.
Qed.

(** [max(0, min(1, v))] lies between 0 and 1, also when [v] is a NaN. *)
Lemma clamp01_bounds (v : float) :
  (0 <=? py_max 0 (py_min 1 v)) = true /\
  (py_max 0 (py_min 1 v) <=? 1) = true.
Proof.
  unfold py_max, py_min. destruct (v <? 1) eqn:E1.
  - destruct (0 <? v) eqn:E0.
    + split; apply ltb_leb; assumption.
    + split; vm_compute; reflexivity.
  - split; vm_compute; reflexivity.
Qed.

End FloatOrder.

(** ** The scores and the frame they come from *)

Section Scoring.
Import GestureDetector.
#[local] Open Scope float_scope.

(** X14: Whatever the frame, the scale and the squaring of the platform, the
    pinch score lies in [0, 1], the palm, grab and peace scores are 0 or 1,
    and at most one of these three exceeds the 0.8 threshold of the state
    machine: the order of its tests never decides the label. *)
Theorem scores_ranges (pow2 : float -> option float) (lm : Frame)
    (scale : float) (sc : Scores) :
  _get_gesture_scores pow2 lm scale = Some sc ->
  ((0 <=? pinch sc) = true /\ (pinch sc <=? 1) = true) /\
  (palm sc = 0 \/ palm sc = 1) /\
  (grab sc = 0 \/ grab sc = 1) /\
  (peace sc = 0 \/ peace sc = 1) /\
  (0.8 <? palm sc) && (0.8 <? grab sc) = false /\
  (0.8 <? palm sc) && (0.8 <? peace sc) = false /\
  (0.8 <? grab sc) && (0.8 <? peace sc) = false.
Proof.
  unfold _get_gesture_scores.
  destruct (nth_error lm THUMB_TIP) as [tt|]; [| discriminate].
  destruct (nth_error lm INDEX_TIP) as [it|]; [| discriminate].
  cbn [bind].
  destruct (_dist pow2 tt it) as [pinch_dist|]; [| discriminate].
  cbn [bind].
  destruct (_is_finger_extended lm index) as [e0|]; [| discriminate].
  destruct (_is_finger_extended lm middle) as [e1|]; [| discriminate].
  destruct (_is_finger_extended lm ring) as [e2|]; [| discriminate].
  destruct (_is_finger_extended lm pinky) as [e3|]; [| discriminate].
  cbn [bind].
  destruct (_is_thumb_extended lm) as [th|]; [| discriminate].
  cbn [bind]. intros H. injection H as <-. cbn [pinch palm grab peace].
  split; [apply clamp01_bounds |].
  destruct e0, e1, e2, e3, th; cbn; split_ands; auto.
Qed.

Lemma scores_ranges_witness :
  exists sc : Scores,
    _get_gesture_scores pow2_nearest (create_mock_hand 0.015) 0.2 = Some sc /\
    ((0 <=? pinch sc) = true /\ (pinch sc <=? 1) = true) /\
    (palm sc = 0 \/ palm sc = 1) /\
    (grab sc = 0 \/ grab sc = 1) /\
    (peace sc = 0 \/ peace sc = 1) /\
    (0.8 <? palm sc) && (0.8 <? grab sc) = false /\
    (0.8 <? palm sc) && (0.8 <? peace sc) = false /\
    (0.8 <? grab sc) && (0.8 <? peace sc) = false.
Proof.
  eexists. split; [vm_compute; reflexivity |].
  apply (scores_ranges pow2_nearest (create_mock_hand 0.015) 0.2).
  vm_compute. reflexivity.
Defined.

Lemma frame_point (lm : Frame) (i : nat) :
  length lm = 21%nat -> (i < 21)%nat ->
  exists p, nth_error lm i = Some p.
Proof.
  intros Hlen Hi. destruct (nth_error lm i) as [p|] eqn:E; [now exists p|].
  apply nth_error_None in E. lia.
Qed.

Lemma finger_extended_defined (lm : Frame) (f : Finger) :
  length lm = 21%nat -> exists b, _is_finger_extended lm f = Some b.
Proof.
  intros Hlen. unfold _is_finger_extended.
  destruct f; cbn [finger_tips];
    repeat match goal with
           | |- context [nth_error lm ?i] =>
               let p := fresh "p" in
               let E := fresh "E" in
               destruct (frame_point lm i Hlen) as [p E];
               [ cbv; lia | rewrite E; cbn [bind] ]
           end; eexists; reflexivity.
Qed.

(** X15: On a frame of 21 points [detect] raises no [IndexError] and never
    takes the early exit on a zero scale (the scale is at least the floor
    0.01 or a NaN, never zero).  It measures three distances: wrist to index
    MCP, wrist to middle MCP, thumb tip to index tip.  When none of their
    squares raises [OverflowError], [detect] runs the state machine on the
    scores of the frame; when one does, [detect] raises. *)
Theorem detect_on_full_frame (pow2 : float -> option float) (d : t)
    (lm : Frame) :
  length lm = 21%nat ->
  exists w im mm tt it : Landmark.t,
    nth_error lm WRIST = Some w /\
    nth_error lm INDEX_MCP = Some im /\
    nth_error lm MIDDLE_MCP = Some mm /\
    nth_error lm THUMB_TIP = Some tt /\
    nth_error lm INDEX_TIP = Some it /\
    match _dist pow2 w im, _dist pow2 w mm, _dist pow2 tt it with
    | Some _, Some _, Some _ =>
        exists (scale : float) (sc : Scores),
          _get_hand_scale pow2 lm = Some scale /\
          (scale =? 0) = false /\
          _get_gesture_scores pow2 lm scale = Some sc /\
          detect pow2 d (Some lm) = Some (detect_scored d sc)
    | _, _, _ => detect pow2 d (Some lm) = None
    end.
Proof.
  intros Hlen.
  destruct (frame_point lm WRIST Hlen) as [w Ew]; [cbv; lia |].
  destruct (frame_point lm INDEX_MCP Hlen) as [im Eim]; [cbv; lia |].
  destruct (frame_point lm MIDDLE_MCP Hlen) as [mm Emm]; [cbv; lia |].
  destruct (frame_point lm THUMB_TIP Hlen) as [tt Ett]; [cbv; lia |].
  destruct (frame_point lm INDEX_TIP Hlen) as [it Eit]; [cbv; lia |].
  destruct (frame_point lm THUMB_MCP Hlen) as [tm Etm]; [cbv; lia |].
  destruct (finger_extended_defined lm index Hlen) as [e0 E0].
  destruct (finger_extended_defined lm middle Hlen) as [e1 E1].
  destruct (finger_extended_defined lm ring Hlen) as [e2 E2].
  destruct (finger_extended_defined lm pinky Hlen) as [e3 E3].
  assert (exists th, _is_thumb_extended lm = Some th) as [th Eth].
  { unfold _is_thumb_extended. rewrite Ett, Etm, Eim. cbn [bind].
    eexists. reflexivity. }
  exists w, im, mm, tt, it. split_ands; try assumption.
  cbn [detect]. unfold _get_hand_scale. rewrite Ew, Eim, Emm. cbn [bind].
  destruct (_dist pow2 w im) as [d1|]; cbn [bind]; [| reflexivity].
  destruct (_dist pow2 w mm) as [d2|]; cbn [bind];
    [| destruct (_dist pow2 tt it); reflexivity].
  set (scale := py_max (py_max d1 d2) 0.01).
  assert ((scale =? 0) = false) as Hz by apply py_max_floor_nonzero.
  rewrite Hz. unfold _get_gesture_scores. rewrite Ett, Eit. cbn [bind].
  destruct (_dist pow2 tt it) as [d3|]; cbn [bind]; [| reflexivity].
  rewrite E0, E1, E2, E3, Eth. cbn [bind].
  eexists scale, _. split_ands; try reflexivity. exact Hz.
Qed.

Lemma detect_on_full_frame_witness :
  let lm := create_mock_hand 0.015 in
  exists w im mm tt it : Landmark.t,
    nth_error lm WRIST = Some w /\
    nth_error lm INDEX_MCP = Some im /\
    nth_error lm MIDDLE_MCP = Some mm /\
    nth_error lm THUMB_TIP = Some tt /\
    nth_error lm INDEX_TIP = Some it /\
    match _dist pow2_nearest w im, _dist pow2_nearest w mm,
          _dist pow2_nearest tt it with
    | Some _, Some _, Some _ =>
        exists (scale : float) (sc : Scores),
          _get_hand_scale pow2_nearest lm = Some scale /\
          (scale =? 0) = false /\
          _get_gesture_scores pow2_nearest lm scale = Some sc /\
          detect pow2_nearest init (Some lm) = Some (detect_scored init sc)
    | _, _, _ => detect pow2_nearest init (Some lm) = None
    end.
Proof.
  cbv zeta.
  apply (detect_on_full_frame pow2_nearest init (create_mock_hand 0.015)).
  reflexivity.
Defined.

(** Both outcomes with correctly rounded squares: the frame of the tests is
    scored and handed to the state machine; on a frame whose wrist lies
    [1e200] away from the index MCP the first square overflows and [detect]
    raises. *)
Example detect_scores_or_raises :
  detect_trace pow2_nearest init
    [Some (create_mock_hand 0.015); Some (frame_with_wrist 1e200)] =
  [Some (NONE, PRE_PINCH); None].
Proof. vm_compute. reflexivity. Qed.

End Scoring.

(** ** The order of the states and the PINCH output *)

Section StateOrder.
Import GestureDetector.
#[local] Open Scope float_scope.

(** PINCHED is entered from PRE_PINCH only. *)
Lemma transition_into_pinched (st : State) (sc : Scores) :
  fst (transition st sc) = PINCHED -> st = PRE_PINCH \/ st = PINCHED.
Proof.
  unfold transition.
  destruct st; cbn [state_eqb];
    repeat match goal with
           | |- context [if ?b then _ else _] => destruct b
           end; cbn [fst]; intros; try discriminate; auto.
Qed.

(** X16: One hand tick moves the machine along the cycle IDLE, HAND_PRESENT,
    PRE_PINCH, PINCHED, RELEASE, HAND_PRESENT and never skips a state:
    IDLE is never the result, PRE_PINCH is entered from the neutral states
    only, PINCHED from PRE_PINCH only, RELEASE from PINCHED only. *)
Theorem transition_follows_cycle (st : State) (sc : Scores) :
  let st' := fst (transition st sc) in
  st' <> IDLE /\
  (st' = PRE_PINCH -> st = IDLE \/ st = HAND_PRESENT \/ st = PRE_PINCH) /\
  (st' = PINCHED -> st = PRE_PINCH \/ st = PINCHED) /\
  (st' = RELEASE -> st = PINCHED \/ st = RELEASE) /\
  (st' = HAND_PRESENT -> st <> PINCHED).
Proof.
  cbv zeta. unfold transition.
  destruct st; cbn [state_eqb];
    repeat match goal with
           | |- context [if ?b then _ else _] => destruct b
           end; cbn [fst]; split_ands; intros; try discriminate; auto.
Qed.

(** X17: The gesture returned for a frame is PINCH exactly when the machine was
    already in PINCHED before the frame and the pinch score of the frame is
    not below 0.5; the machine is then still in PINCHED. *)
Theorem pinch_returned_iff (d : t) (sc : Scores) :
  (fst (detect_scored d sc) = PINCH <->
   state d = PINCHED /\ (pinch sc <? 0.5) = false) /\
  (fst (detect_scored d sc) = PINCH ->
   state (snd (detect_scored d sc)) = PINCHED).
Proof.
  destruct (detect_scored_parts d sc) as (_ & _ & Hout).
  pose proof (transition_pinch (state d) sc) as Hp.
  pose proof (transition_pinch_state (state d) sc) as Hps.
  rewrite detect_scored_state. rewrite Hout.
  destruct (gesture_eqb (snd (transition (state d) sc)) PINCH) eqn:E.
  - apply gesture_eqb_eq in E. split; [| auto].
    split; [intros _; now apply Hp | reflexivity].
  - assert (snd (transition (state d) sc) <> PINCH) as Hne.
    { intros C. rewrite C in E. discriminate. }
    assert ((if (min_hold_frames <=?
                   (if gesture_eqb (snd (transition (state d) sc))
                         (last_gesture d)
                    then gesture_hold_frames d + 1 else 1))%Z
             then snd (transition (state d) sc) else NONE) <> PINCH) as Hn2.
    { destruct (_ <=? _)%Z; [exact Hne | discriminate]. }
    split; [| tauto]. split; [tauto |]. intros H. apply Hp in H. tauto.
Qed.

Lemma release_tick (d : t) (sc : Scores) :
  state d = RELEASE -> (pinch sc <? 0.3) = false ->
  state (snd (detect_scored d sc)) = RELEASE /\
  (fst (detect_scored d sc) = NONE \/ fst (detect_scored d sc) = POINT).
Proof.
  intros Hst Hp.
  assert (transition (state d) sc = (RELEASE, POINT)) as Ht.
  { rewrite Hst. unfold transition. cbn [state_eqb]. rewrite Hp.
    destruct (0.8 <? pinch sc); reflexivity. }
  rewrite detect_scored_state, Ht. split; [reflexivity |].
  destruct (detect_scored_parts d sc) as (_ & _ & ->). rewrite Ht.
  cbn [snd gesture_eqb]. destruct (_ <=? _)%Z; auto.
Qed.

(** X18: Hysteresis of RELEASE: as long as the pinch score has not dropped below
    0.3, however high it rises again, the machine stays in RELEASE and
    every frame returns NONE or POINT, never PINCH. *)
Theorem release_ignores_repinch (scs : list Scores) : forall d : t,
  state d = RELEASE ->
  Forall (fun sc => (pinch sc <? 0.3) = false) scs ->
  state (run d (map Hand scs)) = RELEASE /\
  Forall (fun g => g = NONE \/ g = POINT) (outputs d (map Hand scs)).
Proof.
  induction scs as [|sc scs IH]; intros d Hst Hall.
  - split; [exact Hst | constructor].
  - inversion Hall as [|? ? Hsc Hrest]; subst.
    destruct (release_tick d sc Hst Hsc) as [Hst' Hout].
    destruct (IH (snd (detect_scored d sc)) Hst' Hrest) as [IH1 IH2].
    cbn [map run fold_left outputs tick]. split.
    + exact IH1.
    + constructor; assumption.
Qed.

Lemma release_ignores_repinch_witness :
  let q := fun p : float => mkScores p 0 0 0 in
  let d := run init [Hand (q 0.2); Hand (q 0.5); Hand (q 0.75); Hand (q 0.1)] in
  let scs := [q 0.95; q 0.99; q 0.4; q 1] in
  state (run d (map Hand scs)) = RELEASE /\
  Forall (fun g => g = NONE \/ g = POINT) (outputs d (map Hand scs)).
Proof.
  cbv zeta. apply release_ignores_repinch.
  - vm_compute. reflexivity.
  - repeat constructor.
Defined.

(** X19: After a tick without a hand (or on a new detector) the next two frames
    return NONE whatever they show; no gesture is reported before the third
    frame. *)
Theorem two_frames_without_gesture (d : t) (sc1 sc2 : Scores) :
  state d = IDLE -> last_gesture d = NONE -> gesture_hold_frames d = 0%Z ->
  let d1 := snd (detect_scored d sc1) in
  fst (detect_scored d sc1) = NONE /\
  fst (detect_scored d1 sc2) = NONE.
Proof.
  intros Hst Hlast Hhold d1.
  destruct (detect_scored_parts d sc1) as (Hl1 & Hh1 & Ho1).
  assert (snd (transition (state d) sc1) <> PINCH) as Hr1.
  { intros C. apply transition_pinch in C. rewrite Hst in C.
    destruct C; discriminate. }
  assert (gesture_hold_frames d1 = 1%Z) as Hh1'.
  { subst d1. rewrite Hh1, Hhold. destruct (gesture_eqb _ _); reflexivity. }
  assert (fst (detect_scored d sc1) = NONE) as Hout1.
  { rewrite Ho1, Hhold.
    destruct (gesture_eqb (snd (transition (state d) sc1)) PINCH) eqn:E;
      [apply gesture_eqb_eq in E; contradiction |].
    destruct (gesture_eqb _ (last_gesture d)); reflexivity. }
  split; [exact Hout1 |].
  destruct (detect_scored_parts d1 sc2) as (_ & _ & Ho2).
  assert (state d1 <> PINCHED) as Hst1.
  { subst d1. rewrite detect_scored_state. intros C.
    apply (transition_into_pinched (state d) sc1) in C.
    rewrite Hst in C. destruct C; discriminate. }
  assert (snd (transition (state d1) sc2) <> PINCH) as Hr2.
  { intros C. apply transition_pinch in C. tauto. }
  rewrite Ho2, Hh1'.
  destruct (gesture_eqb (snd (transition (state d1) sc2)) PINCH) eqn:E;
    [apply gesture_eqb_eq in E; contradiction |].
  destruct (gesture_eqb _ (last_gesture d1)); reflexivity.
Qed.

Lemma two_frames_without_gesture_witness :
  let d := snd (tick (run init [Hand (mkScores 0.9 0 0 0)]) NoHand) in
  let sc := mkScores 0 1 0 0 in
  fst (detect_scored d sc) = NONE /\
  fst (detect_scored (snd (detect_scored d sc)) sc) = NONE.
Proof.
  cbv zeta. apply two_frames_without_gesture; reflexivity.
Defined.

End StateOrder.

(** ** The smoother *)

Section Smoother.
Import LandmarkSmoother.

Lemma smooth_from_shape (s : t) (prev : Frame) (cur : Frame) : forall i : nat,
  ((i + length cur <= length prev)%nat ->
   exists out,
     smooth_from s i cur prev = Some out /\
     length out = length cur /\
     forall j c p,
       nth_error cur j = Some c -> nth_error prev (i + j) = Some p ->
       nth_error out j = Some (new_point s c p)) /\
  ((length prev < i + length cur)%nat -> cur <> [] ->
   smooth_from s i cur prev = None).
Proof.
  induction cur as [|c cur IH]; intros i; cbn [smooth_from length].
  - split; [| intros _ H; now contradiction H].
    intros _. exists []. split_ands; try reflexivity.
    intros [|j] c p H; discriminate.
  - destruct (IH (S i)) as [IH1 IH2]. split.
    + intros Hlen.
      destruct (nth_error prev i) as [p|] eqn:Ep;
        [| apply nth_error_None in Ep; lia].
      destruct IH1 as (out & -> & Hl & Hnth); [lia |].
      cbn [bind]. eexists. split_ands; [reflexivity | cbn; lia |].
      intros [|j] c' p' Hc Hp; cbn [nth_error] in Hc |- *.
      * rewrite Nat.add_0_r in Hp. congruence.
      * apply (Hnth j c' p' Hc).
        now replace (S i + j)%nat with (i + S j)%nat by lia.
    + intros Hlen _.
      destruct (nth_error prev i) as [p|] eqn:Ep; [| reflexivity].
      cbn [bind].
      assert (i < length prev)%nat as Hi
        by (apply nth_error_Some; congruence).
      rewrite IH2; [reflexivity | lia |].
      destruct cur; [cbn in Hlen; lia | discriminate].
Qed.

(** X20: [update] on an empty history stores and returns the frame as it is.
    On a stored frame at least as long as the new one it returns a frame of
    the length of the new one, each point computed from the two points at
    its index, and stores exactly what it returns; on a shorter stored
    frame it raises. *)
Theorem smoother_update_shape (s : t) (cur : Frame) :
  (prev_landmarks s = None ->
   update s cur = Some (cur, mk (alpha s) (jump_threshold s) (Some cur))) /\
  (forall prev, prev_landmarks s = Some prev ->
     ((length cur <= length prev)%nat ->
      exists out,
        update s cur =
          Some (out, mk (alpha s) (jump_threshold s) (Some out)) /\
        length out = length cur /\
        forall j c p,
          nth_error cur j = Some c -> nth_error prev j = Some p ->
          nth_error out j = Some (new_point s c p)) /\
     ((length prev < length cur)%nat -> update s cur = None)).
Proof.
  unfold update. split.
  - intros ->. reflexivity.
  - intros prev ->. destruct (smooth_from_shape s prev cur 0) as [H1 H2].
    split.
    + intros Hlen. destruct (H1 Hlen) as (out & -> & Hl & Hnth).
      exists out. split_ands; [reflexivity | exact Hl | exact Hnth].
    + intros Hlen. rewrite H2; [reflexivity | lia |].
      destruct cur; [cbn in Hlen; lia | discriminate].
Qed.

End Smoother.

(** ** [process] *)

Section Process.
Import Tracking.

Lemma velocity_sane_state (s : HandTracker.t) (lm : Frame) (ts : Z)
    (ok : bool) (s' : HandTracker.t) :
  HandTracker._is_velocity_sane s lm ts = Some (ok, s') ->
  s' = s \/ (ok = true /\ s' = HandTracker.mk (Some lm) ts).
Proof.
  unfold HandTracker._is_velocity_sane.
  destruct (HandTracker.last_sane_landmarks s) as [last|].
  - destruct (py_float _) as [ms|]; [| discriminate]. cbn [bind].
    destruct (_ <=? _)%float; [intros H; left; congruence |].
    destruct (nth_error lm 0); [| discriminate].
    destruct (nth_error last 0); [| discriminate]. cbn [bind].
    destruct (_ <? _)%float; intros H; injection H as <- <-; auto.
  - intros H. injection H as <- <-. auto.
Qed.

Lemma smoother_update_history (s : LandmarkSmoother.t) (cur out : Frame)
    (s' : LandmarkSmoother.t) :
  LandmarkSmoother.update s cur = Some (out, s') ->
  LandmarkSmoother.prev_landmarks s' = Some out.
Proof.
  unfold LandmarkSmoother.update.
  destruct (LandmarkSmoother.prev_landmarks s) as [prev|].
  - destruct (LandmarkSmoother.smooth_from s 0 cur prev); [| discriminate].
    cbn [bind]. intros H. injection H as <- <-. reflexivity.
  - intros H. injection H as <- <-. reflexivity.
Qed.

Lemma process_step (s : t) (c : Capture) (out : Result) (s' : t) :
  process s c = Some (out, s') ->
  HandTracker.last_sane_timestamp (sanity s) <= frame_timestamp_ms s ->
  frame_timestamp_ms s' = frame_timestamp_ms s + 33 * frames_read [out] /\
  HandTracker.last_sane_timestamp (sanity s') <= frame_timestamp_ms s' /\
  LandmarkSmoother.prev_landmarks (smoother s') =
    last_landmarks (LandmarkSmoother.prev_landmarks (smoother s)) [out].
Proof.
  intros H Hinv. destruct c as [|hands]; cbn [process] in H.
  - injection H as <- <-. cbn. split_ands; try reflexivity; lia.
  - destruct hands as [|raw hands'].
    + injection H as <- <-. cbn. split_ands; try reflexivity; lia.
    + destruct (HandTracker._is_velocity_sane (sanity s) raw
                  (frame_timestamp_ms s + 33)) as [[ok sanity']|] eqn:Ev;
        [| discriminate].
      cbn [bind] in H. apply velocity_sane_state in Ev.
      assert (HandTracker.last_sane_timestamp sanity'
              <= frame_timestamp_ms s + 33) as Hts.
      { destruct Ev as [-> | [_ ->]]; cbn; lia. }
      destruct ok.
      * destruct (LandmarkSmoother.update (smoother s) raw)
          as [[lm smoother']|] eqn:Eu; [| discriminate].
        cbn [bind] in H. injection H as <- <-.
        apply smoother_update_history in Eu.
        cbn. split_ands; [lia | exact Hts | exact Eu].
      * injection H as <- <-. cbn. split_ands; [lia | exact Hts | reflexivity].
Qed.

Lemma frames_read_cons (out : Result) (outs : list Result) :
  frames_read (out :: outs) = frames_read [out] + frames_read outs.
Proof.
  unfold frames_read. cbn [filter]. destruct out; cbn [length]; lia.
Qed.

Lemma run_steps (cs : list Capture) : forall (s : t) (outs : list Result)
    (s' : t),
  run s cs = Some (outs, s') ->
  HandTracker.last_sane_timestamp (sanity s) <= frame_timestamp_ms s ->
  frame_timestamp_ms s' = frame_timestamp_ms s + 33 * frames_read outs /\
  HandTracker.last_sane_timestamp (sanity s') <= frame_timestamp_ms s' /\
  LandmarkSmoother.prev_landmarks (smoother s') =
    last_landmarks (LandmarkSmoother.prev_landmarks (smoother s)) outs /\
  length outs = length cs.
Proof.
  induction cs as [|c cs IH]; intros s outs s' H Hinv; cbn [run] in H.
  - injection H as <- <-. cbn. split_ands; try reflexivity; lia.
  - destruct (process s c) as [[out s1]|] eqn:Ep; [| discriminate].
    cbn [bind] in H.
    destruct (run s1 cs) as [[outs1 s2]|] eqn:Er; [| discriminate].
    cbn [bind] in H. injection H as <- <-.
    destruct (process_step s c out s1 Ep Hinv) as (Ht & Hi & Hh).
    destruct (IH s1 outs1 s2 Er Hi) as (Ht' & Hi' & Hh' & Hl).
    rewrite frames_read_cons. split_ands.
    + lia.
    + exact Hi'.
    + rewrite Hh', Hh. destruct out; reflexivity.
    + cbn [length]. now rewrite Hl.
Qed.

(** X21: Over any run of [process] that raises nothing, the timestamp advances
    by 33 for every frame read and the timestamp of the last accepted
    frame never exceeds it: each call of the sanity check is made with a
    timestamp at least 33 ms after the stored one. *)
Theorem process_timestamps (cs : list Capture) (outs : list Result) (s : t) :
  run init cs = Some (outs, s) ->
  length outs = length cs /\
  frame_timestamp_ms s = 33 * frames_read outs /\
  HandTracker.last_sane_timestamp (sanity s) <= frame_timestamp_ms s.
Proof.
  intros H. apply run_steps in H; [| cbn; lia].
  destruct H as (Ht & Hi & _ & Hl). cbn in Ht. split_ands; auto.
Qed.

(** X22: Over any run of [process] that raises nothing, the history of the
    smoother is the last frame of landmarks returned to the caller: a lost
    hand, a rejected frame or a failed read neither reset nor change it. *)
Theorem process_keeps_smoother_history
    (cs : list Capture) (outs : list Result) (s : t) :
  run init cs = Some (outs, s) ->
  LandmarkSmoother.prev_landmarks (smoother s) = last_landmarks None outs.
Proof.
  intros H. apply run_steps in H; [| cbn; lia].
  destruct H as (_ & _ & Hh & _). exact Hh.
Qed.

(** A run with an accepted frame, a failed read, a frame without a hand, a
    rejected jump and a second accepted frame. *)
Lemma process_timestamps_witness :
  let cs := [ Captured [frame_with_wrist 0]; ReadFailed; Captured [];
              Captured [frame_with_wrist 0.5];
              Captured [frame_with_wrist 0.05] ] in
  exists outs s,
    run init cs = Some (outs, s) /\
    length outs = length cs /\
    frame_timestamp_ms s = 33 * frames_read outs /\
    HandTracker.last_sane_timestamp (sanity s) <= frame_timestamp_ms s.
Proof.
  cbv zeta. eexists. eexists. split; [vm_compute; reflexivity |].
  apply process_timestamps. vm_compute. reflexivity.
Defined.

Lemma process_keeps_smoother_history_witness :
  let cs := [ Captured [frame_with_wrist 0]; ReadFailed; Captured [];
              Captured [frame_with_wrist 0.5] ] in
  exists outs s,
    run init cs = Some (outs, s) /\
    LandmarkSmoother.prev_landmarks (smoother s) = last_landmarks None outs /\
    last_landmarks None outs = Some (frame_with_wrist 0).
Proof.
  cbv zeta. eexists. eexists. split; [vm_compute; reflexivity |].
  split; [| vm_compute; reflexivity].
  apply (process_keeps_smoother_history
           [ Captured [frame_with_wrist 0]; ReadFailed; Captured [];
             Captured [frame_with_wrist 0.5] ]).
  vm_compute. reflexivity.
Defined.

End Process.

(** ** The camera *)

Section CameraBounds.
Import Camera.
#[local] Open Scope float_scope.

(** X23: Whatever the deltas, NaN included, [orbit] leaves the target pitch
    within [-80, 80] and [zoom] leaves the distance within [10, 100];
    [orbit] touches nothing but the two targets, [zoom] nothing but the
    distance. *)
Theorem camera_limits (c : t) (delta_yaw delta_pitch delta : float) :
  ((-80 <=? target_pitch (orbit c delta_yaw delta_pitch)) = true /\
   (target_pitch (orbit c delta_yaw delta_pitch) <=? 80) = true) /\
  ((10 <=? distance (zoom c delta)) = true /\
   (distance (zoom c delta) <=? 100) = true) /\
  (distance (orbit c delta_yaw delta_pitch) = distance c /\
   yaw (orbit c delta_yaw delta_pitch) = yaw c /\
   pitch (orbit c delta_yaw delta_pitch) = pitch c) /\
  (yaw (zoom c delta) = yaw c /\ pitch (zoom c delta) = pitch c /\
   target_yaw (zoom c delta) = target_yaw c /\
   target_pitch (zoom c delta) = target_pitch c).
Proof.
  split_ands; try reflexivity.
  - unfold orbit, py_max, py_min, min_pitch, max_pitch. cbn [target_pitch].
    destruct (target_pitch c + delta_pitch <? 80.0) eqn:E1.
    + destruct (-80.0 <? target_pitch c + delta_pitch) eqn:E2.
      * now apply ltb_leb.
      * vm_compute. reflexivity.
    + vm_compute. reflexivity.
  - unfold orbit, py_max, py_min, min_pitch, max_pitch. cbn [target_pitch].
    destruct (target_pitch c + delta_pitch <? 80.0) eqn:E1.
    + destruct (-80.0 <? target_pitch c + delta_pitch) eqn:E2.
      * now apply ltb_leb.
      * vm_compute. reflexivity.
    + vm_compute. reflexivity.
  - unfold zoom, py_max, py_min, min_distance, max_distance. cbn [distance].
    destruct (distance c - delta <? 100.0) eqn:E1.
    + destruct (10.0 <? distance c - delta) eqn:E2.
      * now apply ltb_leb.
      * vm_compute. reflexivity.
    + vm_compute. reflexivity.
  - unfold zoom, py_max, py_min, min_distance, max_distance. cbn [distance].
    destruct (distance c - delta <? 100.0) eqn:E1.
    + destruct (10.0 <? distance c - delta) eqn:E2.
      * now apply ltb_leb.
      * vm_compute. reflexivity.
    + vm_compute. reflexivity.
Qed.

End CameraBounds.

(** ** The editor: cursor, one-shot actions, lock *)

Section Editor.
Import AirForge.

Lemma place_keeps_grid (e : VoxelEngine.t) (x y z : Z) (c : option RGB) :
  VoxelEngine.grid_size (snd (VoxelEngine.place_voxel e x y z c)) =
  VoxelEngine.grid_size e.
Proof. exact (step_grid_size e (VoxelEngine.OpPlace x y z c)). Qed.





Lemma place_failed_same (e e' : VoxelEngine.t) (x y z : Z) (c : option RGB) :
  VoxelEngine.place_voxel e x y z c = (false, e') -> e' = e.
Proof.
  unfold VoxelEngine.place_voxel.
  destruct (VoxelEngine.is_valid_position e x y z); cbn; congruence.
Qed.

Lemma remove_failed_same (e e' : VoxelEngine.t) (x y z : Z) :
  VoxelEngine.remove_voxel e x y z = (false, e') -> e' = e.
Proof.
  unfold VoxelEngine.remove_voxel.
  destruct (PyDict.get (VoxelEngine.voxels e) (x, y, z)); cbn; congruence.
Qed.

Ltac destruct_frame a :=
  repeat match goal with
         | |- context [if ?b then _ else _] => destruct b eqn:?
         | |- context [match last_grab_pos a with _ => _ end] =>
             destruct (last_grab_pos a) as [[[? ?] ?]|]
         | |- context [match _peace_active a with _ => _ end] =>
             destruct (_peace_active a) as [[|]|] eqn:?
         end.

Lemma pinch_frame (a : t) (landmarks : option Frame) (time : Z) (a' : t) :
  _process_gesture a PINCH landmarks time = Some a' ->
  (voxel_engine a' = voxel_engine a /\
   (pinch_fired a = true -> pinch_fired a' = true)) \/
  (pinch_fired a = false /\ pinch_fired a' = true /\
   exists x y z,
     VoxelEngine.place_voxel (voxel_engine a) x y z None =
     (true, voxel_engine a')).
Proof.
  unfold _process_gesture, pinch_fired. destruct landmarks as [lm|].
  - destruct (nth_error lm INDEX_TIP) as [tip|]; [| discriminate].
    cbn [bind].
    destruct (cursor_from a _) as [[[x y] z]|]; [| discriminate].
    cbn [bind].
    destruct (VoxelEngine.place_voxel (voxel_engine a) x y z None)
      as [ok e] eqn:Ep.
    destruct (action_lock a) as [[[lu pf] df]|]; cbn [gesture_eqb];
      destruct_frame a; intros H; injection H as <-; cbn;
      try (left; split; [reflexivity | tauto]);
      try (left; split; [now apply place_failed_same in Ep | tauto]);
      right; split_ands; try reflexivity; try (now destruct pf);
      exists x, y, z; exact Ep.
  - intros H. injection H as <-. cbn. left. split; [reflexivity | tauto].
Qed.

Lemma run_pinch_fired (inputs : list Frame_input) : forall a a',
  all_gesture PINCH inputs -> pinch_fired a = true ->
  run a inputs = Some a' ->
  voxel_engine a' = voxel_engine a.
Proof.
  induction inputs as [|[[g lms] time] inputs IH]; intros a a' Hall Hf H;
    cbn [run] in H.
  - congruence.
  - inversion Hall as [|? ? Hg Hrest]; subst. cbn in Hg. subst g.
    destruct (_process_gesture a PINCH lms time) as [a1|] eqn:E;
      [| discriminate]. cbn [bind] in H.
    destruct (pinch_frame a lms time a1 E) as [[He Hk] | [Hn _]];
      [| congruence].
    rewrite <- He. apply (IH a1 a' Hrest (Hk Hf) H).
Qed.

(** X25: However many frames in a row carry the gesture PINCH, whatever their
    landmarks and clock values, the engine is changed by at most one
    successful [place_voxel], and by none when a pinch has already placed
    its voxel. *)
Theorem pinch_places_once (inputs : list Frame_input) : forall a a',
  all_gesture PINCH inputs ->
  run a inputs = Some a' ->
  (voxel_engine a' = voxel_engine a \/
   exists x y z,
     VoxelEngine.place_voxel (voxel_engine a) x y z None =
     (true, voxel_engine a')) /\
  (pinch_fired a = true -> voxel_engine a' = voxel_engine a).
Proof.
  induction inputs as [|[[g lms] time] inputs IH]; intros a a' Hall H.
  - cbn [run] in H. injection H as <-. split; [left |]; reflexivity.
  - split; [| intros Hf; now apply (run_pinch_fired _ a a' Hall Hf)].
    inversion Hall as [|? ? Hg Hrest]; subst. cbn in Hg. subst g.
    cbn [run] in H.
    destruct (_process_gesture a PINCH lms time) as [a1|] eqn:E;
      [| discriminate]. cbn [bind] in H.
    destruct (pinch_frame a lms time a1 E)
      as [[He _] | (_ & Hf1 & x & y & z & Hp)].
    + rewrite <- He. apply (IH a1 a' Hrest H).
    + right. exists x, y, z.
      now rewrite (run_pinch_fired _ a1 a' Hrest Hf1 H).
Qed.

Lemma peace_frame (a : t) (landmarks : option Frame) (time : Z) (a' : t) :
  _process_gesture a PEACE landmarks time = Some a' ->
  (voxel_engine a' = voxel_engine a /\
   (peace_active a = true -> peace_active a' = true)) \/
  (peace_active a = false /\ peace_active a' = true /\
   voxel_engine a' = VoxelEngine.next_color (voxel_engine a)).
Proof.
  unfold _process_gesture, peace_active. destruct landmarks as [lm|].
  - destruct (nth_error lm INDEX_TIP) as [tip|]; [| discriminate].
    cbn [bind].
    destruct (cursor_from a _) as [[[x y] z]|]; [| discriminate].
    cbn [bind].
    destruct (action_lock a) as [[[lu pf] df]|]; cbn [gesture_eqb];
      destruct_frame a; intros H; injection H as <-; cbn;
      try (left; split; [reflexivity | tauto]);
      right; split_ands; reflexivity.
  - intros H. injection H as <-. cbn. left. split; [reflexivity | tauto].
Qed.

Lemma run_peace_active (inputs : list Frame_input) : forall a a',
  all_gesture PEACE inputs -> peace_active a = true ->
  run a inputs = Some a' ->
  voxel_engine a' = voxel_engine a.
Proof.
  induction inputs as [|[[g lms] time] inputs IH]; intros a a' Hall Hf H;
    cbn [run] in H.
  - congruence.
  - inversion Hall as [|? ? Hg Hrest]; subst. cbn in Hg. subst g.
    destruct (_process_gesture a PEACE lms time) as [a1|] eqn:E;
      [| discriminate]. cbn [bind] in H.
    destruct (peace_frame a lms time a1 E) as [[He Hk] | [Hn _]];
      [| congruence].
    rewrite <- He. apply (IH a1 a' Hrest (Hk Hf) H).
Qed.

(** X26: However many frames in a row carry the gesture PEACE, the colour is
    cycled at most once, and nothing else of the engine changes. *)
Theorem peace_cycles_once (inputs : list Frame_input) : forall a a',
  all_gesture PEACE inputs ->
  run a inputs = Some a' ->
  (voxel_engine a' = voxel_engine a \/
   voxel_engine a' = VoxelEngine.next_color (voxel_engine a)) /\
  (peace_active a = true -> voxel_engine a' = voxel_engine a).
Proof.
  induction inputs as [|[[g lms] time] inputs IH]; intros a a' Hall H.
  - cbn [run] in H. injection H as <-. split; [left |]; reflexivity.
  - split; [| intros Hf; now apply (run_peace_active _ a a' Hall Hf)].
    inversion Hall as [|? ? Hg Hrest]; subst. cbn in Hg. subst g.
    cbn [run] in H.
    destruct (_process_gesture a PEACE lms time) as [a1|] eqn:E;
      [| discriminate]. cbn [bind] in H.
    destruct (peace_frame a lms time a1 E) as [[He _] | (_ & Hf1 & Hn)].
    + rewrite <- He. apply (IH a1 a' Hrest H).
    + right. now rewrite (run_peace_active _ a1 a' Hrest Hf1 H).
Qed.

Lemma locked_frame (a : t) (g : Gesture) (landmarks : option Frame)
    (time : Z) (a' : t) :
  time < lock_until a ->
  _process_gesture a g landmarks time = Some a' ->
  voxel_engine a' = voxel_engine a /\ camera a' = camera a /\
  lock_until a' = lock_until a.
Proof.
  unfold _process_gesture, lock_until. intros Ht.
  destruct landmarks as [lm|].
  - destruct (nth_error lm INDEX_TIP) as [tip|]; [| discriminate].
    cbn [bind].
    destruct (cursor_from a _) as [[[x y] z]|]; [| discriminate].
    cbn [bind].
    destruct (action_lock a) as [[[lu pf] df]|].
    + assert ((time <? lu) = true) as -> by (apply Z.ltb_lt; exact Ht).
      intros H. injection H as <-. cbn. auto.
    + assert ((time <? 0) = true) as -> by (apply Z.ltb_lt; exact Ht).
      intros H. injection H as <-. cbn. auto.
  - intros H. injection H as <-. cbn. auto.
Qed.

(** X27: While the clock is before [action_lock_until], whatever the gestures
    and the landmarks, no frame changes the engine, the camera or the lock
    itself. *)
Theorem locked_frames_change_nothing (inputs : list Frame_input) :
  forall a a',
  all_before (lock_until a) inputs ->
  run a inputs = Some a' ->
  voxel_engine a' = voxel_engine a /\ camera a' = camera a /\
  lock_until a' = lock_until a.
Proof.
  induction inputs as [|[[g lms] time] inputs IH]; intros a a' Hall H;
    cbn [run] in H.
  - injection H as <-. auto.
  - inversion Hall as [|? ? Ht Hrest]; subst. cbn in Ht.
    destruct (_process_gesture a g lms time) as [a1|] eqn:E;
      [| discriminate]. cbn [bind] in H.
    destruct (locked_frame a g lms time a1 Ht E) as (He & Hc & Hl).
    rewrite <- Hl in Hrest.
    destruct (IH a1 a' Hrest H) as (He' & Hc' & Hl').
    split_ands; congruence.
Qed.

End Editor.

(** ** The demo platform *)

Section Demo.
Import AirForge.

Lemma length_box_cells (o : Pos) (a b c : nat) :
  length (box_cells o a b c) = (a * b * c)%nat.
Proof.
  destruct o as [[ox oy] oz]. unfold box_cells.
  rewrite (flat_map_constant_length (c := (b * c)%nat)).
  - rewrite length_seq. lia.
  - intros i _. rewrite (flat_map_constant_length (c := c)).
    + now rewrite length_seq.
    + intros j _. now rewrite length_map, length_seq.
Qed.

Lemma In_demo_cells (g : Z) (p : Pos) :
  In p (demo_cells g) <-> in_box (g / 2 - 2, 0, g / 2 - 2) 5 1 5 p = true.
Proof.
  destruct p as [[px py] pz]. unfold demo_cells, in_box, in_range.
  rewrite in_flat_map, !andb_true_iff, !Z.leb_le, !Z.ltb_lt. split.
  - intros (x & Hx & Hin). apply in_map_iff in Hin.
    destruct Hin as (z & Heq & Hz). apply In_py_range2 in Hx, Hz.
    injection Heq as <- <- <-. lia.
  - intros [[Hx Hy] Hz]. exists px. split; [apply In_py_range2; lia |].
    apply in_map_iff. exists pz. split; [f_equal; f_equal; lia |].
    apply In_py_range2. lia.
Qed.

Lemma place_all (v : RGB) (cells : list Pos) : forall e : VoxelEngine.t,
  (forall x y z, In (x, y, z) cells ->
                 VoxelEngine.is_valid_position e x y z = true) ->
  cache_coherent e ->
  let e' :=
    fold_left
      (fun (e : VoxelEngine.t) (p : Pos) =>
         let '(x, y, z) := p in
         snd (VoxelEngine.place_voxel e x y z (Some v)))
      cells e in
  VoxelEngine.voxels e' =
    fold_left (fun d k => PyDict.set d k (mkVoxel v)) cells
              (VoxelEngine.voxels e) /\
  cache_coherent e' /\
  VoxelEngine.grid_size e' = VoxelEngine.grid_size e.
Proof.
  induction cells as [|[[x y] z] cells IH]; intros e Hv Hc; cbn [fold_left].
  - split_ands; [reflexivity | exact Hc | reflexivity].
  - assert (VoxelEngine.is_valid_position e x y z = true) as Hxyz
      by (apply Hv; now left).
    pose proof (step_cache_coherent e (VoxelEngine.OpPlace x y z (Some v)) Hc)
      as Hc1.
    pose proof (place_keeps_grid e x y z (Some v)) as Hg1.
    cbn [VoxelEngine.step] in Hc1.
    destruct (IH (snd (VoxelEngine.place_voxel e x y z (Some v)))) as
      (IH1 & IH2 & IH3).
    + intros x' y' z' Hin. unfold VoxelEngine.is_valid_position.
      rewrite Hg1. apply (Hv x' y' z'). now right.
    + exact Hc1.
    + split_ands; [| exact IH2 | congruence].
      rewrite IH1. f_equal. unfold VoxelEngine.place_voxel. rewrite Hxyz.
      reflexivity.
Qed.

Lemma demo_on_empty (a : t) :
  wired a -> 5 <= grid_size a ->
  VoxelEngine.voxels (voxel_engine a) = [] ->
  cache_coherent (voxel_engine a) ->
  holds_demo_platform (voxel_engine (_create_demo_structure a)) (grid_size a).
Proof.
  intros [Hw _] Hg Hempty Hc.
  unfold _create_demo_structure, with_engine. cbn [voxel_engine].
  set (g := grid_size a) in *.
  destruct (place_all (100, 100, 100) (demo_cells g) (voxel_engine a))
    as (Hvox & Hcoh & _); [| exact Hc |].
  { intros x y z Hin. apply In_demo_cells in Hin.
    unfold in_box, in_range in Hin.
    rewrite !andb_true_iff, !Z.leb_le, !Z.ltb_lt in Hin.
    apply is_valid_position_iff. rewrite Hw. fold g.
    pose proof (Z.div_mod g 2 ltac:(lia)).
    pose proof (Z.mod_pos_bound g 2 ltac:(lia)). lia. }
  set (e := fold_left _ (demo_cells g) (voxel_engine a)) in *.
  rewrite Hempty in Hvox.
  assert (forall p, PyDict.get (VoxelEngine.voxels e) p =
                    if in_box (g / 2 - 2, 0, g / 2 - 2) 5 1 5 p
                    then Some (mkVoxel (100, 100, 100)) else None) as Hget.
  { intros p. rewrite Hvox.
    destruct (get_fold_set (mkVoxel (100, 100, 100)) (demo_cells g) [] p)
      as [H1 H2].
    destruct (in_box _ 5 1 5 p) eqn:E.
    - apply H1, In_demo_cells, E.
    - rewrite H2; [reflexivity |]. rewrite In_demo_cells, E. discriminate. }
  assert (Permutation (PyDict.keys (VoxelEngine.voxels e))
            (box_cells (g / 2 - 2, 0, g / 2 - 2) 5 1 5)) as Hperm.
  { apply NoDup_Permutation.
    - rewrite Hvox. apply NoDup_keys_fold_set. constructor.
    - apply NoDup_box_cells.
    - intros p. rewrite <- in_box_iff. specialize (Hget p).
      destruct (in_box _ 5 1 5 p).
      + split; [reflexivity | intros _]. eapply get_Some_in, Hget.
      + split; [| discriminate]. intros Hin. exfalso.
        apply (get_None_iff (VoxelEngine.voxels e) p); assumption. }
  unfold holds_demo_platform. split_ands.
  - exact Hget.
  - rewrite <- (length_map fst). fold (PyDict.keys (VoxelEngine.voxels e)).
    rewrite (Permutation_length Hperm), length_box_cells. reflexivity.
  - destruct (get_visible_faces_coherent e Hcoh) as [-> _].
    rewrite (box_face_count e (g / 2 - 2, 0, g / 2 - 2) 5 1 5);
      [reflexivity | lia | lia | lia |].
    exact Hperm.
Qed.

(** X28: On a grid of size at least 5, the engine of a new application holds the
    demo platform and nothing else (25 gray voxels, 70 visible faces), and
    so does the engine after the key X, whatever it held before. *)
Theorem demo_platform :
  (forall g : Z, 5 <= g -> holds_demo_platform (voxel_engine (init g)) g) /\
  (forall a : t, wired a -> 5 <= grid_size a ->
     holds_demo_platform (voxel_engine (handle_key a K_x)) (grid_size a)).
Proof.
  split.
  - intros g Hg. unfold init.
    apply (demo_on_empty
             (mk (VoxelEngine.init g) Camera.init g (g / 2, g / 2, g / 2)
                 None None None None)).
    + split; [reflexivity | cbn; lia].
    + exact Hg.
    + reflexivity.
    + exact I.
  - intros a Hw Hg. cbn [handle_key].
    apply (demo_on_empty
             (with_engine a (VoxelEngine.clear (voxel_engine a)))).
    + destruct Hw as [Hw1 Hw2]. split; [exact Hw1 | exact Hw2].
    + exact Hg.
    + reflexivity.
    + exact I.
Qed.

Lemma demo_platform_witness :
  holds_demo_platform (voxel_engine (init 16)) 16 /\
  holds_demo_platform
    (voxel_engine (handle_key (handle_key (init 16) K_z) K_x)) 16.
Proof.
  destruct demo_platform as [H1 H2]. split.
  - apply H1. lia.
  - apply (H2 (handle_key (init 16) K_z)).
    + split; [reflexivity | cbn; lia].
    + cbn. lia.
Defined.

End Demo.

(** ** Runs of the editor on the frames of the tests *)

Section EditorRuns.
Import AirForge.


Lemma pinch_places_once_witness :
  let inputs :=
    [ (PINCH, Some (create_mock_hand 0.015), 1000);
      (PINCH, Some (create_mock_hand 0.001), 1016);
      (PINCH, None, 1200);
      (PINCH, Some (create_mock_hand 0.001), 1400) ] in
  exists a',
    run (init 16) inputs = Some a' /\
    (voxel_engine a' = voxel_engine (init 16) \/
     exists x y z,
       VoxelEngine.place_voxel (voxel_engine (init 16)) x y z None =
       (true, voxel_engine a')) /\
    (pinch_fired (init 16) = true ->
     voxel_engine a' = voxel_engine (init 16)).
Proof.
  cbv zeta. eexists. split; [vm_compute; reflexivity |].
  apply (pinch_places_once
           [ (PINCH, Some (create_mock_hand 0.015), 1000);
             (PINCH, Some (create_mock_hand 0.001), 1016);
             (PINCH, None, 1200);
             (PINCH, Some (create_mock_hand 0.001), 1400) ] (init 16)).
  - repeat constructor.
  - vm_compute. reflexivity.
Defined.

Lemma peace_cycles_once_witness :
  let inputs :=
    [ (PEACE, Some (create_mock_hand 0.15), 1000);
      (PEACE, Some (create_mock_hand 0.15), 1016);
      (PEACE, Some (create_mock_hand 0.15), 1400) ] in
  exists a',
    run (init 16) inputs = Some a' /\
    (voxel_engine a' = voxel_engine (init 16) \/
     voxel_engine a' = VoxelEngine.next_color (voxel_engine (init 16))) /\
    (peace_active (init 16) = true ->
     voxel_engine a' = voxel_engine (init 16)).
Proof.
  cbv zeta. eexists. split; [vm_compute; reflexivity |].
  apply (peace_cycles_once
           [ (PEACE, Some (create_mock_hand 0.15), 1000);
             (PEACE, Some (create_mock_hand 0.15), 1016);
             (PEACE, Some (create_mock_hand 0.15), 1400) ] (init 16)).
  - repeat constructor.
  - vm_compute. reflexivity.
Defined.

Lemma locked_frames_change_nothing_witness :
  exists a a',
    _process_gesture (init 16) PINCH (Some (create_mock_hand 0.015)) 1000 =
      Some a /\
    lock_until a = 1200 /\
    run a [ (PALM, Some (create_mock_hand 0.15), 1016);
            (GRAB, Some (create_mock_hand 0.15), 1100);
            (PEACE, Some (create_mock_hand 0.15), 1199) ] = Some a' /\
    voxel_engine a' = voxel_engine a /\ camera a' = camera a /\
    lock_until a' = lock_until a.
Proof.
  eexists. eexists.
  split; [vm_compute; reflexivity |].
  split; [vm_compute; reflexivity |].
  split; [vm_compute; reflexivity |].
  apply (locked_frames_change_nothing
           [ (PALM, Some (create_mock_hand 0.15), 1016);
             (GRAB, Some (create_mock_hand 0.15), 1100);
             (PEACE, Some (create_mock_hand 0.15), 1199) ]).
  - repeat constructor; vm_compute; reflexivity.
  - vm_compute. reflexivity.
Defined.

End EditorRuns.
